(** * The controller core of the jocko broker ([jocko/leader.go])

    A shallow embedding of the leader loop, the membership reconciler and
    the partition failover planner, together with the properties the
    specification states about them.

    The Go code talks to several collaborators that live outside the file:
    the raft engine, the metadata FSM, serf, the logger, the dialer and the
    random source.  Every such interaction is a [call]; a Go function becomes
    a tree of calls ([prog]) whose branches are indexed by the answer of the
    collaborator.  A tree is run against an arbitrary environment, which
    yields the list of calls made with their answers (the trace) and the way
    the function ended: a return value or a Go panic. *)

From Stdlib Require Import ZArith List Bool Ascii Lia.
From stdpp Require Import base option list strings gmap pretty.

Set Default Proof Using "Type".

(** ** Go primitives *)

(** A Go [error]: [None] is [nil], [Some msg] an error with that text. *)
Abbreviation error := (option string) (only parsing).

(** [time.Duration] counts nanoseconds. *)
Abbreviation Duration := Z (only parsing).
Definition Second : Duration := 1000000000%Z.
Definition Minute : Duration := (60 * Second)%Z.

(** Conversion of an integer to a Go string ([raft.ServerID(id)] with [id]
    an [int32]): the UTF-8 encoding of the code point, and of U+FFFD when the
    integer is not a valid code point. *)
Definition rune_valid (r : Z) : bool :=
  ((0 <=? r)%Z && (r <? 0xD800)%Z) || ((0xDFFF <? r)%Z && (r <=? 0x10FFFF)%Z).

Definition utf8_encode (r : Z) : list Z :=
  if (r <? 0x80)%Z then [r]
  else if (r <? 0x800)%Z then
    [Z.lor 0xC0 (Z.shiftr r 6); Z.lor 0x80 (Z.land r 0x3F)]
  else if (r <? 0x10000)%Z then
    [Z.lor 0xE0 (Z.shiftr r 12);
     Z.lor 0x80 (Z.land (Z.shiftr r 6) 0x3F);
     Z.lor 0x80 (Z.land r 0x3F)]
  else
    [Z.lor 0xF0 (Z.shiftr r 18);
     Z.lor 0x80 (Z.land (Z.shiftr r 12) 0x3F);
     Z.lor 0x80 (Z.land (Z.shiftr r 6) 0x3F);
     Z.lor 0x80 (Z.land r 0x3F)].

Definition string_of_bytes (l : list Z) : string :=
  fold_right (fun b s => String (Ascii.ascii_of_N (Z.to_N b)) s) EmptyString l.

Definition string_of_int (i : Z) : string :=
  string_of_bytes (utf8_encode (if rune_valid i then i else 0xFFFD%Z)).

(** ** Data model

    The types of the packages [metadata], [structs], [protocol] and [config]
    are declared outside this file; they are modelled from their use in
    [leader.go] and from section 3 of the specification.  A Go [int32] is a
    [Z]: the code compares and converts node IDs, it never computes on them. *)

(** [serf.Member] and its status. *)
Inductive MemberStatus : Type :=
| StatusNone | StatusAlive | StatusLeaving | StatusLeft | StatusFailed.

Record Member : Type := mkMember {
  Member_Name : string;
  Member_Tags : gmap string string;
  Member_Status : MemberStatus
}.

(** Go's [m.Tags[k]]: the empty string when the key is missing. *)
Definition tag (m : Member) (k : string) : string :=
  default EmptyString (Member_Tags m !! k).

(** Modelled from the spec: [metadata.Broker], the BrokerMetadata of the
    specification.  [ID] is a [metadata.NodeID], an [int32] with the methods
    [Int32] and [String]. *)
Record BrokerMetadata : Type := mkBrokerMetadata {
  BrokerMetadata_ID : Z;
  BrokerMetadata_Name : string;
  BrokerMetadata_Bootstrap : bool;
  BrokerMetadata_NonVoter : bool;
  BrokerMetadata_SerfLANAddr : string;
  BrokerMetadata_RaftAddr : string;
  BrokerMetadata_BrokerAddr : string
}.

Definition NodeID_Int32 (id : Z) : Z := id.
Definition NodeID_String (id : Z) : string := pretty id.

(** Modelled from the spec: the status of a [structs.HealthCheck], one of
    passing, warning and critical. *)
Inductive HealthStatus : Type := HealthPassing | HealthWarning | HealthCritical.

Definition HealthStatus_eqb (a b : HealthStatus) : bool :=
  match a, b with
  | HealthPassing, HealthPassing
  | HealthWarning, HealthWarning
  | HealthCritical, HealthCritical => true
  | _, _ => false
  end.

(** Modelled from the spec: [structs.HealthCheck]. *)
Record HealthCheck : Type := mkHealthCheck {
  HealthCheck_Node : string;
  HealthCheck_CheckID : string;
  HealthCheck_Name : string;
  HealthCheck_Status : HealthStatus;
  HealthCheck_Output : string
}.

(** Modelled from the spec: [structs.Node].  [ID] and [Node] are two fields:
    the requests of this file set [Node], the failover planner tests [ID]
    and takes the new leader from [Node]. *)
Record Node : Type := mkNode {
  Node_ID : Z;
  Node_Node : Z;
  Node_Address : string;
  Node_Check : option HealthCheck;       (* a pointer: [None] is nil *)
  Node_Meta : gmap string string
}.

(** Modelled from the spec: [structs.Partition]. *)
Record Partition : Type := mkPartition {
  Partition_Topic : string;
  Partition_ID : Z;
  Partition_Partition : Z;
  Partition_Leader : Z;
  Partition_AR : list Z;
  Partition_ISR : list Z
}.

(** Modelled from the spec: the three proposals the FSM accepts, as
    [structs.MessageType] and as the request passed to [raftApply]. *)
Inductive MessageType : Type :=
| RegisterNodeRequestType | DeregisterNodeRequestType | RegisterPartitionRequestType.

Inductive Message : Type :=
| RegisterNodeRequest (n : Node)
| DeregisterNodeRequest (n : Node)
| RegisterPartitionRequest (p : Partition).

(** Modelled from the spec: [protocol.PartitionState] and
    [protocol.LeaderAndISRRequest], with the fields the controller sets; the
    others keep Go's zero value. *)
Record PartitionState : Type := mkPartitionState {
  PartitionState_Topic : string;
  PartitionState_Partition : Z;
  PartitionState_Leader : Z;
  PartitionState_ISR : list Z;
  PartitionState_Replicas : list Z
}.

Record LeaderAndISRRequest : Type := mkLeaderAndISRRequest {
  LeaderAndISRRequest_ControllerID : Z;
  LeaderAndISRRequest_PartitionStates : list PartitionState
}.

(** [raft.Server] and [raft.Configuration]. *)
Record Server : Type := mkServer {
  Server_ID : string;
  Server_Address : string
}.

Record Configuration : Type := mkConfiguration {
  Configuration_Servers : list Server
}.

(** Modelled from the spec: the part of [config.Config] the controller
    reads. *)
Record Config : Type := mkConfig {
  Config_ID : Z;
  Config_NodeName : string;
  Config_RaftAddr : string;
  Config_DataDir : string;
  Config_Bootstrap : bool;
  Config_DevMode : bool;
  Config_StartAsLeader : bool;
  Config_ReconcileInterval : Duration
}.

(** ** Calls to the collaborators *)

Inductive LogLevel : Type := LDebug | LInfo | LError.

(** What a [select] of the leader loop can receive. *)
Inductive SelectCase : Type :=
| RecvStop | RecvShutdown | RecvInterval | RecvReconcile (m : Member).

Inductive call : Type :=
(* s.logger *)
| Log (lvl : LogLevel) (msg : string)
(* s.LANMembers() *)
| LANMembers
(* s.fsm.State() queries *)
| GetNode (id : Z)
| GetNodes
| GetPartitions
| PartitionsByLeader (id : Z)
(* structs.Encode and s.raft *)
| Encode (t : MessageType) (msg : Message)
| RaftApply (t : MessageType) (msg : Message) (timeout : Duration)
| Barrier (timeout : Duration)
| GetConfiguration
| AddVoter (id addr : string) (prevIndex : Z) (timeout : Duration)
| AddNonvoter (id addr : string) (prevIndex : Z) (timeout : Duration)
| RemoveServer (id : string) (prevIndex : Z) (timeout : Duration)
(* math/rand *)
| Intn (n : Z)
(* s.brokerLookup, defaultDialer and the connection *)
| BrokerByID (id : string)
| Dial (network addr : string)
| ConnLeaderAndISR (addr : string) (req : LeaderAndISRRequest)
(* the readiness flag *)
| SetConsistentReadReady
| ResetConsistentReadReady
(* the select statement of the leader loop; the flag tells whether
   reconcileCh is non-nil *)
| Select (reconcileCh : bool)
(* setupRaft *)
| FsmNew (id : Z)
| NewTCPTransport (addr : string)
| NewInmemStore
| NewInmemSnapshotStore
| EnsurePath (path : string) (dir : bool)
| NewBoltStore (path : string)
| NewLogCache (capacity : Z)
| NewFileSnapshotStore (path : string) (retain : Z)
| HasExistingState
| BootstrapCluster (localID : string) (configuration : Configuration)
| NewRaft (localID : string) (startAsLeader : bool)
| RaftStoreClose.

(** The type of the answer to each call. *)
Definition resp (c : call) : Type :=
  match c with
  | Log _ _ => unit
  | LANMembers => list Member
  | GetNode _ => option Node * error
  | GetNodes => list Node * error
  | GetPartitions => list Partition * error
  | PartitionsByLeader _ => list Partition * error
  | Encode _ _ => error
  | RaftApply _ _ _ => option string * error
  | Barrier _ => error
  | GetConfiguration => Configuration * error
  | AddVoter _ _ _ _ => error
  | AddNonvoter _ _ _ _ => error
  | RemoveServer _ _ _ => error
  | Intn _ => Z
  | BrokerByID _ => option BrokerMetadata
  | Dial _ _ => error
  | ConnLeaderAndISR _ _ => error
  | SetConsistentReadReady => unit
  | ResetConsistentReadReady => unit
  | Select _ => SelectCase
  | FsmNew _ => error
  | NewTCPTransport _ => string * error
  | NewInmemStore => unit
  | NewInmemSnapshotStore => unit
  | EnsurePath _ _ => error
  | NewBoltStore _ => error
  | NewLogCache _ => error
  | NewFileSnapshotStore _ _ => error
  | HasExistingState => bool * error
  | BootstrapCluster _ _ => error
  | NewRaft _ _ => bool * error
  | RaftStoreClose => error
  end.

(** One entry of a trace: a call and the answer it got. *)
Inductive event : Type := Ev (c : call) (r : resp c).

(** ** Programs

    A Go function that returns an [A]: it returns, it panics, or it makes a
    call and goes on according to the answer. *)

Inductive prog (A : Type) : Type :=
| Ret (a : A)
| Panic (msg : string)
| Vis (c : call) (k : resp c -> prog A).
Arguments Ret {A} a.
Arguments Panic {A} msg.
Arguments Vis {A} c k.

(** Sequencing; a panic skips what follows. *)
Fixpoint bind {A B : Type} (p : prog A) (f : A -> prog B) : prog B :=
  match p with
  | Ret a => f a
  | Panic msg => Panic msg
  | Vis c k => Vis c (fun r => bind (k r) f)
  end.

#[export] Instance prog_ret : MRet prog := @Ret.
#[export] Instance prog_bind : MBind prog := fun A B f p => bind p f.

(** A single call. *)
Definition do (c : call) : prog (resp c) := Vis c Ret.

(** How a Go function ends. *)
Inductive outcome (A : Type) : Type :=
| Returned (a : A)
| Panicked (msg : string).
Arguments Returned {A} a.
Arguments Panicked {A} msg.

(** Running a program against an environment: [env] answers each call from
    its state [w : W], of any type, and moves to a new state.  The run yields
    the trace, the last state and the outcome. *)
Section Exec.
Context {W : Type} (env : forall c : call, W -> resp c * W).

Fixpoint exec {A : Type} (p : prog A) (w : W) : list event * W * outcome A :=
  match p with
  | Ret a => ([], w, Returned a)
  | Panic msg => ([], w, Panicked msg)
  | Vis c k =>
      let '(r, w1) := env c w in
      let '(tr, w2, o) := exec (k r) w1 in
      (Ev c r :: tr, w2, o)
  end.

Definition trace {A : Type} (p : prog A) (w : W) : list event := (exec p w).1.1.
Definition result {A : Type} (p : prog A) (w : W) : outcome A := (exec p w).2.
End Exec.

(** ** The code of [leader.go] *)

Definition barrierWriteTimeout : Duration := (2 * Minute)%Z.

(** The receiver [s *Broker]: its configuration and the two fields the
    deferred function of [setupRaft] inspects ([true]: not nil). *)
Record Broker : Type := mkBroker {
  Broker_config : Config;
  Broker_raft : bool;
  Broker_raftStore : bool
}.

Definition nil_dereference : string :=
  "runtime error: invalid memory address or nil pointer dereference".

(** Reading a field through a pointer. *)
Definition deref {A : Type} (p : option A) : prog A :=
  match p with
  | Some a => Ret a
  | None => Panic nil_dereference
  end.

(** [l[i]] on a slice. *)
Definition index {A : Type} (l : list A) (i : Z) : prog A :=
  match l !! Z.to_nat i with
  | Some a => if (0 <=? i)%Z then Ret a else Panic "runtime error: index out of range"
  | None => Panic "runtime error: index out of range"
  end.

(** [rand.Intn(n)] panics when [n <= 0] and otherwise answers a number of
    the half-open interval from 0 to [n]; whatever the source of randomness
    draws is reduced to that interval. *)
Definition rand_Intn (n : Z) : prog Z :=
  if (n <=? 0)%Z then Panic "invalid argument to Intn"
  else r ← do (Intn n); Ret (r `mod` n)%Z.

(** [filepath.Join] of two clean elements. *)
Definition filepath_Join (a b : string) : string := a +:+ "/" +:+ b.

(** The loops [for _, r := range l { if r != id { out = append(out, r) } }]
    of the failover planner. *)
Definition without (id : Z) (l : list Z) : list Z :=
  fold_left (fun out r => if negb (r =? id)%Z then out ++ [r] else out) l [].

Definition revokeLeadership : prog error :=
  do ResetConsistentReadReady;; Ret None.

Definition establishLeadership : prog error :=
  do SetConsistentReadReady;; Ret None.

Definition raftApply (t : MessageType) (msg : Message) : prog (option string * error) :=
  err ← do (Encode t msg);
  match err with
  | Some e => Ret (None, Some ("failed to encode request: " +:+ e))
  | None =>
      '(response, err) ← do (RaftApply t msg (30 * Second)%Z);
      match err with
      | Some e => Ret (None, Some e)
      | None => Ret (response, None)
      end
  end.

Fixpoint removeServer_range (meta : option BrokerMetadata) (servers : list Server)
  : prog error :=
  match servers with
  | [] => Ret None
  | server :: servers' =>
      do (Log LInfo "leader: removing server by id");;
      meta' ← deref meta;
      err ← do (RemoveServer (string_of_int (BrokerMetadata_ID meta')) 0%Z 0%Z);
      match err with
      | Some e =>
          do (Log LError "leader: failed to remove server");;
          Ret (Some e)
      | None => removeServer_range meta servers'
      end
  end.

Definition removeServer (m : Member) (meta : option BrokerMetadata) : prog error :=
  '(configuration, err) ← do GetConfiguration;
  match err with
  | Some e =>
      do (Log LError "leader: failed to get raft configuration");;
      Ret (Some e)
  | None => removeServer_range meta (Configuration_Servers configuration)
  end.

Section Leader.
(** [metadata.IsBroker] and the constants of [structs] are declared
    outside this file: the controller is verified for any of them.  The
    first component of [IsBroker]'s answer is a pointer, [None] being nil. *)
Variable IsBroker : Member -> option BrokerMetadata * bool.
Variables SerfCheckID SerfCheckName : string.
Variables SerfCheckAliveOutput SerfCheckFailedOutput : string.

(** The loop of [joinCluster] over the LAN members; [true] when another
    member in bootstrap mode was found. *)
Fixpoint joinCluster_range (m : Member) (members : list Member) : prog bool :=
  match members with
  | [] => Ret false
  | member :: members' =>
      let '(p, ok) := IsBroker member in
      if ok && negb (String.eqb (Member_Name member) (Member_Name m)) then
        p' ← deref p;
        if BrokerMetadata_Bootstrap p' then Ret true
        else joinCluster_range m members'
      else joinCluster_range m members'
  end.

Definition joinCluster (s : Broker) (m : Member) (parts : option BrokerMetadata)
  : prog error :=
  parts' ← deref parts;
  clash ← (if BrokerMetadata_Bootstrap parts' then
             members ← do LANMembers; joinCluster_range m members
           else Ret false);
  if clash : bool then
    do (Log LError "leader: multiple nodes in bootstrap mode. there can only be one.");;
    Ret None
  else
    '(configuration, err) ← do GetConfiguration;
    match err with
    | Some e =>
        do (Log LError "leader: failed to get raft configuration");;
        Ret (Some e)
    | None =>
        if String.eqb (Member_Name m) (Config_NodeName (Broker_config s))
           && (Z.of_nat (length (Configuration_Servers configuration)) <? 3)%Z
        then
          do (Log LDebug "leader: skipping self join since cluster is too small");;
          Ret None
        else if BrokerMetadata_NonVoter parts' then
          err ← do (AddNonvoter (string_of_int (BrokerMetadata_ID parts'))
                                (BrokerMetadata_RaftAddr parts') 0%Z 0%Z);
          match err with
          | Some e =>
              do (Log LError "leader: failed to add raft peer");;
              Ret (Some e)
          | None => Ret None
          end
        else
          do (Log LDebug "leader: join cluster: add voter");;
          err ← do (AddVoter (string_of_int (BrokerMetadata_ID parts'))
                             (BrokerMetadata_RaftAddr parts') 0%Z 0%Z);
          match err with
          | Some e =>
              do (Log LError "leader: failed to add raft peer");;
              Ret (Some e)
          | None => Ret None
          end
    end.

(** The [RegisterNodeRequest] of [handleAliveMember]. *)
Definition aliveNode (b : BrokerMetadata) : Node :=
  {| Node_ID := 0%Z;
     Node_Node := NodeID_Int32 (BrokerMetadata_ID b);
     Node_Address := BrokerMetadata_BrokerAddr b;
     Node_Meta :=
       <["raft_addr" := BrokerMetadata_RaftAddr b]>
         (<["serf_lan_addr" := BrokerMetadata_SerfLANAddr b]>
            (<["name" := BrokerMetadata_Name b]> ∅));
     Node_Check := Some
       {| HealthCheck_Node := NodeID_String (BrokerMetadata_ID b);
          HealthCheck_CheckID := SerfCheckID;
          HealthCheck_Name := SerfCheckName;
          HealthCheck_Status := HealthPassing;
          HealthCheck_Output := SerfCheckAliveOutput |} |}.

Definition handleAliveMember (s : Broker) (m : Member) : prog error :=
  let '(b, ok) := IsBroker m in
  err ← (if ok then joinCluster s m b else Ret None);
  match err with
  | Some e => Ret (Some e)
  | None =>
      b' ← deref b;
      '(node, err) ← do (GetNode (NodeID_Int32 (BrokerMetadata_ID b')));
      match err with
      | Some e => Ret (Some e)
      | None =>
          match node with
          | Some _ => Ret None
          | None =>
              do (Log LInfo "leader: member joined, marking health alive");;
              '(_, err) ← raftApply RegisterNodeRequestType
                                    (RegisterNodeRequest (aliveNode b'));
              Ret err
          end
      end
  end.

(** A [structs.Node] literal that sets the [Node] field only. *)
Definition bareNode (id : Z) : Node :=
  {| Node_ID := 0%Z; Node_Node := id; Node_Address := EmptyString;
     Node_Check := None; Node_Meta := ∅ |}.

Definition handleDeregisterMember (s : Broker) (reason : string) (member : Member)
  : prog error :=
  let '(meta, ok) := IsBroker member in
  if negb ok then Ret None
  else
    meta' ← deref meta;
    if (NodeID_Int32 (BrokerMetadata_ID meta') =? Config_ID (Broker_config s))%Z then
      do (Log LDebug "leader: deregistering self should be done by follower");;
      Ret None
    else
      err ← removeServer member meta;
      match err with
      | Some e => Ret (Some e)
      | None =>
          '(node, err) ← do (GetNode (NodeID_Int32 (BrokerMetadata_ID meta')));
          match err with
          | Some e => Ret (Some e)
          | None =>
              match node with
              | None => Ret None
              | Some _ =>
                  do (Log LInfo "leader: member is deregistering");;
                  '(_, err) ← raftApply DeregisterNodeRequestType
                    (DeregisterNodeRequest
                       (bareNode (NodeID_Int32 (BrokerMetadata_ID meta'))));
                  Ret err
              end
          end
      end.

Definition handleLeftMember (s : Broker) (m : Member) : prog error :=
  handleDeregisterMember s "left" m.

(** The loop that collects the passing nodes. *)
Fixpoint passing_range (id : Z) (nodes passing : list Node) : prog (list Node) :=
  match nodes with
  | [] => Ret passing
  | n :: nodes' =>
      check ← deref (Node_Check n);
      if HealthStatus_eqb (HealthCheck_Status check) HealthPassing
         && negb (Node_ID n =? id)%Z
      then passing_range id nodes' (passing ++ [n])
      else passing_range id nodes' passing
  end.

(** The [RegisterPartitionRequest] and the [PartitionState] built for the
    partition [p] once [node] is drawn. *)
Definition reassigned (id : Z) (p : Partition) (node : Node) : Partition :=
  {| Partition_Topic := Partition_Topic p;
     Partition_ID := Partition_Partition p;
     Partition_Partition := Partition_Partition p;
     Partition_Leader := Node_Node node;
     Partition_AR := without id (Partition_AR p);
     Partition_ISR := without id (Partition_ISR p) |}.

Definition partitionState (p : Partition) : PartitionState :=
  {| PartitionState_Topic := Partition_Topic p;
     PartitionState_Partition := Partition_Partition p;
     PartitionState_Leader := Partition_Leader p;
     PartitionState_ISR := Partition_ISR p;
     PartitionState_Replicas := Partition_AR p |}.

(** The loop over the partitions the failed broker leads; it answers the
    request assembled so far and the error that ended it, if any. *)
Fixpoint reassign_range (id : Z) (passing : list Node) (partitions : list Partition)
    (leaderAndISRReq : LeaderAndISRRequest) : prog (LeaderAndISRRequest * error) :=
  match partitions with
  | [] => Ret (leaderAndISRReq, None)
  | p :: partitions' =>
      i ← rand_Intn (Z.of_nat (length passing));
      node ← index passing i;
      '(_, err) ← raftApply RegisterPartitionRequestType
                            (RegisterPartitionRequest (reassigned id p node));
      match err with
      | Some e => Ret (leaderAndISRReq, Some e)
      | None =>
          reassign_range id passing partitions'
            {| LeaderAndISRRequest_ControllerID :=
                 LeaderAndISRRequest_ControllerID leaderAndISRReq;
               LeaderAndISRRequest_PartitionStates :=
                 LeaderAndISRRequest_PartitionStates leaderAndISRReq
                   ++ [partitionState p] |}
      end
  end.

(** The loop that sends the request to every passing node. *)
Fixpoint broadcast_range (passing : list Node) (leaderAndISRReq : LeaderAndISRRequest)
  : prog error :=
  match passing with
  | [] => Ret None
  | n :: passing' =>
      b ← do (BrokerByID (string_of_int (Node_Node n)));
      match b with
      | None => Panic "trying to assign partitions to unknown broker"
      | Some b' =>
          err ← do (Dial "tcp" (BrokerMetadata_BrokerAddr b'));
          match err with
          | Some e => Ret (Some e)
          | None =>
              err ← do (ConnLeaderAndISR (BrokerMetadata_BrokerAddr b') leaderAndISRReq);
              match err with
              | Some e => Ret (Some e)
              | None => broadcast_range passing' leaderAndISRReq
              end
          end
      end
  end.

(** The [RegisterNodeRequest] of [handleFailedMember]. *)
Definition failedNode (m : Member) (meta : BrokerMetadata) : Node :=
  {| Node_ID := 0%Z;
     Node_Node := NodeID_Int32 (BrokerMetadata_ID meta);
     Node_Address := EmptyString;
     Node_Meta := ∅;
     Node_Check := Some
       {| HealthCheck_Node := tag m "raft_addr";
          HealthCheck_CheckID := SerfCheckID;
          HealthCheck_Name := SerfCheckName;
          HealthCheck_Status := HealthCritical;
          HealthCheck_Output := SerfCheckFailedOutput |} |}.

(** The part of [handleFailedMember] after the node is registered as
    critical: the partition failover planner. *)
Definition failover (s : Broker) (id : Z) : prog error :=
  '(_, err) ← do GetPartitions;
  match err with
  | Some e => Panic e
  | None =>
      '(partitions, err) ← do (PartitionsByLeader id);
      match err with
      | Some e => Ret (Some e)
      | None =>
          '(nodes, err) ← do GetNodes;
          match err with
          | Some e => Ret (Some e)
          | None =>
              passing ← passing_range id nodes [];
              '(leaderAndISRReq, err) ←
                reassign_range id passing partitions
                  {| LeaderAndISRRequest_ControllerID := Config_ID (Broker_config s);
                     LeaderAndISRRequest_PartitionStates := [] |};
              match err with
              | Some e => Ret (Some e)
              | None => broadcast_range passing leaderAndISRReq
              end
          end
      end
  end.

Definition handleFailedMember (s : Broker) (m : Member) : prog error :=
  let '(meta, ok) := IsBroker m in
  if negb ok then Ret None
  else
    meta' ← deref meta;
    '(_, err) ← raftApply RegisterNodeRequestType
                          (RegisterNodeRequest (failedNode m meta'));
    match err with
    | Some e => Ret (Some e)
    | None => failover s (NodeID_Int32 (BrokerMetadata_ID meta'))
    end.

(** The [switch] of [reconcileMember]. *)
Definition dispatch (s : Broker) (m : Member) : prog error :=
  match Member_Status m with
  | StatusAlive => handleAliveMember s m
  | StatusFailed => handleFailedMember s m
  | StatusLeft => handleLeftMember s m
  | StatusNone | StatusLeaving => Ret None
  end.

Definition reconcileMember (s : Broker) (m : Member) : prog error :=
  err ← dispatch s m;
  match err with
  | Some e =>
      do (Log LError "leader: failed to reconcile member");;
      Ret None
  | None => Ret None
  end.

Fixpoint reconcile_range (s : Broker) (members : list Member) : prog error :=
  match members with
  | [] => Ret None
  | member :: members' =>
      err ← reconcileMember s member;
      match err with
      | Some e => Ret (Some e)
      | None => reconcile_range s members'
      end
  end.

Definition reconcile (s : Broker) : prog error :=
  members ← do LANMembers;
  reconcile_range s members.

(** *** The leader loop

    The loop runs until it receives from [stopCh] or [shutdownCh]; the
    embedding unrolls at most [fuel] passages through its two labels and
    answers whether the function returned within them.  The function
    deferred after leadership is established runs at both [return]
    statements and when a call made under it panics.  The timer
    [time.After(s.config.ReconcileInterval)] is the case [RecvInterval] of
    the [select]. *)
Inductive label : Type := RECONCILE | WAIT.

Definition deferred (establishedLeader : bool) : prog unit :=
  if establishedLeader then
    err ← revokeLeadership;
    match err with
    | Some e => do (Log LError "leader: failed to revoke leadership")
    | None => Ret tt
    end
  else Ret tt.

(** [unwinding d p]: [p], with [d] run when [p] panics. *)
Fixpoint unwinding {A : Type} (d : prog unit) (p : prog A) : prog A :=
  match p with
  | Ret a => Ret a
  | Panic msg => bind d (fun _ => Panic msg)
  | Vis c k => Vis c (fun r => unwinding d (k r))
  end.

Fixpoint leaderLoop_at (s : Broker) (fuel : nat) (pc : label)
    (establishedLeader reconcileCh : bool) : prog bool :=
  match fuel with
  | O => Ret false
  | S fuel' =>
      match pc with
      | RECONCILE =>
          (* reconcileCh = nil *)
          err ← do (Barrier barrierWriteTimeout);
          match err with
          | Some e =>
              do (Log LError "leader: failed to wait for barrier");;
              leaderLoop_at s fuel' WAIT establishedLeader false
          | None =>
              err ← (if negb establishedLeader then establishLeadership
                     else Ret None);
              match err with
              | Some e =>
                  do (Log LError "leader: failedto establish leader");;
                  leaderLoop_at s fuel' WAIT establishedLeader false
              | None =>
                  (* establishedLeader = true, the revocation is deferred *)
                  err ← unwinding (deferred true) (reconcile s);
                  match err with
                  | Some e =>
                      do (Log LError "leader: failed to reconcile");;
                      leaderLoop_at s fuel' WAIT true false
                  | None => leaderLoop_at s fuel' WAIT true true
                  end
              end
          end
      | WAIT =>
          received ← do (Select reconcileCh);
          match received with
          | RecvStop => deferred establishedLeader;; Ret true
          | RecvShutdown => deferred establishedLeader;; Ret true
          | RecvInterval =>
              leaderLoop_at s fuel' RECONCILE establishedLeader reconcileCh
          | RecvReconcile member =>
              (* a receive from a nil channel never happens *)
              if reconcileCh then
                unwinding (deferred establishedLeader) (reconcileMember s member);;
                leaderLoop_at s fuel' WAIT establishedLeader reconcileCh
              else leaderLoop_at s fuel' WAIT establishedLeader reconcileCh
          end
      end
  end.

Definition leaderLoop (s : Broker) (fuel : nat) : prog bool :=
  leaderLoop_at s fuel RECONCILE false false.
End Leader.

(** *** [setupRaft] *)

Section SetupRaft.
(** Constants of the package declared in another file. *)
Variable raftState : string.
Variables raftLogCacheSize snapshotsRetained : Z.

(** The stores: in memory in dev mode, on disk otherwise.  The answer is
    the broker with [raftStore] set as far as the code got, and the error
    that made it return, if any. *)
Definition setupRaft_stores (s : Broker) : prog (Broker * error) :=
  if Config_DevMode (Broker_config s) then
    do NewInmemStore;;
    do NewInmemSnapshotStore;;
    Ret (s, None)
  else
    let path := filepath_Join (Config_DataDir (Broker_config s)) raftState in
    err ← do (EnsurePath path true);
    match err with
    | Some e => Ret (s, Some e)
    | None =>
        err ← do (NewBoltStore (filepath_Join path "raft.db"));
        match err with
        | Some e => Ret (s, Some e)
        | None =>
            let s1 := {| Broker_config := Broker_config s;
                         Broker_raft := Broker_raft s;
                         Broker_raftStore := true |} in
            err ← do (NewLogCache raftLogCacheSize);
            match err with
            | Some e => Ret (s1, Some e)
            | None =>
                err ← do (NewFileSnapshotStore path snapshotsRetained);
                match err with
                | Some e => Ret (s1, Some e)
                | None => Ret (s1, None)
                end
            end
        end
    end.

(** The body of [setupRaft], without its deferred function. *)
Definition setupRaft_body (s : Broker) : prog (Broker * error) :=
  err ← do (FsmNew (Config_ID (Broker_config s)));
  match err with
  | Some e => Ret (s, Some e)
  | None =>
      '(localAddr, err) ← do (NewTCPTransport (Config_RaftAddr (Broker_config s)));
      match err with
      | Some e => Ret (s, Some e)
      | None =>
          let LocalID := string_of_int (Config_ID (Broker_config s)) in
          '(s1, err) ← setupRaft_stores s;
          match err with
          | Some e => Ret (s1, Some e)
          | None =>
              err ← (if Config_Bootstrap (Broker_config s)
                        || Config_DevMode (Broker_config s)
                     then
                       '(hasState, err) ← do HasExistingState;
                       match err with
                       | Some e => Ret (Some e)
                       | None =>
                           do (Log LDebug "leader: setup raft: has existing state");;
                           if negb hasState then
                             do (BootstrapCluster LocalID
                                   {| Configuration_Servers :=
                                        [ {| Server_ID := LocalID;
                                             Server_Address := localAddr |} ] |})
                           else Ret None
                       end
                     else Ret None);
              match err with
              | Some e => Ret (s1, Some e)
              | None =>
                  '(raft, err) ← do (NewRaft LocalID
                                       (Config_StartAsLeader (Broker_config s)));
                  Ret ({| Broker_config := Broker_config s1;
                          Broker_raft := raft;
                          Broker_raftStore := Broker_raftStore s1 |}, err)
              end
          end
      end
  end.

(** [setupRaft]: the body, then the deferred function, which closes the
    raft store when the function leaves without a raft instance. *)
Definition setupRaft (s : Broker) : prog (Broker * error) :=
  '(s1, err) ← setupRaft_body s;
  (if negb (Broker_raft s1) && Broker_raftStore s1 then
     err' ← do RaftStoreClose;
     match err' with
     | Some e => do (Log LError "leader: failed to close raft store")
     | None => Ret tt
     end
   else Ret tt);;
  Ret (s1, err).
End SetupRaft.

(** ** Reading traces *)

Definition call_of (e : event) : call :=
  match e with Ev c _ => c end.

Definition calls (tr : list event) : list call := map call_of tr.

(** *** Calls of a kind *)

Definition is_RemoveServer (c : call) : bool :=
  match c with RemoveServer _ _ _ => true | _ => false end.

(** The [RemoveServer] calls of a trace, in order. *)
Definition removals (tr : list event) : list call :=
  List.filter is_RemoveServer (calls tr).

(** The peers added to the raft configuration: [AddVoter] and [AddNonvoter]. *)
Definition is_Add (c : call) : bool :=
  match c with
  | AddVoter _ _ _ _ | AddNonvoter _ _ _ _ => true
  | _ => false
  end.

Definition is_Set (c : call) : bool :=
  match c with SetConsistentReadReady => true | _ => false end.

Definition is_Reset (c : call) : bool :=
  match c with ResetConsistentReadReady => true | _ => false end.

Definition touches_flag (c : call) : bool := is_Set c || is_Reset c.

(** *** Observations: what was asked and what was answered *)

(** The proposals submitted to raft with [s.raft.Apply], in order. *)
Definition proposed (tr : list event) : list (MessageType * Message) :=
  omap (fun e => match e with
                 | Ev (RaftApply t msg _) _ => Some (t, msg)
                 | _ => None
                 end) tr.

(** The partitions registered by the proposals of a trace. *)
Definition registered (tr : list event) : list Partition :=
  omap (fun e => match e with
                 | Ev (RaftApply RegisterPartitionRequestType (RegisterPartitionRequest p) _) _ =>
                     Some p
                 | _ => None
                 end) tr.

(** The requests sent to peers with [conn.LeaderAndISR], with the address. *)
Definition sent (tr : list event) : list (string * LeaderAndISRRequest) :=
  omap (fun e => match e with
                 | Ev (ConnLeaderAndISR addr req) _ => Some (addr, req)
                 | _ => None
                 end) tr.

(** The initial configurations submitted with [raft.BootstrapCluster]. *)
Definition bootstraps (tr : list event) : list (string * Configuration) :=
  omap (fun e => match e with
                 | Ev (BootstrapCluster id configuration) _ => Some (id, configuration)
                 | _ => None
                 end) tr.

(** The answers of the FSM queries. *)
Definition getNode_answers (tr : list event) : list (Z * (option Node * error)) :=
  omap (fun e => match e return option (Z * (option Node * error)) with
                 | Ev (GetNode id) r => Some (id, r)
                 | _ => None
                 end) tr.

Definition getNodes_answers (tr : list event) : list (list Node * error) :=
  omap (fun e => match e with
                 | Ev GetNodes r => Some r
                 | _ => None
                 end) tr.

Definition partitionsByLeader_answers (tr : list event)
  : list (Z * (list Partition * error)) :=
  omap (fun e => match e return option (Z * (list Partition * error)) with
                 | Ev (PartitionsByLeader id) r => Some (id, r)
                 | _ => None
                 end) tr.



(** The error a collaborator answered, if the call can fail. *)
Definition answer_error (e : event) : error :=
  match e with
  | Ev (GetNode _) r => r.2
  | Ev GetNodes r => r.2
  | Ev GetPartitions r => r.2
  | Ev (PartitionsByLeader _) r => r.2
  | Ev (Encode _ _) r => r
  | Ev (RaftApply _ _ _) r => r.2
  | Ev (Barrier _) r => r
  | Ev GetConfiguration r => r.2
  | Ev (AddVoter _ _ _ _) r => r
  | Ev (AddNonvoter _ _ _ _) r => r
  | Ev (RemoveServer _ _ _) r => r
  | Ev (Dial _ _) r => r
  | Ev (ConnLeaderAndISR _ _) r => r
  | Ev (FsmNew _) r => r
  | Ev (NewTCPTransport _) r => r.2
  | Ev (EnsurePath _ _) r => r
  | Ev (NewBoltStore _) r => r
  | Ev (NewLogCache _) r => r
  | Ev (NewFileSnapshotStore _ _) r => r
  | Ev HasExistingState r => r.2
  | Ev (BootstrapCluster _ _) r => r
  | Ev (NewRaft _ _) r => r.2
  | Ev RaftStoreClose r => r
  | _ => None
  end.


(** ** The properties, in the words of the specification

    Predicates and expected runs the theorems compare the code with. *)

(** *** Members *)

(** [other] is a broker in bootstrap mode whose name is not the one of [m]. *)
Definition other_bootstrap (IsBroker : Member -> option BrokerMetadata * bool)
    (m other : Member) : Prop :=
  exists p, IsBroker other = (Some p, true)
            /\ Member_Name other <> Member_Name m
            /\ BrokerMetadata_Bootstrap p = true.

(** On these members [IsBroker] never answers [true] with a nil pointer. *)
Definition IsBroker_sound (IsBroker : Member -> option BrokerMetadata * bool)
    (members : list Member) : Prop :=
  Forall (fun member => (IsBroker member).2 = true -> is_Some (IsBroker member).1) members.

(** *** Deregistration *)

(** The calls of a proposal through [raftApply]. *)
Definition raftApply_calls (t : MessageType) (msg : Message) : list call :=
  [Encode t msg; RaftApply t msg (30 * Second)%Z].


(** The events of the loop of [removeServer] when every removal succeeds. *)
Definition removal_events (meta : BrokerMetadata) (servers : list Server) : list event :=
  flat_map (fun _ => [Ev (Log LInfo "leader: removing server by id") tt;
                      Ev (RemoveServer (string_of_int (BrokerMetadata_ID meta)) 0%Z 0%Z) None])
           servers.


(** *** Bootstrap *)

(** The configuration whose only server is this node. *)
Definition single_server (s : Broker) (localAddr : string) : string * Configuration :=
  (string_of_int (Config_ID (Broker_config s)),
   {| Configuration_Servers :=
        [ {| Server_ID := string_of_int (Config_ID (Broker_config s));
             Server_Address := localAddr |} ] |}).

(** *** The failover planner *)

(** The passing set: the nodes with a passing health check, without the
    failed broker [id] (the test is on the field [ID] of the node). *)
Definition passing_set (id : Z) (nodes : list Node) : list Node :=
  List.filter (fun n => match Node_Check n with
                        | Some check => HealthStatus_eqb (HealthCheck_Status check) HealthPassing
                        | None => false
                        end && negb (Node_ID n =? id)%Z) nodes.

(** [rp] is the record of [p] after failover from [id]: a leader out of
    [passing], and the replica lists without [id], in their order. *)
Definition reassignment (id : Z) (passing : list Node) (p rp : Partition) : Prop :=
  (exists n, In n passing /\ Partition_Leader rp = Node_Node n)
  /\ Partition_AR rp = remove Z.eq_dec id (Partition_AR p)
  /\ Partition_ISR rp = remove Z.eq_dec id (Partition_ISR p)
  /\ Partition_Topic rp = Partition_Topic p
  /\ Partition_Partition rp = Partition_Partition p.

(** *** The batch of [reconcile]

    Every member of the batch is reconciled, in order, whatever the
    reconciliation of the members before it returned; only a panic ends the
    batch. *)

Section EachMember.
Context {W : Type} (env : forall c : call, W -> resp c * W).
Variable reconcileOne : Member -> prog error.

Fixpoint each_member (members : list Member) (w : W) : list event * W * outcome error :=
  match members with
  | [] => ([], w, Returned None)
  | member :: members' =>
      match exec env (reconcileOne member) w with
      | (tr, w1, Returned _) =>
          let '(tr2, w2, o) := each_member members' w1 in (tr ++ tr2, w2, o)
      | (tr, w1, Panicked msg) => (tr, w1, Panicked msg)
      end
  end.
End EachMember.

(** *** The readiness flag *)

(** The value of [consistentReadReady] after the calls [cs], from [ready]. *)
Fixpoint ready_after (ready : bool) (cs : list call) : bool :=
  match cs with
  | [] => ready
  | c :: cs' =>
      ready_after (if is_Set c then true else if is_Reset c then false else ready) cs'
  end.

(** [s.raft.Barrier(barrierWriteTimeout)], two minutes, answered nil. *)
Definition barrier_succeeded (e : event) : bool :=
  match e with
  | Ev (Barrier d) r =>
      match r with
      | None => (d =? 2 * 60 * 1000000000)%Z
      | Some _ => false
      end
  | _ => false
  end.

(** Every [SetConsistentReadReady] of the trace comes directly after a
    barrier that succeeded; [after_barrier] tells whether the trace itself
    starts directly after one. *)
Fixpoint sets_follow_barrier (after_barrier : bool) (tr : list event) : bool :=
  match tr with
  | [] => true
  | e :: tr' =>
      (if is_Set (call_of e) then after_barrier else true)
      && sets_follow_barrier (barrier_succeeded e) tr'
  end.

(** [only Q p]: whatever the collaborators answer, [p] makes only calls that
    satisfy [Q]. *)
Fixpoint only (Q : call -> bool) {A : Type} (p : prog A) : Prop :=
  match p with
  | Ret _ => True
  | Panic _ => True
  | Vis c k => Q c = true /\ forall r, only Q (k r)
  end.

(** What holds of a run of the leader loop entered with [establishedLeader]:
    the flag is set at most once, and not at all if leadership was already
    established; it is set only directly after a successful barrier; and when
    the loop has ended, by a return or by a panic, the flag is false. *)
Definition readiness (establishedLeader : bool) (tr : list event) (o : outcome bool) : Prop :=
  (length (List.filter is_Set (calls tr)) <= if establishedLeader then 0 else 1)%nat
  /\ (forall after_barrier, sets_follow_barrier after_barrier tr = true)
  /\ match o with
     | Returned false => True
     | _ => ready_after establishedLeader (calls tr) = false
     end.

(** ** A reference environment

    To run the code on concrete inputs: a cluster held in memory, whose
    collaborators answer from it.  [Cluster_failing] selects the calls that
    answer an error. *)

Record Cluster : Type := mkCluster {
  Cluster_members : list Member;
  Cluster_nodes : list Node;
  Cluster_partitions : list Partition;
  Cluster_servers : list Server;
  Cluster_brokers : list BrokerMetadata;
  Cluster_draws : list Z;
  Cluster_received : list SelectCase;
  Cluster_hasState : bool;
  Cluster_failing : call -> bool
}.

Definition failure (w : Cluster) (c : call) : error :=
  if Cluster_failing w c then Some "injected failure" else None.

(** Modelled from the spec: the metadata FSM (package [fsm]) is outside this
    file.  It stores nodes and partitions; [RegisterNode] creates the node or
    replaces the record with the same node ID, [DeregisterNode] destroys it,
    and [RegisterPartition] does the same for the partition with the same
    topic and partition ID. *)
Definition fsm_apply (msg : Message) (w : Cluster) : Cluster :=
  let nodes :=
    match msg with
    | RegisterNodeRequest n =>
        List.filter (fun n' => negb (Node_Node n' =? Node_Node n)%Z) (Cluster_nodes w) ++ [n]
    | DeregisterNodeRequest n =>
        List.filter (fun n' => negb (Node_Node n' =? Node_Node n)%Z) (Cluster_nodes w)
    | RegisterPartitionRequest _ => Cluster_nodes w
    end in
  let partitions :=
    match msg with
    | RegisterPartitionRequest p =>
        List.filter (fun p' => negb (String.eqb (Partition_Topic p') (Partition_Topic p)
                                     && (Partition_ID p' =? Partition_ID p)%Z))
                    (Cluster_partitions w) ++ [p]
    | _ => Cluster_partitions w
    end in
  {| Cluster_members := Cluster_members w;
     Cluster_nodes := nodes;
     Cluster_partitions := partitions;
     Cluster_servers := Cluster_servers w;
     Cluster_brokers := Cluster_brokers w;
     Cluster_draws := Cluster_draws w;
     Cluster_received := Cluster_received w;
     Cluster_hasState := Cluster_hasState w;
     Cluster_failing := Cluster_failing w |}.

Definition with_servers (servers : list Server) (w : Cluster) : Cluster :=
  {| Cluster_members := Cluster_members w;
     Cluster_nodes := Cluster_nodes w;
     Cluster_partitions := Cluster_partitions w;
     Cluster_servers := servers;
     Cluster_brokers := Cluster_brokers w;
     Cluster_draws := Cluster_draws w;
     Cluster_received := Cluster_received w;
     Cluster_hasState := Cluster_hasState w;
     Cluster_failing := Cluster_failing w |}.

Definition next_draw (w : Cluster) : Z * Cluster :=
  (hd 0%Z (Cluster_draws w),
   {| Cluster_members := Cluster_members w;
      Cluster_nodes := Cluster_nodes w;
      Cluster_partitions := Cluster_partitions w;
      Cluster_servers := Cluster_servers w;
      Cluster_brokers := Cluster_brokers w;
      Cluster_draws := tl (Cluster_draws w);
      Cluster_received := Cluster_received w;
      Cluster_hasState := Cluster_hasState w;
      Cluster_failing := Cluster_failing w |}).

Definition next_received (w : Cluster) : SelectCase * Cluster :=
  (hd RecvStop (Cluster_received w),
   {| Cluster_members := Cluster_members w;
      Cluster_nodes := Cluster_nodes w;
      Cluster_partitions := Cluster_partitions w;
      Cluster_servers := Cluster_servers w;
      Cluster_brokers := Cluster_brokers w;
      Cluster_draws := Cluster_draws w;
      Cluster_received := tl (Cluster_received w);
      Cluster_hasState := Cluster_hasState w;
      Cluster_failing := Cluster_failing w |}).

Definition add_server (id addr : string) (w : Cluster) : Cluster :=
  if existsb (fun sv => String.eqb (Server_ID sv) id) (Cluster_servers w) then w
  else with_servers (Cluster_servers w ++ [ {| Server_ID := id; Server_Address := addr |} ]) w.

Definition remove_server (id : string) (w : Cluster) : Cluster :=
  with_servers (List.filter (fun sv => negb (String.eqb (Server_ID sv) id)) (Cluster_servers w)) w.

Definition cluster_env (c : call) (w : Cluster) : resp c * Cluster :=
  match c as c0 return resp c0 * Cluster with
  | Log _ _ => (tt, w)
  | LANMembers => (Cluster_members w, w)
  | GetNode id =>
      (List.find (fun n => (Node_Node n =? id)%Z) (Cluster_nodes w),
       failure w (GetNode id), w)
  | GetNodes => (Cluster_nodes w, failure w GetNodes, w)
  | GetPartitions => (Cluster_partitions w, failure w GetPartitions, w)
  | PartitionsByLeader id =>
      (List.filter (fun p => (Partition_Leader p =? id)%Z) (Cluster_partitions w),
       failure w (PartitionsByLeader id), w)
  | Encode t msg => (failure w (Encode t msg), w)
  | RaftApply t msg d =>
      match failure w (RaftApply t msg d) with
      | Some e => (None, Some e, w)
      | None => (None, None, fsm_apply msg w)
      end
  | Barrier d => (failure w (Barrier d), w)
  | GetConfiguration =>
      ({| Configuration_Servers := Cluster_servers w |}, failure w GetConfiguration, w)
  | AddVoter id addr i d =>
      match failure w (AddVoter id addr i d) with
      | Some e => (Some e, w)
      | None => (None, add_server id addr w)
      end
  | AddNonvoter id addr i d =>
      match failure w (AddNonvoter id addr i d) with
      | Some e => (Some e, w)
      | None => (None, add_server id addr w)
      end
  | RemoveServer id i d =>
      match failure w (RemoveServer id i d) with
      | Some e => (Some e, w)
      | None => (None, remove_server id w)
      end
  | Intn n => next_draw w
  | BrokerByID id =>
      (List.find (fun b => String.eqb (string_of_int (BrokerMetadata_ID b)) id)
                 (Cluster_brokers w), w)
  | Dial network addr => (failure w (Dial network addr), w)
  | ConnLeaderAndISR addr req => (failure w (ConnLeaderAndISR addr req), w)
  | SetConsistentReadReady => (tt, w)
  | ResetConsistentReadReady => (tt, w)
  | Select _ => next_received w
  | FsmNew id => (failure w (FsmNew id), w)
  | NewTCPTransport addr => (addr, failure w (NewTCPTransport addr), w)
  | NewInmemStore => (tt, w)
  | NewInmemSnapshotStore => (tt, w)
  | EnsurePath path dir => (failure w (EnsurePath path dir), w)
  | NewBoltStore path => (failure w (NewBoltStore path), w)
  | NewLogCache n => (failure w (NewLogCache n), w)
  | NewFileSnapshotStore path n => (failure w (NewFileSnapshotStore path n), w)
  | HasExistingState => (Cluster_hasState w, failure w HasExistingState, w)
  | BootstrapCluster id configuration =>
      match failure w (BootstrapCluster id configuration) with
      | Some e => (Some e, w)
      | None => (None, with_servers (Configuration_Servers configuration) w)
      end
  | NewRaft id l =>
      match failure w (NewRaft id l) with
      | Some e => (false, Some e, w)
      | None => (true, None, w)
      end
  | RaftStoreClose => (failure w RaftStoreClose, w)
  end.

Definition never_failing : call -> bool := fun _ => false.

(** Decimal integers in tags, as [strconv] reads them into an [int32]. *)
Fixpoint parse_digits (s : string) (acc : Z) : option Z :=
  match s with
  | EmptyString => Some acc
  | String a s' =>
      let n := Z.of_nat (Ascii.nat_of_ascii a) in
      if (48 <=? n)%Z && (n <=? 57)%Z then parse_digits s' (10 * acc + (n - 48))%Z
      else None
  end.

Definition parse_int32 (s : string) : option Z :=
  let magnitude (digits : string) : option Z :=
    match digits with
    | EmptyString => None
    | _ => parse_digits digits 0%Z
    end in
  let signed : option Z :=
    match s with
    | String "-"%char digits => Z.opp <$> magnitude digits
    | String "+"%char digits => magnitude digits
    | _ => magnitude s
    end in
  z ← signed;
  if (-2147483648 <=? z)%Z && (z <=? 2147483647)%Z then Some z else None.

(** Modelled from the spec: [metadata.IsBroker] is outside this file.  A
    member is a broker iff its tags include [id] (parseable as int32),
    [raft_addr], [serf_lan_addr] and [broker_addr]; [bootstrap] and
    [non_voter] are optional tags.  A member that is not a broker gets the nil
    pointer and [false]. *)
Definition IsBroker_tags (m : Member) : option BrokerMetadata * bool :=
  match Member_Tags m !! "id" ≫= parse_int32,
        Member_Tags m !! "raft_addr",
        Member_Tags m !! "serf_lan_addr",
        Member_Tags m !! "broker_addr" with
  | Some id, Some raft_addr, Some serf_lan_addr, Some broker_addr =>
      (Some {| BrokerMetadata_ID := id;
               BrokerMetadata_Name := Member_Name m;
               BrokerMetadata_Bootstrap := bool_decide (is_Some (Member_Tags m !! "bootstrap"));
               BrokerMetadata_NonVoter := bool_decide (is_Some (Member_Tags m !! "non_voter"));
               BrokerMetadata_SerfLANAddr := serf_lan_addr;
               BrokerMetadata_RaftAddr := raft_addr;
               BrokerMetadata_BrokerAddr := broker_addr |}, true)
  | _, _, _, _ => (None, false)
  end.

(** *** Concrete inputs

    A cluster of three brokers [a], [b], [c] with node IDs 1, 2, 3; [b] is
    the controller. *)

(** Members of a small cluster. *)
Definition broker_member (name id : string) (extra : list (string * string))
    (status : MemberStatus) : Member :=
  {| Member_Name := name;
     Member_Tags := list_to_map (extra ++
       [("id", id); ("raft_addr", name +:+ ":9093");
        ("serf_lan_addr", name +:+ ":9094"); ("broker_addr", name +:+ ":9092")]);
     Member_Status := status |}.

Definition plain_member (name : string) (status : MemberStatus) : Member :=
  {| Member_Name := name; Member_Tags := ∅; Member_Status := status |}.

Definition controller : Broker :=
  {| Broker_config :=
       {| Config_ID := 2; Config_NodeName := "b"; Config_RaftAddr := "b:9093";
          Config_DataDir := "/var/jocko"; Config_Bootstrap := false;
          Config_DevMode := false; Config_StartAsLeader := false;
          Config_ReconcileInterval := Minute |};
     Broker_raft := true;
     Broker_raftStore := true |}.

Definition member_a (status : MemberStatus) : Member :=
  broker_member "a" "1" [("bootstrap", "true")] status.
Definition member_b (status : MemberStatus) : Member :=
  broker_member "b" "2" [] status.
Definition member_c (status : MemberStatus) : Member :=
  broker_member "c" "3" [] status.

Definition meta_of (m : Member) : BrokerMetadata :=
  default (mkBrokerMetadata 0 EmptyString false false EmptyString EmptyString EmptyString) (IsBroker_tags m).1.

Definition server_of (m : Member) : Server :=
  {| Server_ID := string_of_int (BrokerMetadata_ID (meta_of m));
     Server_Address := BrokerMetadata_RaftAddr (meta_of m) |}.

Definition passing_node (m : Member) : Node :=
  aliveNode "serfHealth" "Serf Health Status" "Agent alive and reachable" (meta_of m).

Definition three_brokers (a b c : MemberStatus) : Cluster :=
  {| Cluster_members := [member_a a; member_b b; member_c c];
     Cluster_nodes := [passing_node (member_a a); passing_node (member_b b);
                       passing_node (member_c c)];
     Cluster_partitions :=
       [ {| Partition_Topic := "T"; Partition_ID := 0; Partition_Partition := 0;
            Partition_Leader := 1; Partition_AR := [1; 2; 3]%Z;
            Partition_ISR := [1; 2; 3]%Z |} ];
     Cluster_servers := [server_of (member_a a); server_of (member_b b);
                         server_of (member_c c)];
     Cluster_brokers := [meta_of (member_a a); meta_of (member_b b); meta_of (member_c c)];
     Cluster_draws := [];
     Cluster_received := [];
     Cluster_hasState := true;
     Cluster_failing := never_failing |}.

(** The cluster of three when only [a] has a node record: no node is left
    with a passing check once [a] fails. *)
Definition only_a_registered : Cluster :=
  {| Cluster_members := Cluster_members (three_brokers StatusFailed StatusAlive StatusAlive);
     Cluster_nodes := [passing_node (member_a StatusAlive)];
     Cluster_partitions :=
       Cluster_partitions (three_brokers StatusFailed StatusAlive StatusAlive);
     Cluster_servers := Cluster_servers (three_brokers StatusFailed StatusAlive StatusAlive);
     Cluster_brokers := Cluster_brokers (three_brokers StatusFailed StatusAlive StatusAlive);
     Cluster_draws := [];
     Cluster_received := [];
     Cluster_hasState := true;
     Cluster_failing := never_failing |}.

(** A second member in bootstrap mode. *)
Definition member_d (status : MemberStatus) : Member :=
  broker_member "d" "4" [("bootstrap", "true")] status.

Definition two_bootstraps : Cluster :=
  {| Cluster_members := [member_b StatusAlive; member_a StatusAlive; member_d StatusAlive];
     Cluster_nodes := [];
     Cluster_partitions := [];
     Cluster_servers := [server_of (member_b StatusAlive)];
     Cluster_brokers := [];
     Cluster_draws := [];
     Cluster_received := [];
     Cluster_hasState := true;
     Cluster_failing := never_failing |}.

(** A broker started in dev mode without the bootstrap flag, on a machine
    with no raft state. *)
Definition dev_broker : Broker :=
  {| Broker_config :=
       {| Config_ID := 2; Config_NodeName := "b"; Config_RaftAddr := "b:9093";
          Config_DataDir := "/var/jocko"; Config_Bootstrap := false;
          Config_DevMode := true; Config_StartAsLeader := false;
          Config_ReconcileInterval := Minute |};
     Broker_raft := false;
     Broker_raftStore := false |}.

Definition fresh_machine : Cluster :=
  {| Cluster_members := []; Cluster_nodes := []; Cluster_partitions := [];
     Cluster_servers := []; Cluster_brokers := []; Cluster_draws := [];
     Cluster_received := []; Cluster_hasState := false;
     Cluster_failing := never_failing |}.

(** The reconciler of the controller [b], on the spec-modelled [IsBroker]. *)
Definition reconcile_b (m : Member) : prog error :=
  dispatch IsBroker_tags "serfHealth" "Serf Health Status" "alive" "failed" controller m.

(** A run in which no proposal failed: neither its encoding nor its
    submission to raft answered an error. *)
Definition is_proposal (c : call) : bool :=
  match c with
  | Encode _ _ | RaftApply _ _ _ => true
  | _ => false
  end.

Fixpoint proposals_succeed (tr : list event) : Prop :=
  match tr with
  | [] => True
  | e :: tr' =>
      (is_proposal (call_of e) = true -> answer_error e = None) /\ proposals_succeed tr'
  end.

(** ** What each function may call

    The calls a function of the reconciler can make, whatever its arguments
    and whatever the collaborators answer: the collaborators it talks to,
    the kind of its proposals and the messages it logs. *)

Definition LogLevel_eqb (a b : LogLevel) : bool :=
  match a, b with
  | LDebug, LDebug | LInfo, LInfo | LError, LError => true
  | _, _ => false
  end.

(** [lvl] and [msg] are one of the [lines]. *)
Definition logs (lines : list (LogLevel * string)) (lvl : LogLevel) (msg : string) : bool :=
  existsb (fun line => LogLevel_eqb line.1 lvl && String.eqb line.2 msg) lines.

Definition joinCluster_calls (c : call) : bool :=
  match c with
  | Log lvl msg =>
      logs [(LError, "leader: multiple nodes in bootstrap mode. there can only be one.");
            (LError, "leader: failed to get raft configuration");
            (LDebug, "leader: skipping self join since cluster is too small");
            (LDebug, "leader: join cluster: add voter");
            (LError, "leader: failed to add raft peer")] lvl msg
  | LANMembers | GetConfiguration => true
  | AddVoter _ _ prevIndex timeout | AddNonvoter _ _ prevIndex timeout =>
      (prevIndex =? 0)%Z && (timeout =? 0)%Z
  | _ => false
  end.

Definition handleAliveMember_calls (c : call) : bool :=
  joinCluster_calls c
  || match c with
     | Log lvl msg => logs [(LInfo, "leader: member joined, marking health alive")] lvl msg
     | GetNode _ => true
     | Encode RegisterNodeRequestType (RegisterNodeRequest _) => true
     | RaftApply RegisterNodeRequestType (RegisterNodeRequest _) timeout =>
         (timeout =? 30 * Second)%Z
     | _ => false
     end.

Definition removeServer_calls (c : call) : bool :=
  match c with
  | Log lvl msg =>
      logs [(LError, "leader: failed to get raft configuration");
            (LInfo, "leader: removing server by id");
            (LError, "leader: failed to remove server")] lvl msg
  | GetConfiguration => true
  | RemoveServer _ prevIndex timeout => (prevIndex =? 0)%Z && (timeout =? 0)%Z
  | _ => false
  end.

Definition handleDeregisterMember_calls (c : call) : bool :=
  removeServer_calls c
  || match c with
     | Log lvl msg =>
         logs [(LDebug, "leader: deregistering self should be done by follower");
               (LInfo, "leader: member is deregistering")] lvl msg
     | GetNode _ => true
     | Encode DeregisterNodeRequestType (DeregisterNodeRequest _) => true
     | RaftApply DeregisterNodeRequestType (DeregisterNodeRequest _) timeout =>
         (timeout =? 30 * Second)%Z
     | _ => false
     end.

(** The loop over the partitions, the loop over the passing nodes, the
    planner, and the handler that runs it. *)
Definition reassign_range_calls (c : call) : bool :=
  match c with
  | Intn _ => true
  | Encode RegisterPartitionRequestType (RegisterPartitionRequest _) => true
  | RaftApply RegisterPartitionRequestType (RegisterPartitionRequest _) timeout =>
      (timeout =? 30 * Second)%Z
  | _ => false
  end.

Definition broadcast_range_calls (c : call) : bool :=
  match c with
  | BrokerByID _ | ConnLeaderAndISR _ _ => true
  | Dial network _ => String.eqb network "tcp"
  | _ => false
  end.

Definition failover_calls (c : call) : bool :=
  reassign_range_calls c || broadcast_range_calls c
  || match c with
     | GetPartitions | PartitionsByLeader _ | GetNodes => true
     | _ => false
     end.

Definition handleFailedMember_calls (c : call) : bool :=
  failover_calls c
  || match c with
     | Encode RegisterNodeRequestType (RegisterNodeRequest _) => true
     | RaftApply RegisterNodeRequestType (RegisterNodeRequest _) timeout =>
         (timeout =? 30 * Second)%Z
     | _ => false
     end.

(** The calls of [reconcileMember], whatever the status of the member. *)
Definition reconcileMember_calls (c : call) : bool :=
  handleAliveMember_calls c || handleDeregisterMember_calls c || handleFailedMember_calls c
  || match c with
     | Log lvl msg => logs [(LError, "leader: failed to reconcile member")] lvl msg
     | _ => false
     end.

(** Kinds of calls. *)
Definition is_Log (c : call) : bool :=
  match c with Log _ _ => true | _ => false end.

(** A proposal that destroys a node record. *)
Definition is_deregistration (c : call) : bool :=
  match c with
  | Encode DeregisterNodeRequestType _ | RaftApply DeregisterNodeRequestType _ _
  | Encode _ (DeregisterNodeRequest _) | RaftApply _ (DeregisterNodeRequest _) _ => true
  | _ => false
  end.

(** A call that reads or writes partitions, or reaches a peer broker. *)
Definition is_failover (c : call) : bool :=
  match c with
  | GetPartitions | PartitionsByLeader _ | GetNodes | Intn _ | BrokerByID _
  | Dial _ _ | ConnLeaderAndISR _ _
  | Encode RegisterPartitionRequestType _ | RaftApply RegisterPartitionRequestType _ _
  | Encode _ (RegisterPartitionRequest _) | RaftApply _ (RegisterPartitionRequest _) _ => true
  | _ => false
  end.

(** ** More observations *)

(** The answers of [s.raft.GetConfiguration] and of [state.GetPartitions]. *)
Definition configuration_answers (tr : list event) : list (Configuration * error) :=
  omap (fun e => match e with
                 | Ev GetConfiguration r => Some r
                 | _ => None
                 end) tr.

Definition getPartitions_answers (tr : list event) : list (list Partition * error) :=
  omap (fun e => match e with
                 | Ev GetPartitions r => Some r
                 | _ => None
                 end) tr.

(** The calls that add a peer to the raft configuration, in order. *)
Definition added (tr : list event) : list call := List.filter is_Add (calls tr).

(** The calls on the raft configuration. *)
Definition is_membership (c : call) : bool :=
  match c with
  | GetConfiguration | AddVoter _ _ _ _ | AddNonvoter _ _ _ _ | RemoveServer _ _ _ => true
  | _ => false
  end.

(** The errors raft answered to the calls on its configuration, in order. *)
Definition raft_errors (tr : list event) : list string :=
  omap (fun e => if is_membership (call_of e) then answer_error e else None) tr.

(** The answers of [s.raft.RemoveServer], in order. *)
Definition removal_answers (tr : list event) : list error :=
  omap (fun e => match e return option error with
                 | Ev (RemoveServer _ _ _) r => Some r
                 | _ => None
                 end) tr.

(** The brokers looked up with [s.brokerLookup.BrokerByID], with the answer,
    and the addresses dialed, with the network. *)
Definition lookups (tr : list event) : list (string * option BrokerMetadata) :=
  omap (fun e => match e return option (string * option BrokerMetadata) with
                 | Ev (BrokerByID id) r => Some (id, r)
                 | _ => None
                 end) tr.

Definition dialed (tr : list event) : list (string * string) :=
  omap (fun e => match e with
                 | Ev (Dial network addr) _ => Some (network, addr)
                 | _ => None
                 end) tr.

(** The peer [joinCluster] adds for a member: a voter unless the member is
    tagged as a non-voter. *)
Definition peer (parts : BrokerMetadata) : call :=
  if BrokerMetadata_NonVoter parts then
    AddNonvoter (string_of_int (BrokerMetadata_ID parts)) (BrokerMetadata_RaftAddr parts) 0%Z 0%Z
  else
    AddVoter (string_of_int (BrokerMetadata_ID parts)) (BrokerMetadata_RaftAddr parts) 0%Z 0%Z.

(** The proposals raft accepted: [s.raft.Apply] answered no error. *)
Definition committed (tr : list event) : list (MessageType * Message) :=
  omap (fun e => match e return option (MessageType * Message) with
                 | Ev (RaftApply t msg _) r =>
                     match r.2 with
                     | None => Some (t, msg)
                     | Some _ => None
                     end
                 | _ => None
                 end) tr.

(** The part of [failover] that follows its three reads of the FSM: the
    passing nodes are collected, the partitions reassigned, and the request
    sent to every passing node. *)
Definition failover_plan (s : Broker) (id : Z) (partitions : list Partition)
    (nodes : list Node) : prog error :=
  passing ← passing_range id nodes [];
  '(leaderAndISRReq, err) ←
    reassign_range id passing partitions
      {| LeaderAndISRRequest_ControllerID := Config_ID (Broker_config s);
         LeaderAndISRRequest_PartitionStates := [] |};
  match err with
  | Some e => Ret (Some e)
  | None => broadcast_range passing leaderAndISRReq
  end.

(** The request [handleFailedMember] sends for the partitions the failed
    broker led. *)
Definition leaderAndISRRequest (s : Broker) (partitions : list Partition)
  : LeaderAndISRRequest :=
  {| LeaderAndISRRequest_ControllerID := Config_ID (Broker_config s);
     LeaderAndISRRequest_PartitionStates := map partitionState partitions |}.

(** A [RegisterPartition] proposal. *)
Definition registration (p : Partition) : MessageType * Message :=
  (RegisterPartitionRequestType, RegisterPartitionRequest p).

(** *** Reading a run of [setupRaft] *)

Definition is_RaftStoreClose (c : call) : bool :=
  match c with RaftStoreClose => true | _ => false end.

(** The calls that close the raft store. *)
Definition closes (tr : list event) : list call :=
  List.filter is_RaftStoreClose (calls tr).

(** The part of a run before the raft store is closed: the body of
    [setupRaft], without its deferred function. *)
Fixpoint before_close (tr : list event) : list event :=
  match tr with
  | [] => []
  | e :: tr' => if is_RaftStoreClose (call_of e) then [] else e :: before_close tr'
  end.

(** The errors the collaborators answered, in order. *)
Definition errors (tr : list event) : list string := omap answer_error tr.

(** The answers of [raftboltdb.NewBoltStore] and of [raft.NewRaft]. *)
Definition boltStore_answers (tr : list event) : list error :=
  omap (fun e => match e return option error with
                 | Ev (NewBoltStore _) r => Some r
                 | _ => None
                 end) tr.

Definition newRaft_answers (tr : list event) : list (bool * error) :=
  omap (fun e => match e return option (bool * error) with
                 | Ev (NewRaft _ _) r => Some r
                 | _ => None
                 end) tr.



(** ** Watching a run

    A property of the order of the calls of a run is stated with a monitor:
    it reads the calls and their answers one by one from a state, and
    refuses the run when a call is not allowed in its state. *)

Section Monitor.
Context {St : Type}.
Variable step : St -> forall c : call, resp c -> option St.

(** The state of the monitor after the trace, if it accepts it. *)
Fixpoint watch (st : St) (tr : list event) : option St :=
  match tr with
  | [] => Some st
  | Ev c r :: tr' =>
      match step st c r with
      | Some st' => watch st' tr'
      | None => None
      end
  end.

(** [holds final st p]: whatever the collaborators answer, the monitor
    accepts the calls of [p] from the state [st], and [final] holds of its
    last state and of the way [p] ends. *)
Fixpoint holds {A : Type} (final : St -> outcome A -> Prop) (st : St) (p : prog A) : Prop :=
  match p with
  | Ret a => final st (Returned a)
  | Panic msg => final st (Panicked msg)
  | Vis c k =>
      forall r, match step st c r with
                | Some st' => holds final st' (k r)
                | None => False
                end
  end.
End Monitor.

(** [returns R p]: whatever the collaborators answer, a value [p] returns
    satisfies [R]. *)
Fixpoint returns {A : Type} (R : A -> Prop) (p : prog A) : Prop :=
  match p with
  | Ret a => R a
  | Panic _ => True
  | Vis c k => forall r, returns R (k r)
  end.

(** *** The leader loop and the reconciler *)

(** The calls the leader loop makes itself: the barrier, the [select], the
    logger and the readiness flag.  Every other call of a run is made by
    the reconciler. *)
Definition is_loop_control (c : call) : bool :=
  match c with
  | Barrier _ | Select _ | Log _ _ | SetConsistentReadReady | ResetConsistentReadReady => true
  | _ => false
  end.

(** The readiness flag after a call. *)
Definition flag_after (ready : bool) (c : call) : bool :=
  if is_Set c then true else if is_Reset c then false else ready.

(** The monitor of the reconciler: a call of the reconciler is allowed only
    while the flag is set. *)
Definition ready_monitor (ready : bool) (c : call) (r : resp c) : option bool :=
  if is_loop_control c || ready then Some (flag_after ready c) else None.

(** The monitor of the establishment of leadership.  Until leadership is
    established a successful barrier must be followed directly by the
    setting of the flag, and the flag is set at no other moment. *)
Inductive Leadership : Type := NotEstablished | BarrierPassed | Established.

Definition leadership_monitor (st : Leadership) (c : call) (r : resp c) : option Leadership :=
  match st with
  | NotEstablished =>
      if barrier_succeeded (Ev c r) then Some BarrierPassed
      else if is_Set c then None
      else Some NotEstablished
  | BarrierPassed => if is_Set c then Some Established else None
  | Established => Some Established
  end.

(** The [select] received from [stopCh] or from [s.shutdownCh]. *)
Definition stop_received (e : event) : bool :=
  match e with
  | Ev (Select _) r =>
      match r with
      | RecvStop | RecvShutdown => true
      | _ => false
      end
  | _ => false
  end.

(** The monitor of the end of the loop: once told to stop, the loop makes
    at most one more call, the reset of the flag. *)
Inductive Stopping : Type := Running | Stopping_ | Revoked.

Definition stop_monitor (st : Stopping) (c : call) (r : resp c) : option Stopping :=
  match st with
  | Running => Some (if stop_received (Ev c r) then Stopping_ else Running)
  | Stopping_ => if is_Reset c then Some Revoked else None
  | Revoked => None
  end.

(** The error branches of [leaderLoop] that follow [establishLeadership],
    [reconcile] and [revokeLeadership]. *)
Definition is_dead_log (c : call) : bool :=
  match c with
  | Log _ msg =>
      String.eqb msg "leader: failedto establish leader"
      || String.eqb msg "leader: failed to reconcile"
      || String.eqb msg "leader: failed to revoke leadership"
  | _ => false
  end.

Definition dead_log_monitor (st : unit) (c : call) (r : resp c) : option unit :=
  if is_dead_log c then None else Some tt.

(** Whether the loop listens on [s.reconcileCh] after the trace: it does
    when the last barrier succeeded. *)
Definition listening (tr : list event) : bool :=
  fold_left (fun acc e => match e with
                          | Ev (Barrier _) r =>
                              match r with
                              | None => true
                              | Some _ => false
                              end
                          | _ => acc
                          end) tr false.

(** The monitor of the [select]: [reconcileCh] is not nil exactly when the
    last barrier succeeded. *)
Definition select_monitor (st : bool) (c : call) (r : resp c) : option bool :=
  match c return resp c -> option bool with
  | Barrier _ => fun r => Some match r with
                               | None => true
                               | Some _ => false
                               end
  | Select reconcileCh => fun _ => if Bool.eqb reconcileCh st then Some st else None
  | _ => fun _ => Some st
  end r.

(** *** Failing fast *)

(** How [handleFailedMember] ends when the call of [ev] answers the error
    [e]: an error of [GetPartitions] is a panic, an error of the encoding is
    wrapped, any other error is returned as it is. *)
Definition ends_with (ev : event) (e : string) (o : outcome error) : Prop :=
  match call_of ev with
  | GetPartitions => o = Panicked e
  | Encode _ _ => o = Returned (Some ("failed to encode request: " +:+ e))
  | _ => o = Returned (Some e)
  end.

(** A run in which no call is made after a collaborator has answered an
    error: either no error was answered, and the run ended with nil or with
    a panic, or the one error was answered to the last call, and decides
    how the run ended. *)
Definition fails_fast (tr : list event) (o : outcome error) : Prop :=
  (errors tr = [] /\ (o = Returned None \/ exists msg, o = Panicked msg))
  \/ (exists tr' ev e,
        tr = tr' ++ [ev] /\ errors tr' = [] /\ answer_error ev = Some e /\ ends_with ev e o).

(** The error of a function that returns a value and an error. *)
Definition error_of {A : Type} (o : outcome (A * option string)) : outcome (option string) :=
  match o with
  | Returned (_, err) => Returned err
  | Panicked msg => Panicked msg
  end.

(** ** [monitorLeadership]

    The function loops over a [select] on [raftNotifyCh] and [s.shutdownCh].
    Its state is the channel [weAreLeaderCh], nil or not; what it does is to
    log, to start the leader loop in a goroutine, to close the channel that
    stops the loop and to wait for the loop to return.  The embedding takes
    what the [select] receives, in order, and answers what the function
    did, in order, and whether it returned; when the list is exhausted the
    function is blocked in its [select]. *)

Inductive Received : Type :=
| RecvNotify (isLeader : bool)        (* isLeader := <-raftNotifyCh *)
| RecvShutdownCh.                     (* <-s.shutdownCh *)

Inductive Action : Type :=
| DoLog (lvl : LogLevel) (msg : string)
| GoLeaderLoop        (* weAreLeaderCh = make(...); leaderLoop.Add(1); go s.leaderLoop(ch) *)
| CloseWeAreLeaderCh  (* close(weAreLeaderCh) *)
| WaitLeaderLoop.     (* leaderLoop.Wait(); weAreLeaderCh = nil *)

(** [weAreLeaderCh] is [true] when the channel is not nil. *)
Fixpoint monitorLeadership_from (weAreLeaderCh : bool) (received : list Received)
  : list Action * bool :=
  match received with
  | [] => ([], false)
  | RecvShutdownCh :: _ => ([], true)
  | RecvNotify isLeader :: received' =>
      if isLeader then
        if weAreLeaderCh then
          let '(acts, returned) := monitorLeadership_from weAreLeaderCh received' in
          (DoLog LError "leader: attempted to start the leader loop while running" :: acts,
           returned)
        else
          let '(acts, returned) := monitorLeadership_from true received' in
          (GoLeaderLoop :: DoLog LInfo "leader: cluster leadership acquired" :: acts,
           returned)
      else
        if negb weAreLeaderCh then
          let '(acts, returned) := monitorLeadership_from weAreLeaderCh received' in
          (DoLog LError "leader: attempted to stop the leader loop while not running" :: acts,
           returned)
        else
          let '(acts, returned) := monitorLeadership_from false received' in
          (DoLog LDebug "leader: shutting down leader loop"
             :: CloseWeAreLeaderCh :: WaitLeaderLoop
             :: DoLog LInfo "leader: cluster leadership lost" :: acts,
           returned)
  end.

Definition monitorLeadership (received : list Received) : list Action * bool :=
  monitorLeadership_from false received.

(** The leader loops started, and those waited for. *)
Definition is_GoLeaderLoop (a : Action) : bool :=
  match a with GoLeaderLoop => true | _ => false end.

Definition is_WaitLeaderLoop (a : Action) : bool :=
  match a with WaitLeaderLoop => true | _ => false end.

Definition started (acts : list Action) : nat := length (List.filter is_GoLeaderLoop acts).
Definition waited (acts : list Action) : nat := length (List.filter is_WaitLeaderLoop acts).

(** The notifications of raft received before the shutdown, and the last
    of them; a node is not the leader before the first. *)
Fixpoint notifications (received : list Received) : list bool :=
  match received with
  | RecvNotify isLeader :: received' => isLeader :: notifications received'
  | _ => []
  end.

Definition is_leader (received : list Received) : bool :=
  List.last (notifications received) false.

(** *** More concrete inputs *)

(** The cluster [w] in which the calls selected by [failing] answer an
    error. *)
Definition failing_on (failing : call -> bool) (w : Cluster) : Cluster :=
  {| Cluster_members := Cluster_members w;
     Cluster_nodes := Cluster_nodes w;
     Cluster_partitions := Cluster_partitions w;
     Cluster_servers := Cluster_servers w;
     Cluster_brokers := Cluster_brokers w;
     Cluster_draws := Cluster_draws w;
     Cluster_received := Cluster_received w;
     Cluster_hasState := Cluster_hasState w;
     Cluster_failing := failing |}.

Definition is_GetNodes (c : call) : bool :=
  match c with GetNodes => true | _ => false end.

Definition is_RaftApply (c : call) : bool :=
  match c with RaftApply _ _ _ => true | _ => false end.

(** The controller [b] alone in its raft configuration, with no node
    registered yet. *)
Definition b_alone : Cluster :=
  {| Cluster_members := [member_b StatusAlive; member_c StatusAlive];
     Cluster_nodes := [];
     Cluster_partitions := [];
     Cluster_servers := [server_of (member_b StatusAlive)];
     Cluster_brokers := [];
     Cluster_draws := [];
     Cluster_received := [];
     Cluster_hasState := true;
     Cluster_failing := never_failing |}.

(** The handlers of the controller [b], on the spec-modelled [IsBroker]. *)
Definition alive_b (m : Member) : prog error :=
  handleAliveMember IsBroker_tags "serfHealth" "Serf Health Status" "alive" controller m.

Definition failed_b (m : Member) : prog error :=
  handleFailedMember IsBroker_tags "serfHealth" "Serf Health Status" "failed" controller m.

Definition critical_a : MessageType * Message :=
  (RegisterNodeRequestType,
   RegisterNodeRequest (failedNode "serfHealth" "Serf Health Status" "failed"
                                   (member_a StatusFailed) (meta_of (member_a StatusFailed)))).

Definition is_Barrier (c : call) : bool :=
  match c with Barrier _ => true | _ => false end.

(** The cluster of three with one more node, registered without a health
    check. *)
Definition with_a_bare_node : Cluster :=
  {| Cluster_members := Cluster_members (three_brokers StatusFailed StatusAlive StatusAlive);
     Cluster_nodes :=
       Cluster_nodes (three_brokers StatusFailed StatusAlive StatusAlive) ++ [bareNode 9];
     Cluster_partitions :=
       Cluster_partitions (three_brokers StatusFailed StatusAlive StatusAlive);
     Cluster_servers := Cluster_servers (three_brokers StatusFailed StatusAlive StatusAlive);
     Cluster_brokers := Cluster_brokers (three_brokers StatusFailed StatusAlive StatusAlive);
     Cluster_draws := [];
     Cluster_received := [];
     Cluster_hasState := true;
     Cluster_failing := never_failing |}.

(** A leadership in which raft never passes the barrier, until the stop. *)
Definition no_barrier : Cluster :=
  {| Cluster_members := []; Cluster_nodes := []; Cluster_partitions := [];
     Cluster_servers := []; Cluster_brokers := []; Cluster_draws := [];
     Cluster_received := [RecvStop]; Cluster_hasState := true;
     Cluster_failing := is_Barrier |}.

(** A broker that has not set up raft yet, out of dev mode. *)
Definition disk_broker : Broker :=
  {| Broker_config :=
       {| Config_ID := 2; Config_NodeName := "b"; Config_RaftAddr := "b:9093";
          Config_DataDir := "/var/jocko"; Config_Bootstrap := true;
          Config_DevMode := false; Config_StartAsLeader := false;
          Config_ReconcileInterval := Minute |};
     Broker_raft := false;
     Broker_raftStore := false |}.

Definition is_NewLogCache (c : call) : bool :=
  match c with NewLogCache _ => true | _ => false end.

(** The answers of [s.raftStore.Close], and what the deferred function of
    [setupRaft] does after the body: nothing, the close of the store, or
    the close and the log of its error. *)
Definition close_answers (tr : list event) : list error :=
  omap (fun e => match e return option error with
                 | Ev RaftStoreClose r => Some r
                 | _ => None
                 end) tr.

Definition deferred_close (answers : list error) : list event :=
  match answers with
  | [] => []
  | None :: _ => [Ev RaftStoreClose None]
  | Some e :: _ =>
      [Ev RaftStoreClose (Some e); Ev (Log LError "leader: failed to close raft store") tt]
  end.

(** *** The passing set, in the words of the specification *)

(** The nodes with a passing health check, excluding the failed broker: a
    node is the record of the broker whose ID is its field [Node], the
    field the registrations of this file set and the one the new leader and
    the broker lookup are taken from. *)
Definition spec_passing_set (failed : Z) (nodes : list Node) : list Node :=
  List.filter (fun n => match Node_Check n with
                        | Some check => HealthStatus_eqb (HealthCheck_Status check) HealthPassing
                        | None => false
                        end && negb (Node_Node n =? failed)%Z) nodes.

(** A cluster of three brokers [z], [b], [c] with node IDs 0, 2, 3, every
    node registered as [handleAliveMember] registers it; [z] leads the
    partition and fails. *)
Definition member_z (status : MemberStatus) : Member :=
  broker_member "z" "0" [] status.

Definition z_leads : Cluster :=
  {| Cluster_members := [member_z StatusFailed; member_b StatusAlive; member_c StatusAlive];
     Cluster_nodes := [passing_node (member_z StatusAlive); passing_node (member_b StatusAlive);
                       passing_node (member_c StatusAlive)];
     Cluster_partitions :=
       [ {| Partition_Topic := "T"; Partition_ID := 0; Partition_Partition := 0;
            Partition_Leader := 0; Partition_AR := [0; 2; 3]%Z;
            Partition_ISR := [0; 2; 3]%Z |} ];
     Cluster_servers := [server_of (member_z StatusAlive); server_of (member_b StatusAlive);
                         server_of (member_c StatusAlive)];
     Cluster_brokers := [meta_of (member_z StatusAlive); meta_of (member_b StatusAlive);
                         meta_of (member_c StatusAlive)];
     Cluster_draws := [];
     Cluster_received := [];
     Cluster_hasState := true;
     Cluster_failing := never_failing |}.

(** * Properties *)

(** ** Go conversions *)

(** [raft.ServerID(id)] is the one-rune string of the code point [id]; every
    [id] that is not a valid code point gives the same string, U+FFFD. *)
Example string_of_int_ascii : string_of_int 66 = "B".
Proof. reflexivity. Qed.

Example string_of_int_two_bytes :
  string_of_int 955 = string_of_bytes [0xCE; 0xBB]%Z.
Proof. reflexivity. Qed.

Example string_of_int_invalid :
  string_of_int (-1) = string_of_bytes [0xEF; 0xBF; 0xBD]%Z
  /\ string_of_int (-1) = string_of_int 0xD800.
Proof. split; reflexivity. Qed.

Example NodeID_String_decimal : NodeID_String (-12) = "-12".
Proof. reflexivity. Qed.

Example parse_int32_examples :
  parse_int32 "2147483647" = Some 2147483647%Z
  /\ parse_int32 "2147483648" = None
  /\ parse_int32 "-7" = Some (-7)%Z
  /\ parse_int32 "7a" = None
  /\ parse_int32 EmptyString = None.
Proof. repeat split; reflexivity. Qed.

(** ** Running programs *)

Section ExecLemmas.
Context {W : Type} (env : forall c : call, W -> resp c * W).

Lemma exec_bind {A B : Type} (p : prog A) (f : A -> prog B) (w : W) :
  exec env (bind p f) w =
    match exec env p w with
    | (tr, w1, Returned a) =>
        let '(tr2, w2, o) := exec env (f a) w1 in (tr ++ tr2, w2, o)
    | (tr, w1, Panicked msg) => (tr, w1, Panicked msg)
    end.
Proof.
  revert w. induction p as [a|msg|c k IH]; intros w; simpl.
  - destruct (exec env (f a) w) as [[tr2 w2] o]. reflexivity.
  - reflexivity.
  - destruct (env c w) as [r w1]. rewrite IH.
    destruct (exec env (k r) w1) as [[tr w2] [a|msg]].
    + destruct (exec env (f a) w2) as [[tr2 w3] o]. reflexivity.
    + reflexivity.
Qed.

Lemma exec_mbind {A B : Type} (p : prog A) (f : A -> prog B) (w : W) :
  exec env (p ≫= f) w =
    match exec env p w with
    | (tr, w1, Returned a) =>
        let '(tr2, w2, o) := exec env (f a) w1 in (tr ++ tr2, w2, o)
    | (tr, w1, Panicked msg) => (tr, w1, Panicked msg)
    end.
Proof. apply exec_bind. Qed.
End ExecLemmas.

(** Case analysis on the answers of the environment along a run. *)
Ltac answers env :=
  repeat (cbn in *;
          match goal with
          | |- context [env ?c ?w] =>
              let r := fresh "r" in
              let w' := fresh "w" in
              destruct (env c w) as [r w'] eqn:?
          | r : (_ * _)%type |- _ => destruct r
          | r : unit |- _ => destruct r
          | r : error |- _ => destruct r
          | r : option _ |- _ => destruct r
          | r : bool |- _ => destruct r
          end).


Lemma removals_removal_events (meta : BrokerMetadata) (servers : list Server) :
  removals (removal_events meta servers)
  = repeat (RemoveServer (string_of_int (BrokerMetadata_ID meta)) 0%Z 0%Z) (length servers).
Proof.
  induction servers as [|sv servers IH]; [reflexivity|].
  cbn. f_equal. exact IH.
Qed.

(** ** [removeServer] *)

Section RemoveServer.
Context {W : Type} (env : forall c : call, W -> resp c * W).




End RemoveServer.


(** ** [setupRaft] *)

Section SetupRaftBootstrap.
Context {W : Type} (env : forall c : call, W -> resp c * W).
Variable raftState : string.
Variables raftLogCacheSize snapshotsRetained : Z.

End SetupRaftBootstrap.


Example setupRaft_dev_mode_trace :
  bootstraps (trace cluster_env (setupRaft "raft" 512 2 dev_broker) fresh_machine)
  = [single_server dev_broker "b:9093"].
Proof. reflexivity. Qed.

(** ** The reconciler *)

Section Reconciler.
Context {W : Type} (env : forall c : call, W -> resp c * W).
Variable IsBroker : Member -> option BrokerMetadata * bool.
Variables SerfCheckID SerfCheckName : string.
Variables SerfCheckAliveOutput SerfCheckFailedOutput : string.

Lemma joinCluster_range_clash (m : Member) (members : list Member) :
  IsBroker_sound IsBroker members ->
  Exists (other_bootstrap IsBroker m) members ->
  joinCluster_range IsBroker m members = Ret true.
Proof.
  induction members as [|member members IH]; intros Hs Hex.
  - inversion Hex.
  - inversion Hs as [|? ? Hhd Htl]; subst. cbn.
    destruct (IsBroker member) as [p ok] eqn:Hb. cbn in Hhd.
    destruct (ok && negb (String.eqb (Member_Name member) (Member_Name m))) eqn:Htest.
    + apply andb_prop in Htest as [Hok _]. subst ok.
      destruct (Hhd eq_refl) as [p' ->]. cbn.
      destruct (BrokerMetadata_Bootstrap p') eqn:Hboot; [reflexivity|].
      apply IH; [assumption|].
      inversion Hex as [? ? (q & Hq & _ & Hqb)|]; subst; [|assumption].
      rewrite Hb in Hq. inversion Hq; subst. congruence.
    + apply IH; [assumption|].
      inversion Hex as [? ? (q & Hq & Hname & _)|]; subst; [|assumption].
      rewrite Hb in Hq. inversion Hq; subst. cbn in Htest.
      apply String.eqb_neq in Hname. rewrite Hname in Htest. discriminate.
Qed.

(** C9.  When the joining member declares Bootstrap and another member of
    the LAN pool, with a different name, declares it too, [joinCluster]
    reads the members, logs the violation and returns nil: it panics
    nowhere and adds no peer to the raft configuration. *)
Theorem joinCluster_refuses_second_bootstrap
    (s : Broker) (m : Member) (parts : BrokerMetadata) (w : W) :
  BrokerMetadata_Bootstrap parts = true ->
  IsBroker_sound IsBroker (env LANMembers w).1 ->
  Exists (other_bootstrap IsBroker m) (env LANMembers w).1 ->
  calls (trace env (joinCluster IsBroker s m (Some parts)) w)
    = [LANMembers;
       Log LError "leader: multiple nodes in bootstrap mode. there can only be one."]
  /\ result env (joinCluster IsBroker s m (Some parts)) w = Returned None
  /\ List.filter is_Add (calls (trace env (joinCluster IsBroker s m (Some parts)) w)) = [].
Proof.
  intros Hboot Hs Hex. unfold trace, result, joinCluster. cbn. rewrite Hboot. cbn.
  destruct (env LANMembers w) as [members w1]. cbn in Hs, Hex.
  rewrite (joinCluster_range_clash m members Hs Hex). cbn.
  destruct (env (Log LError _) w1) as [[] w2]. cbn. auto.
Qed.
End Reconciler.

(** [a] joins in bootstrap mode while [d] is in bootstrap mode too. *)
Lemma joinCluster_two_bootstraps :
  calls (trace cluster_env
           (joinCluster IsBroker_tags controller (member_a StatusAlive)
                        (Some (meta_of (member_a StatusAlive)))) two_bootstraps)
    = [LANMembers;
       Log LError "leader: multiple nodes in bootstrap mode. there can only be one."]
  /\ result cluster_env
       (joinCluster IsBroker_tags controller (member_a StatusAlive)
                    (Some (meta_of (member_a StatusAlive)))) two_bootstraps = Returned None
  /\ List.filter is_Add (calls (trace cluster_env
       (joinCluster IsBroker_tags controller (member_a StatusAlive)
                    (Some (meta_of (member_a StatusAlive)))) two_bootstraps)) = [].
Proof.
  apply (joinCluster_refuses_second_bootstrap cluster_env IsBroker_tags controller
           (member_a StatusAlive) (meta_of (member_a StatusAlive)) two_bootstraps).
  - reflexivity.
  - repeat constructor; vm_compute; eauto.
  - apply Exists_cons_tl, Exists_cons_tl, Exists_cons_hd.
    exists (meta_of (member_d StatusAlive)). vm_compute. repeat split; congruence.
Defined.

Section Deregister.
Context {W : Type} (env : forall c : call, W -> resp c * W).
Variable IsBroker : Member -> option BrokerMetadata * bool.
Variables SerfCheckID SerfCheckName : string.
Variables SerfCheckAliveOutput SerfCheckFailedOutput : string.

End Deregister.


Example handleLeftMember_c_leaves_proposal :
  proposed (trace cluster_env (reconcile_b (member_c StatusLeft))
                  (three_brokers StatusAlive StatusAlive StatusLeft))
  = [(DeregisterNodeRequestType, DeregisterNodeRequest (bareNode 3))].
Proof. reflexivity. Qed.

(** ** The failover planner *)

Lemma without_remove (id : Z) (l : list Z) : without id l = remove Z.eq_dec id l.
Proof.
  unfold without.
  assert (H : forall out, fold_left (fun out r => if negb (r =? id)%Z then out ++ [r] else out) l out
                          = out ++ remove Z.eq_dec id l).
  { induction l as [|r l IH]; intros out; cbn.
    - now rewrite app_nil_r.
    - rewrite IH. destruct (Z.eq_dec id r) as [->|Hne].
      + now rewrite Z.eqb_refl.
      + assert ((r =? id)%Z = false) as -> by (apply Z.eqb_neq; congruence).
        cbn. now rewrite <- app_assoc. }
  apply (H []).
Qed.

(** The list without [id] keeps exactly the other elements, in their order:
    it is the list of the elements that differ from [id]. *)
Lemma without_filter (id : Z) (l : list Z) :
  without id l = List.filter (fun r => negb (r =? id)%Z) l.
Proof.
  rewrite without_remove. induction l as [|r l IH]; cbn; [reflexivity|].
  destruct (Z.eq_dec id r) as [->|Hne].
  - now rewrite Z.eqb_refl.
  - assert ((r =? id)%Z = false) as -> by (apply Z.eqb_neq; congruence).
    cbn. now rewrite IH.
Qed.

Lemma without_In (id r : Z) (l : list Z) : In r (without id l) <-> In r l /\ r <> id.
Proof.
  rewrite without_filter, filter_In. rewrite negb_true_iff, Z.eqb_neq. tauto.
Qed.

Lemma passing_range_spec (id : Z) (nodes passing : list Node) :
  passing_range id nodes passing = Ret (passing ++ passing_set id nodes)
  \/ passing_range id nodes passing = Panic nil_dereference.
Proof.
  revert passing. induction nodes as [|n nodes IH]; intros passing; cbn.
  - left. now rewrite app_nil_r.
  - destruct (Node_Check n) as [check|]; cbn; [|now right].
    destruct (HealthStatus_eqb (HealthCheck_Status check) HealthPassing && negb (Node_ID n =? id)%Z).
    + destruct (IH (passing ++ [n])) as [->| ->]; [left|now right].
      now rewrite <- app_assoc.
    + apply IH.
Qed.

Lemma reassigned_reassignment (id : Z) (passing : list Node) (p : Partition) (node : Node) :
  In node passing -> reassignment id passing p (reassigned id p node).
Proof.
  intros Hin. unfold reassignment, reassigned. cbn.
  rewrite !without_remove. eauto 10.
Qed.

Lemma index_In {A : Type} (l : list A) (i : Z) :
  (exists a, index l i = Ret a /\ In a l) \/ (exists msg, index l i = Panic msg).
Proof.
  unfold index. destruct (l !! Z.to_nat i) as [a|] eqn:Hl; [|eauto].
  destruct (0 <=? i)%Z; [|eauto].
  left. exists a. split; [reflexivity|].
  apply list_elem_of_In, list_elem_of_lookup. eauto.
Qed.

Lemma registered_app (a b : list event) : registered (a ++ b) = registered a ++ registered b.
Proof. apply omap_app. Qed.

Lemma sent_app (a b : list event) : sent (a ++ b) = sent a ++ sent b.
Proof. apply omap_app. Qed.

Lemma partitionsByLeader_answers_app (a b : list event) :
  partitionsByLeader_answers (a ++ b)
  = partitionsByLeader_answers a ++ partitionsByLeader_answers b.
Proof. apply omap_app. Qed.

Lemma getNodes_answers_app (a b : list event) :
  getNodes_answers (a ++ b) = getNodes_answers a ++ getNodes_answers b.
Proof. apply omap_app. Qed.

Lemma Forall2_In_right {A B : Type} (R : A -> B -> Prop) (l1 : list A) (l2 : list B) (y : B) :
  Forall2 R l1 l2 -> In y l2 -> exists x, In x l1 /\ R x y.
Proof.
  induction 1 as [|x y' l1 l2 Hxy HF IH]; intros Hin; [destruct Hin|].
  destruct Hin as [->|Hin].
  - exists x. split; [now left|assumption].
  - destruct (IH Hin) as (x' & Hx' & Hr'). exists x'. split; [now right|assumption].
Qed.

Ltac observations :=
  unfold partitionsByLeader_answers, getNodes_answers, registered, sent, proposed in *.

Section Failover.
Context {W : Type} (env : forall c : call, W -> resp c * W).

Lemma reassign_range_run (id : Z) (passing : list Node) (partitions : list Partition)
    (req : LeaderAndISRRequest) (w : W) :
  let run := exec env (reassign_range id passing partitions req) w in
  (exists done rest,
      partitions = done ++ rest
      /\ Forall2 (reassignment id passing) done (registered run.1.1)
      /\ (forall req', run.2 = Returned (req', None) ->
          rest = []
          /\ req' = {| LeaderAndISRRequest_ControllerID := LeaderAndISRRequest_ControllerID req;
                       LeaderAndISRRequest_PartitionStates :=
                         LeaderAndISRRequest_PartitionStates req
                           ++ map partitionState partitions |}))
  /\ sent run.1.1 = []
  /\ partitionsByLeader_answers run.1.1 = []
  /\ getNodes_answers run.1.1 = [].
Proof.
  revert req w. induction partitions as [|p partitions IH]; intros req w; cbn.
  - split; [|auto]. exists [], []. repeat split; auto.
    inversion H; subst. destruct req'; cbn. now rewrite app_nil_r.
  - unfold rand_Intn.
    destruct (Z.of_nat (length passing) <=? 0)%Z; cbn.
    { split; [|auto]. exists [], (p :: partitions). repeat split; auto; discriminate. }
    destruct (env (Intn _) w) as [r w1]. cbn.
    destruct (index_In passing (r `mod` Z.of_nat (length passing))%Z)
      as [(node & -> & Hin)|(msg & ->)]; cbn.
    2:{ split; [|auto]. exists [], (p :: partitions). repeat split; auto; discriminate. }
    destruct (env (Encode _ _) w1) as [[e|] w2]; cbn.
    { split; [|auto]. exists [], (p :: partitions). repeat split; auto; discriminate. }
    destruct (env (RaftApply _ _ _) w2) as [[response [e|]] w3]; cbn.
    { split; [|auto]. exists [p], partitions. repeat split; auto; try discriminate.
      constructor; [|constructor]. now apply reassigned_reassignment. }
    specialize (IH {| LeaderAndISRRequest_ControllerID := LeaderAndISRRequest_ControllerID req;
                      LeaderAndISRRequest_PartitionStates :=
                        LeaderAndISRRequest_PartitionStates req ++ [partitionState p] |} w3).
    cbn in IH.
    destruct (exec env (reassign_range id passing partitions _) w3) as [[tr w4] o].
    cbn in *. destruct IH as ((done & rest & -> & HF & Hret) & Hs & Hp & Hn).
    split; [|auto]. exists (p :: done), rest. repeat split; auto.
    + constructor; [|assumption]. now apply reassigned_reassignment.
    + apply (Hret req' H).
    + destruct (Hret req' H) as [_ ->]. now rewrite <- app_assoc.
Qed.

Lemma broadcast_range_run (passing : list Node) (req : LeaderAndISRRequest) (w : W) :
  let run := exec env (broadcast_range passing req) w in
  registered run.1.1 = []
  /\ Forall (fun x => x.2 = req) (sent run.1.1)
  /\ partitionsByLeader_answers run.1.1 = []
  /\ getNodes_answers run.1.1 = [].
Proof.
  revert w. induction passing as [|n passing IH]; intros w; cbn.
  - auto.
  - destruct (env (BrokerByID _) w) as [[b|] w1]; cbn; [|auto].
    destruct (env (Dial _ _) w1) as [[e|] w2]; cbn; [auto|].
    destruct (env (ConnLeaderAndISR _ _) w2) as [[e|] w3]; cbn; [auto|].
    specialize (IH w3). cbn in IH.
    destruct (exec env (broadcast_range passing req) w3) as [[tr w4] o]. cbn in *.
    destruct IH as (? & ? & ? & ?). auto.
Qed.

Lemma failover_run (s : Broker) (id : Z) (w : W) :
  let run := exec env (failover s id) w in
  (forall rp, In rp (registered run.1.1) ->
     exists partitions nodes p,
       In (id, (partitions, None)) (partitionsByLeader_answers run.1.1)
       /\ In (nodes, None) (getNodes_answers run.1.1)
       /\ In p partitions
       /\ reassignment id (passing_set id nodes) p rp)
  /\ (run.2 = Returned None ->
      exists partitions nodes,
        partitionsByLeader_answers run.1.1 = [(id, (partitions, None))]
        /\ getNodes_answers run.1.1 = [(nodes, None)]
        /\ Forall2 (reassignment id (passing_set id nodes)) partitions (registered run.1.1))
  /\ (forall x, In x (sent run.1.1) ->
      exists partitions,
        In (id, (partitions, None)) (partitionsByLeader_answers run.1.1)
        /\ x.2 = {| LeaderAndISRRequest_ControllerID := Config_ID (Broker_config s);
                    LeaderAndISRRequest_PartitionStates := map partitionState partitions |}).
Proof.
  unfold failover. cbn.
  destruct (env GetPartitions w) as [[all [e|]] w1]; cbn.
  { repeat split; try tauto; discriminate. }
  destruct (env (PartitionsByLeader id) w1) as [[partitions [e|]] w2]; cbn.
  { repeat split; try tauto; discriminate. }
  destruct (env GetNodes w2) as [[nodes [e|]] w3]; cbn.
  { repeat split; try tauto; discriminate. }
  destruct (passing_range_spec id nodes []) as [-> | ->]; cbn.
  2:{ repeat split; try tauto; discriminate. }
  rewrite exec_mbind.
  pose proof (reassign_range_run id (passing_set id nodes) partitions
                {| LeaderAndISRRequest_ControllerID := Config_ID (Broker_config s);
                   LeaderAndISRRequest_PartitionStates := [] |} w3) as Hr.
  cbn in Hr.
  destruct (exec env (reassign_range id (passing_set id nodes) partitions _) w3)
    as [[tr1 w4] o1].
  cbn in Hr. destruct Hr as ((done & rest & -> & HF & Hret) & Hs1 & Hp1 & Hn1).
  assert (Hsafe : forall tr2, registered tr2 = [] -> forall rp, In rp (registered (tr1 ++ tr2)) ->
            exists p, In p (done ++ rest) /\ reassignment id (passing_set id nodes) p rp).
  { intros tr2 H2 rp. rewrite registered_app, H2, app_nil_r.
    intros Hin. destruct (Forall2_In_right _ _ _ _ HF Hin) as (p & Hp & Hr).
    exists p. split; [apply in_or_app; now left|assumption]. }
  destruct o1 as [[req' [e|]]|msg]; cbn.
  - rewrite app_nil_r. observations. rewrite Hp1, Hn1. repeat split.
    + intros rp Hin. destruct (Hsafe [] eq_refl rp) as (p & Hp & Hr).
      { now rewrite app_nil_r. }
      exists (done ++ rest), nodes, p. cbn. auto.
    + discriminate.
    + rewrite Hs1. cbn. tauto.
  - destruct (Hret req' eq_refl) as [-> ->]. rewrite app_nil_r in *. cbn.
    pose proof (broadcast_range_run (passing_set id nodes)
                  {| LeaderAndISRRequest_ControllerID := Config_ID (Broker_config s);
                     LeaderAndISRRequest_PartitionStates := map partitionState done |} w4) as Hb.
    cbn in Hb.
    destruct (exec env (broadcast_range (passing_set id nodes) _) w4) as [[tr2 w5] o2].
    cbn in *. destruct Hb as (Hr2 & Hs2 & Hp2 & Hn2).
    observations. rewrite !omap_app, Hp1, Hn1, Hp2, Hn2.
    cbn. repeat split.
    + intros rp Hin. destruct (Hsafe tr2 Hr2 rp) as (p & Hp & Hr).
      { rewrite omap_app. exact Hin. }
      exists done, nodes, p. auto.
    + intros _. exists done, nodes. split; [reflexivity|split; [reflexivity|]].
      rewrite Hr2, app_nil_r. exact HF.
    + intros x Hin. rewrite Hs1 in Hin. cbn in Hin.
      exists done. split; [now left|].
      exact (proj1 (List.Forall_forall _ _) Hs2 x Hin).
  - observations. rewrite Hp1, Hn1. repeat split.
    + intros rp Hin. destruct (Hsafe [] eq_refl rp) as (p & Hp & Hr).
      { now rewrite app_nil_r. }
      exists (done ++ rest), nodes, p. cbn. auto.
    + discriminate.
    + rewrite Hs1. cbn. tauto.
Qed.
End Failover.

Lemma proposals_succeed_app (tr1 tr2 : list event) :
  proposals_succeed (tr1 ++ tr2) <-> proposals_succeed tr1 /\ proposals_succeed tr2.
Proof. induction tr1 as [|e tr1 IH]; cbn; tauto. Qed.

Lemma index_in_range {A : Type} (l : list A) (i : Z) :
  (0 <= i < Z.of_nat (length l))%Z -> exists a, index l i = Ret a /\ In a l.
Proof.
  intros Hi. unfold index.
  destruct (l !! Z.to_nat i) as [a|] eqn:Hl.
  - assert ((0 <=? i)%Z = true) as -> by (apply Z.leb_le; lia).
    exists a. split; [reflexivity|].
    apply list_elem_of_In, list_elem_of_lookup. eauto.
  - apply lookup_ge_None in Hl. lia.
Qed.

Lemma passing_range_checked (id : Z) (nodes passing : list Node) :
  Forall (fun n => Node_Check n <> None) nodes ->
  passing_range id nodes passing = Ret (passing ++ passing_set id nodes).
Proof.
  revert passing. induction nodes as [|n nodes IH]; intros passing Hc; cbn.
  - now rewrite app_nil_r.
  - inversion Hc as [|? ? Hn Hc']; subst.
    destruct (Node_Check n) as [check|]; [|congruence]. cbn.
    destruct (HealthStatus_eqb (HealthCheck_Status check) HealthPassing && negb (Node_ID n =? id)%Z).
    + rewrite IH by assumption. now rewrite <- app_assoc.
    + now apply IH.
Qed.

Section FailoverComplete.
Context {W : Type} (env : forall c : call, W -> resp c * W).

Lemma reassign_range_complete (id : Z) (passing : list Node) (partitions : list Partition)
    (req : LeaderAndISRRequest) (w : W) :
  passing <> [] ->
  proposals_succeed (exec env (reassign_range id passing partitions req) w).1.1 ->
  Forall2 (reassignment id passing) partitions
          (registered (exec env (reassign_range id passing partitions req) w).1.1).
Proof.
  intros Hne. revert req w. induction partitions as [|p partitions IH]; intros req w; cbn.
  - constructor.
  - unfold rand_Intn.
    assert (0 < Z.of_nat (length passing))%Z as Hlen by (destruct passing; [congruence|cbn; lia]).
    assert ((Z.of_nat (length passing) <=? 0)%Z = false) as -> by (apply Z.leb_gt; lia).
    cbn. destruct (env (Intn _) w) as [r w1]. cbn.
    destruct (index_in_range passing (r `mod` Z.of_nat (length passing))%Z)
      as (node & -> & Hin); [apply Z.mod_pos_bound; lia|].
    cbn. destruct (env (Encode _ _) w1) as [[e|] w2]; cbn.
    { intros (_ & H & _). discriminate (H eq_refl). }
    destruct (env (RaftApply _ _ _) w2) as [[response [e|]] w3]; cbn.
    { intros (_ & _ & H & _). discriminate (H eq_refl). }
    specialize (IH {| LeaderAndISRRequest_ControllerID := LeaderAndISRRequest_ControllerID req;
                      LeaderAndISRRequest_PartitionStates :=
                        LeaderAndISRRequest_PartitionStates req ++ [partitionState p] |} w3).
    destruct (exec env (reassign_range id passing partitions _) w3) as [[tr w4] o].
    cbn in *. intros (_ & _ & _ & H).
    constructor; [now apply reassigned_reassignment|now apply IH].
Qed.

Lemma failover_complete (s : Broker) (id : Z) (w : W)
    (partitions : list Partition) (nodes : list Node) :
  let run := exec env (failover s id) w in
  partitionsByLeader_answers run.1.1 = [(id, (partitions, None))] ->
  getNodes_answers run.1.1 = [(nodes, None)] ->
  Forall (fun n => Node_Check n <> None) nodes ->
  passing_set id nodes <> [] ->
  proposals_succeed run.1.1 ->
  Forall2 (reassignment id (passing_set id nodes)) partitions (registered run.1.1).
Proof.
  unfold failover. cbn.
  destruct (env GetPartitions w) as [[all [e|]] w1]; cbn; [discriminate|].
  destruct (env (PartitionsByLeader id) w1) as [[partitions0 [e|]] w2]; cbn.
  { intros H; inversion H. }
  destruct (env GetNodes w2) as [[nodes0 [e|]] w3]; cbn.
  { intros _ H; inversion H. }
  destruct (passing_range_spec id nodes0 []) as [Hpass | Hpass].
  2:{ rewrite Hpass. cbn. intros _ Hn Hc. inversion Hn; subst.
      rewrite (passing_range_checked id nodes [] Hc) in Hpass. discriminate. }
  rewrite Hpass. cbn. rewrite exec_mbind.
  pose proof (reassign_range_run env id (passing_set id nodes0) partitions0
                {| LeaderAndISRRequest_ControllerID := Config_ID (Broker_config s);
                   LeaderAndISRRequest_PartitionStates := [] |} w3) as Hr.
  pose proof (reassign_range_complete id (passing_set id nodes0) partitions0
                {| LeaderAndISRRequest_ControllerID := Config_ID (Broker_config s);
                   LeaderAndISRRequest_PartitionStates := [] |} w3) as Hc.
  cbn in Hr.
  destruct (exec env (reassign_range id (passing_set id nodes0) partitions0 _) w3)
    as [[tr1 w4] o1].
  cbn in Hr, Hc. destruct Hr as ((done & rest & Hsplit & HF & Hret) & Hs1 & Hp1 & Hn1).
  assert (Htail : forall tr2,
             registered tr2 = [] ->
             (id, (partitions0, None)) :: partitionsByLeader_answers (tr1 ++ tr2)
               = [(id, (partitions, None))] ->
             (nodes0, None) :: getNodes_answers (tr1 ++ tr2) = [(nodes, None)] ->
             Forall (fun n => Node_Check n <> None) nodes ->
             passing_set id nodes <> [] ->
             proposals_succeed (tr1 ++ tr2) ->
             Forall2 (reassignment id (passing_set id nodes)) partitions
                     (registered (tr1 ++ tr2))).
  { intros tr2 H2 Hp Hn _ Hne Hok.
    assert (partitions0 = partitions) as -> by (inversion Hp; reflexivity).
    assert (nodes0 = nodes) as -> by (inversion Hn; reflexivity).
    apply proposals_succeed_app in Hok as [Hok _].
    rewrite registered_app, H2, app_nil_r. now apply Hc. }
  destruct o1 as [[req' [e|]]|msg]; cbn.
  - intros Hp Hn Hch Hne (_ & _ & _ & Hok).
    apply (Htail []); auto; rewrite ?app_nil_r; auto.
  - destruct (Hret req' eq_refl) as [-> ->].
    pose proof (broadcast_range_run env (passing_set id nodes0)
                  {| LeaderAndISRRequest_ControllerID := Config_ID (Broker_config s);
                     LeaderAndISRRequest_PartitionStates :=
                       [] ++ map partitionState partitions0 |} w4) as Hb.
    cbn in Hb.
    destruct (exec env (broadcast_range (passing_set id nodes0) _) w4) as [[tr2 w5] o2].
    cbn in *. destruct Hb as (Hr2 & Hs2 & Hp2 & Hn2).
    intros Hp Hn Hch Hne (_ & _ & _ & Hok).
    apply (Htail tr2); auto.
  - intros Hp Hn Hch Hne (_ & _ & _ & Hok).
    specialize (Htail []). rewrite !app_nil_r in Htail. apply Htail; auto.
Qed.
End FailoverComplete.

Section FailedMember.
Context {W : Type} (env : forall c : call, W -> resp c * W).
Variable IsBroker : Member -> option BrokerMetadata * bool.
Variables SerfCheckID SerfCheckName : string.
Variables SerfCheckAliveOutput SerfCheckFailedOutput : string.

Lemma handleFailedMember_run (s : Broker) (m : Member) (meta : BrokerMetadata) (w : W) :
  IsBroker m = (Some meta, true) ->
  let run := exec env (handleFailedMember IsBroker SerfCheckID SerfCheckName
                                          SerfCheckFailedOutput s m) w in
  let id := BrokerMetadata_ID meta in
  (forall rp, In rp (registered run.1.1) ->
     exists partitions nodes p,
       In (id, (partitions, None)) (partitionsByLeader_answers run.1.1)
       /\ In (nodes, None) (getNodes_answers run.1.1)
       /\ In p partitions
       /\ reassignment id (passing_set id nodes) p rp)
  /\ (run.2 = Returned None ->
      exists partitions nodes,
        partitionsByLeader_answers run.1.1 = [(id, (partitions, None))]
        /\ getNodes_answers run.1.1 = [(nodes, None)]
        /\ Forall2 (reassignment id (passing_set id nodes)) partitions (registered run.1.1))
  /\ (forall x, In x (sent run.1.1) ->
      exists partitions,
        In (id, (partitions, None)) (partitionsByLeader_answers run.1.1)
        /\ x.2 = {| LeaderAndISRRequest_ControllerID := Config_ID (Broker_config s);
                    LeaderAndISRRequest_PartitionStates := map partitionState partitions |}).
Proof.
  intros Hb. unfold handleFailedMember. rewrite Hb. cbn -[failover].
  destruct (env (Encode _ _) w) as [[e|] w1]; cbn -[failover].
  { repeat split; try tauto; discriminate. }
  destruct (env (RaftApply _ _ _) w1) as [[response [e|]] w2]; cbn -[failover].
  { repeat split; try tauto; discriminate. }
  pose proof (failover_run env s (BrokerMetadata_ID meta) w2) as Hf.
  unfold NodeID_Int32.
  destruct (exec env (failover s (BrokerMetadata_ID meta)) w2) as [[tr w3] o].
  exact Hf.
Qed.

Local Abbreviation failed_member s m :=
  (dispatch IsBroker SerfCheckID SerfCheckName SerfCheckAliveOutput SerfCheckFailedOutput s m)
  (only parsing).

(** X26.  When a broker fails, every [RegisterPartition] the handler
    proposes is for a partition [p] that [PartitionsByLeader] answered for
    the failed broker.  Its leader is the field [Node] of a node of the list
    the code collects from the answer of [GetNodes]: the nodes with a
    passing health check whose field [ID] is not the failed broker's ID.
    Its AR and its ISR are those of [p] without the failed broker's ID, the
    other replicas in their order, and its topic and partition number are
    those of [p].  When that list is not empty, every node read has a
    health check and no proposal fails, the proposals are, in order, one
    for every partition that [PartitionsByLeader] answered. *)
Theorem handleFailedMember_reassigns (s : Broker) (m : Member) (meta : BrokerMetadata) (w : W) :
  Member_Status m = StatusFailed ->
  IsBroker m = (Some meta, true) ->
  let run := exec env (failed_member s m) w in
  let id := BrokerMetadata_ID meta in
  (forall rp, In rp (registered run.1.1) ->
     exists partitions nodes p,
       In (id, (partitions, None)) (partitionsByLeader_answers run.1.1)
       /\ In (nodes, None) (getNodes_answers run.1.1)
       /\ In p partitions
       /\ reassignment id (passing_set id nodes) p rp)
  /\ (forall partitions nodes,
        partitionsByLeader_answers run.1.1 = [(id, (partitions, None))] ->
        getNodes_answers run.1.1 = [(nodes, None)] ->
        Forall (fun n => Node_Check n <> None) nodes ->
        passing_set id nodes <> [] ->
        proposals_succeed run.1.1 ->
        Forall2 (reassignment id (passing_set id nodes)) partitions (registered run.1.1)).
Proof.
  intros Hst Hb. unfold dispatch. rewrite Hst.
  split; [apply (handleFailedMember_run s m meta w Hb)|].
  unfold handleFailedMember. rewrite Hb. cbn -[failover].
  destruct (env (Encode _ _) w) as [[e|] w1]; cbn -[failover]; [discriminate|].
  destruct (env (RaftApply _ _ _) w1) as [[response [e|]] w2]; cbn -[failover]; [discriminate|].
  intros partitions nodes.
  pose proof (failover_complete env s (BrokerMetadata_ID meta) w2 partitions nodes) as Hf.
  unfold NodeID_Int32.
  destruct (exec env (failover s (BrokerMetadata_ID meta)) w2) as [[tr w3] o].
  cbn in *. intros Hp Hn Hc Hne (_ & _ & Hok). now apply Hf.
Qed.

(** When the handler returns nil, the proposals are, in order, one for
    every partition that [PartitionsByLeader] answered. *)
Lemma handleFailedMember_returns_nil (s : Broker) (m : Member) (meta : BrokerMetadata) (w : W) :
  Member_Status m = StatusFailed ->
  IsBroker m = (Some meta, true) ->
  let run := exec env (failed_member s m) w in
  let id := BrokerMetadata_ID meta in
  run.2 = Returned None ->
  exists partitions nodes,
    partitionsByLeader_answers run.1.1 = [(id, (partitions, None))]
    /\ getNodes_answers run.1.1 = [(nodes, None)]
    /\ Forall2 (reassignment id (passing_set id nodes)) partitions (registered run.1.1).
Proof.
  intros Hst Hb. unfold dispatch. rewrite Hst.
  apply (handleFailedMember_run s m meta w Hb).
Qed.

(** Every [LeaderAndISRRequest] sent carries the controller's ID and, for
    the partitions [PartitionsByLeader] answered, the records as they were
    answered. *)
Lemma handleFailedMember_sends (s : Broker) (m : Member) (meta : BrokerMetadata) (w : W) :
  Member_Status m = StatusFailed ->
  IsBroker m = (Some meta, true) ->
  let run := exec env (failed_member s m) w in
  forall x, In x (sent run.1.1) ->
    exists partitions,
      In (BrokerMetadata_ID meta, (partitions, None)) (partitionsByLeader_answers run.1.1)
      /\ x.2 = {| LeaderAndISRRequest_ControllerID := Config_ID (Broker_config s);
                  LeaderAndISRRequest_PartitionStates := map partitionState partitions |}.
Proof.
  intros Hst Hb. unfold dispatch. rewrite Hst.
  destruct (handleFailedMember_run s m meta w Hb) as (_ & _ & H3). auto.
Qed.

(** An alive member for which [IsBroker] answers nil and [false]. *)
Lemma handleAliveMember_nil_dereference (s : Broker) (m : Member) (w : W) :
  Member_Status m = StatusAlive ->
  IsBroker m = (None, false) ->
  exec env (reconcileMember IsBroker SerfCheckID SerfCheckName SerfCheckAliveOutput
                            SerfCheckFailedOutput s m) w
  = ([], w, Panicked nil_dereference).
Proof.
  intros Hst Hb. unfold reconcileMember, dispatch, handleAliveMember.
  rewrite Hst, Hb. reflexivity.
Qed.
End FailedMember.

Section EmptyPassingSet.
Context {W : Type} (env : forall c : call, W -> resp c * W).
Variable IsBroker : Member -> option BrokerMetadata * bool.
Variables SerfCheckID SerfCheckName : string.
Variables SerfCheckAliveOutput SerfCheckFailedOutput : string.

(** With partitions to reassign and an empty passing set the planner ends in
    a panic, whatever else the collaborators answer: in [rand.Intn(0)], or
    before it on a node without a check. *)
Lemma failover_empty_passing_set (s : Broker) (id : Z) (w : W)
    (partitions : list Partition) (nodes : list Node) :
  let run := exec env (failover s id) w in
  partitionsByLeader_answers run.1.1 = [(id, (partitions, None))] ->
  getNodes_answers run.1.1 = [(nodes, None)] ->
  partitions <> [] ->
  passing_set id nodes = [] ->
  (exists msg, run.2 = Panicked msg) /\ registered run.1.1 = [] /\ sent run.1.1 = [].
Proof.
  unfold failover. cbn.
  destruct (env GetPartitions w) as [[all [e|]] w1]; cbn; [discriminate|].
  destruct (env (PartitionsByLeader id) w1) as [[partitions0 [e|]] w2]; cbn.
  { intros H; inversion H. }
  destruct (env GetNodes w2) as [[nodes0 [e|]] w3]; cbn.
  { intros _ H; inversion H. }
  destruct (passing_range_spec id nodes0 []) as [-> | ->]; cbn.
  2:{ intros _ _ _ _. eauto. }
  match goal with
  | |- context [exec env ?p w3] => destruct (exec env p w3) as [[tr w4] o] eqn:Hrun
  end.
  cbn. intros Hp Hn Hne Hempty.
  assert (partitions0 = partitions) as -> by (inversion Hp; reflexivity).
  assert (nodes0 = nodes) as -> by (inversion Hn; reflexivity).
  rewrite Hempty in Hrun. destruct partitions as [|p partitions]; [congruence|].
  cbn in Hrun. inversion Hrun; subst. eauto.
Qed.

Lemma handleFailedMember_empty_passing_set (s : Broker) (m : Member) (meta : BrokerMetadata)
    (w : W) (partitions : list Partition) (nodes : list Node) :
  Member_Status m = StatusFailed ->
  IsBroker m = (Some meta, true) ->
  let run := exec env (dispatch IsBroker SerfCheckID SerfCheckName SerfCheckAliveOutput
                                SerfCheckFailedOutput s m) w in
  partitionsByLeader_answers run.1.1 = [(BrokerMetadata_ID meta, (partitions, None))] ->
  getNodes_answers run.1.1 = [(nodes, None)] ->
  partitions <> [] ->
  passing_set (BrokerMetadata_ID meta) nodes = [] ->
  (exists msg, run.2 = Panicked msg) /\ registered run.1.1 = [] /\ sent run.1.1 = [].
Proof.
  intros Hst Hb. unfold dispatch, handleFailedMember. rewrite Hst, Hb. cbn -[failover].
  destruct (env (Encode _ _) w) as [[e|] w1]; cbn -[failover]; [discriminate|].
  destruct (env (RaftApply _ _ _) w1) as [[response [e|]] w2]; cbn -[failover]; [discriminate|].
  pose proof (failover_empty_passing_set s (BrokerMetadata_ID meta) w2 partitions nodes) as Hf.
  unfold NodeID_Int32.
  destruct (exec env (failover s (BrokerMetadata_ID meta)) w2) as [[tr w3] o].
  exact Hf.
Qed.
End EmptyPassingSet.

(** With an empty passing set the loop over the partitions panics at once. *)
Lemma reassign_range_empty_passing_set (id : Z) (p : Partition) (partitions : list Partition)
    (req : LeaderAndISRRequest) :
  reassign_range id [] (p :: partitions) req = Panic "invalid argument to Intn".
Proof. reflexivity. Qed.

(** [a] fails in the cluster of three: [b] and [c] keep a passing check and
    the partition T/0 that [a] led is reassigned. *)
Lemma handleFailedMember_a_fails :
  let partitions :=
    [ {| Partition_Topic := "T"; Partition_ID := 0; Partition_Partition := 0;
         Partition_Leader := 1; Partition_AR := [1; 2; 3]%Z;
         Partition_ISR := [1; 2; 3]%Z |} ] in
  let nodes :=
    [passing_node (member_b StatusAlive); passing_node (member_c StatusAlive);
     failedNode "serfHealth" "Serf Health Status" "failed"
                (member_a StatusFailed) (meta_of (member_a StatusFailed))] in
  Forall2 (reassignment 1 (passing_set 1 nodes)) partitions
    (registered
       (exec cluster_env (reconcile_b (member_a StatusFailed))
             (three_brokers StatusFailed StatusAlive StatusAlive)).1.1).
Proof.
  refine (proj2 (handleFailedMember_reassigns cluster_env IsBroker_tags
            "serfHealth" "Serf Health Status" "alive" "failed" controller
            (member_a StatusFailed) (meta_of (member_a StatusFailed))
            (three_brokers StatusFailed StatusAlive StatusAlive) eq_refl eq_refl)
          _ _ _ _ _ _ _).
  - reflexivity.
  - reflexivity.
  - repeat constructor; discriminate.
  - vm_compute. discriminate.
  - vm_compute. intuition congruence.
Defined.

Example handleFailedMember_a_fails_registered :
  registered (trace cluster_env (reconcile_b (member_a StatusFailed))
                    (three_brokers StatusFailed StatusAlive StatusAlive))
  = [ {| Partition_Topic := "T"; Partition_ID := 0; Partition_Partition := 0;
         Partition_Leader := 2; Partition_AR := [2; 3]%Z; Partition_ISR := [2; 3]%Z |} ].
Proof. reflexivity. Qed.

(** C1 fails on the code.  The loop that collects the passing nodes tests
    the field [ID] of a node against the failed broker, where the rest of
    the file knows a node by its field [Node].  Broker [z], of ID 0, fails
    while it leads a partition, and [b] and [c] have a passing health
    check: the passing set of the specification holds them both, the list
    the code collects is empty, since the field [ID] of every node is 0,
    and the handler panics in [rand.Intn] without proposing any
    [RegisterPartition].  And asked to leave out broker 1, the loop keeps
    the passing record of broker 1 itself. *)
Theorem handleFailedMember_tests_the_wrong_field :
  let run := exec cluster_env (reconcile_b (member_z StatusFailed)) z_leads in
  let nodes :=
    [passing_node (member_b StatusAlive); passing_node (member_c StatusAlive);
     failedNode "serfHealth" "Serf Health Status" "failed"
                (member_z StatusFailed) (meta_of (member_z StatusFailed))] in
  partitionsByLeader_answers run.1.1
    = [(0%Z, ([ {| Partition_Topic := "T"; Partition_ID := 0; Partition_Partition := 0;
                   Partition_Leader := 0; Partition_AR := [0; 2; 3]%Z;
                   Partition_ISR := [0; 2; 3]%Z |} ], None))]
  /\ getNodes_answers run.1.1 = [(nodes, None)]
  /\ spec_passing_set 0 nodes
     = [passing_node (member_b StatusAlive); passing_node (member_c StatusAlive)]
  /\ passing_range 0 nodes [] = Ret []
  /\ run.2 = Panicked "invalid argument to Intn"
  /\ registered run.1.1 = []
  /\ passing_range 1 [passing_node (member_a StatusAlive); passing_node (member_b StatusAlive)] []
     = Ret [passing_node (member_a StatusAlive); passing_node (member_b StatusAlive)].
Proof. cbn zeta. repeat split; vm_compute; reflexivity. Qed.

(** C3 fails on the code: in the failover scenario of the specification
    ([a], leader of T/0 with AR = ISR = [1; 2; 3], fails) the
    [RegisterPartition] proposal has leader 2 and AR = ISR = [2; 3], while the
    [PartitionState] sent to [b] and [c] still has leader 1 and
    ISR = Replicas = [1; 2; 3].  The controller ID is the one of [b]. *)
Theorem handleFailedMember_sends_stale_partition_state :
  let tr := trace cluster_env (reconcile_b (member_a StatusFailed))
                  (three_brokers StatusFailed StatusAlive StatusAlive) in
  let stale :=
    {| LeaderAndISRRequest_ControllerID := 2;
       LeaderAndISRRequest_PartitionStates :=
         [ {| PartitionState_Topic := "T"; PartitionState_Partition := 0;
              PartitionState_Leader := 1;
              PartitionState_ISR := [1; 2; 3]%Z;
              PartitionState_Replicas := [1; 2; 3]%Z |} ] |} in
  registered tr
    = [ {| Partition_Topic := "T"; Partition_ID := 0; Partition_Partition := 0;
           Partition_Leader := 2; Partition_AR := [2; 3]%Z; Partition_ISR := [2; 3]%Z |} ]
  /\ sent tr = [("b:9092", stale); ("c:9092", stale)].
Proof. split; reflexivity. Qed.

(** C2 fails on the code: [a] fails while it leads T/0 and no node has a
    passing check.  The handler registers [a] as critical, reads the FSM and
    then panics in [rand.Intn(0)]: it returns no error.  No
    [RegisterPartition] is proposed and nothing is sent. *)
Theorem handleFailedMember_panics_on_empty_passing_set :
  let run := exec cluster_env (reconcile_b (member_a StatusFailed)) only_a_registered in
  run.2 = Panicked "invalid argument to Intn"
  /\ calls run.1.1
     = raftApply_calls RegisterNodeRequestType
         (RegisterNodeRequest
            (failedNode "serfHealth" "Serf Health Status" "failed"
                        (member_a StatusFailed) (meta_of (member_a StatusFailed))))
       ++ [GetPartitions; PartitionsByLeader 1; GetNodes]
  /\ registered run.1.1 = []
  /\ sent run.1.1 = [].
Proof. repeat split; reflexivity. Qed.

(** C4 fails on the code: an alive member without broker tags makes
    [handleAliveMember] dereference the nil pointer [IsBroker] answered. *)
Theorem handleAliveMember_panics_without_broker_tags :
  IsBroker_tags (plain_member "client" StatusAlive) = (None, false)
  /\ exec cluster_env (reconcile_b (plain_member "client" StatusAlive))
          (three_brokers StatusAlive StatusAlive StatusAlive)
     = ([], three_brokers StatusAlive StatusAlive StatusAlive, Panicked nil_dereference).
Proof. split; reflexivity. Qed.

(** ** [reconcile] and [reconcileMember] *)

Section Reconcile.
Context {W : Type} (env : forall c : call, W -> resp c * W).
Variable IsBroker : Member -> option BrokerMetadata * bool.
Variables SerfCheckID SerfCheckName : string.
Variables SerfCheckAliveOutput SerfCheckFailedOutput : string.

Local Abbreviation dispatch' :=
  (dispatch IsBroker SerfCheckID SerfCheckName SerfCheckAliveOutput SerfCheckFailedOutput).
Local Abbreviation reconcileMember' :=
  (reconcileMember IsBroker SerfCheckID SerfCheckName SerfCheckAliveOutput
                   SerfCheckFailedOutput).
Local Abbreviation reconcile_range' :=
  (reconcile_range IsBroker SerfCheckID SerfCheckName SerfCheckAliveOutput
                   SerfCheckFailedOutput).
Local Abbreviation reconcile' :=
  (reconcile IsBroker SerfCheckID SerfCheckName SerfCheckAliveOutput SerfCheckFailedOutput).

Lemma reconcileMember_run (s : Broker) (m : Member) (w : W) :
  exec env (reconcileMember' s m) w =
    match exec env (dispatch' s m) w with
    | (tr, w1, Returned (Some e)) =>
        (tr ++ [Ev (Log LError "leader: failed to reconcile member") tt],
         (env (Log LError "leader: failed to reconcile member") w1).2,
         Returned None)
    | (tr, w1, Returned None) => (tr, w1, Returned None)
    | (tr, w1, Panicked msg) => (tr, w1, Panicked msg)
    end.
Proof.
  unfold reconcileMember. rewrite exec_mbind.
  destruct (exec env (dispatch' s m) w) as [[tr w1] [[e|]|msg]]; cbn.
  - destruct (env (Log LError _) w1) as [[] w2]. reflexivity.
  - now rewrite app_nil_r.
  - reflexivity.
Qed.

Lemma reconcileMember_returns_nil (s : Broker) (m : Member) (w : W) (err : option string) :
  result env (reconcileMember' s m) w = Returned err -> err = None.
Proof.
  unfold result. rewrite reconcileMember_run.
  destruct (exec env (dispatch' s m) w) as [[tr w1] [[e|]|msg]]; cbn; congruence.
Qed.

Lemma reconcile_range_run (s : Broker) (members : list Member) (w : W) :
  exec env (reconcile_range' s members) w = each_member env (reconcileMember' s) members w.
Proof.
  revert w. induction members as [|member members IH]; intros w; [reflexivity|].
  cbn [reconcile_range each_member]. rewrite exec_mbind.
  pose proof (reconcileMember_returns_nil s member w) as Hnil. unfold result in Hnil.
  destruct (exec env (reconcileMember' s member) w) as [[tr w1] [err|msg]]; [|reflexivity].
  cbn in Hnil. rewrite (Hnil err eq_refl). now rewrite IH.
Qed.

(** C7.  [reconcileMember] runs the handler of the member's status; when
    the handler returns an error it logs it and returns nil, and when the
    handler returns nil it returns nil.  So [reconcile] reads the members
    and reconciles each of them in order, whatever the members before
    returned, and it never returns an error. *)
Theorem reconcile_swallows_member_errors (s : Broker) (w : W) :
  (forall m w0,
      exec env (reconcileMember' s m) w0 =
        match exec env (dispatch' s m) w0 with
        | (tr, w1, Returned (Some e)) =>
            (tr ++ [Ev (Log LError "leader: failed to reconcile member") tt],
             (env (Log LError "leader: failed to reconcile member") w1).2,
             Returned None)
        | (tr, w1, Returned None) => (tr, w1, Returned None)
        | (tr, w1, Panicked msg) => (tr, w1, Panicked msg)
        end)
  /\ exec env (reconcile' s) w =
       (let '(tr, w2, o) :=
          each_member env (reconcileMember' s) (env LANMembers w).1 (env LANMembers w).2 in
        (Ev LANMembers (env LANMembers w).1 :: tr, w2, o))
  /\ (forall e, result env (reconcile' s) w <> Returned (Some e)).
Proof.
  assert (Hrun : exec env (reconcile' s) w =
       (let '(tr, w2, o) :=
          each_member env (reconcileMember' s) (env LANMembers w).1 (env LANMembers w).2 in
        (Ev LANMembers (env LANMembers w).1 :: tr, w2, o))).
  { unfold reconcile. cbn -[reconcile_range]. destruct (env LANMembers w) as [members w1].
    cbn -[reconcile_range]. rewrite <- reconcile_range_run.
    match goal with |- context [exec env ?p w1] => destruct (exec env p w1) as [[tr w2] o] end.
    reflexivity. }
  split; [apply reconcileMember_run|]. split; [exact Hrun|].
  intros e. unfold result. rewrite Hrun.
  generalize (env LANMembers w).2. generalize (env LANMembers w).1.
  intros members. induction members as [|member members IH]; intros w1; cbn; [discriminate|].
  pose proof (reconcileMember_returns_nil s member w1) as Hnil. unfold result in Hnil.
  destruct (exec env (reconcileMember' s member) w1) as [[tr w2] [err|msg]]; [|discriminate].
  specialize (IH w2).
  destruct (each_member env (reconcileMember' s) members w2) as [[tr2 w3] o]. exact IH.
Qed.
End Reconcile.

(** A batch in which the first member fails to be reconciled: [c] has left
    and raft refuses to remove its server.  The error is logged and the next
    member is reconciled all the same. *)
Example reconcile_goes_on_after_an_error :
  let w := {| Cluster_members := [member_c StatusLeft; member_b StatusAlive];
              Cluster_nodes := Cluster_nodes (three_brokers StatusAlive StatusAlive StatusLeft);
              Cluster_partitions := [];
              Cluster_servers :=
                Cluster_servers (three_brokers StatusAlive StatusAlive StatusLeft);
              Cluster_brokers := [];
              Cluster_draws := [];
              Cluster_received := [];
              Cluster_hasState := true;
              Cluster_failing := is_RemoveServer |} in
  let run := exec cluster_env
               (reconcile IsBroker_tags "serfHealth" "Serf Health Status" "alive" "failed"
                          controller) w in
  calls run.1.1
    = [LANMembers;
       GetConfiguration;
       Log LInfo "leader: removing server by id";
       RemoveServer (string_of_int 3) 0 0;
       Log LError "leader: failed to remove server";
       Log LError "leader: failed to reconcile member";
       GetConfiguration;
       Log LDebug "leader: join cluster: add voter";
       AddVoter (string_of_int 2) "b:9093" 0 0;
       GetNode 2]
  /\ run.2 = Returned None.
Proof. split; reflexivity. Qed.

(** ** The leader loop *)

Lemma only_bind {A B : Type} (Q : call -> bool) (p : prog A) (f : A -> prog B) :
  only Q p -> (forall a, only Q (f a)) -> only Q (bind p f).
Proof.
  intros Hp Hf. induction p as [a|msg|c k IH]; cbn in *; auto.
  destruct Hp as [Hc Hk]. split; auto.
Qed.

Lemma only_mbind {A B : Type} (Q : call -> bool) (p : prog A) (f : A -> prog B) :
  only Q p -> (forall a, only Q (f a)) -> only Q (p ≫= f).
Proof. apply only_bind. Qed.

Lemma only_exec {W A : Type} (env : forall c : call, W -> resp c * W)
    (Q : call -> bool) (p : prog A) (w : W) :
  only Q p -> Forall (fun c => Q c = true) (calls (exec env p w).1.1).
Proof.
  revert w. induction p as [a|msg|c k IH]; intros w Hp; cbn in *; [constructor..|].
  destruct Hp as [Hc Hk]. destruct (env c w) as [r w1].
  specialize (IH r w1 (Hk r)). destruct (exec env (k r) w1) as [[tr w2] o].
  cbn in *. constructor; assumption.
Qed.

(** The handlers of the reconciler make no call on the readiness flag. *)
Abbreviation quietly p := (only (fun c => negb (touches_flag c)) p).

Create HintDb quiet.

Ltac quiet :=
  repeat (cbn;
          match goal with
          | |- True => exact I
          | |- _ /\ _ => split
          | |- _ = true => reflexivity
          | |- forall _, _ => intros ?
          | |- only _ (bind _ _) => apply only_bind
          | |- only _ (_ ≫= _) => apply only_mbind
          | |- only _ (match ?x with _ => _ end) => destruct x
          | |- only _ _ => solve [auto with quiet]
          end).

Section Quiet.
Variable IsBroker : Member -> option BrokerMetadata * bool.
Variables SerfCheckID SerfCheckName : string.
Variables SerfCheckAliveOutput SerfCheckFailedOutput : string.

Lemma quietly_deref {A : Type} (p : option A) : quietly (deref p).
Proof. destruct p; exact I. Qed.
Hint Resolve quietly_deref : quiet.

Lemma quietly_raftApply t msg : quietly (raftApply t msg).
Proof. unfold raftApply, do. quiet. Qed.

Lemma quietly_removeServer_range meta servers : quietly (removeServer_range meta servers).
Proof. induction servers as [|sv servers IH]; quiet. Qed.
Hint Resolve quietly_removeServer_range : quiet.

Lemma quietly_removeServer m meta : quietly (removeServer m meta).
Proof. unfold removeServer, do. quiet. Qed.

Lemma quietly_joinCluster_range m members : quietly (joinCluster_range IsBroker m members).
Proof. induction members as [|member members IH]; quiet. Qed.
Hint Resolve quietly_joinCluster_range : quiet.

Lemma quietly_joinCluster s m parts : quietly (joinCluster IsBroker s m parts).
Proof. unfold joinCluster, do. quiet. Qed.
Hint Resolve quietly_raftApply quietly_removeServer quietly_joinCluster : quiet.

Lemma quietly_handleAliveMember s m :
  quietly (handleAliveMember IsBroker SerfCheckID SerfCheckName SerfCheckAliveOutput s m).
Proof. unfold handleAliveMember, do. quiet. Qed.

Lemma quietly_handleDeregisterMember s reason m :
  quietly (handleDeregisterMember IsBroker s reason m).
Proof. unfold handleDeregisterMember, do. quiet. Qed.

Lemma quietly_passing_range id nodes passing : quietly (passing_range id nodes passing).
Proof. revert passing. induction nodes as [|n nodes IH]; intros passing; quiet. Qed.

Lemma quietly_index {A : Type} (l : list A) i : quietly (index l i).
Proof. unfold index. quiet. Qed.

Lemma quietly_rand_Intn n : quietly (rand_Intn n).
Proof. unfold rand_Intn, do. quiet. Qed.
Hint Resolve quietly_passing_range quietly_index quietly_rand_Intn : quiet.

Lemma quietly_reassign_range id passing partitions req :
  quietly (reassign_range id passing partitions req).
Proof. revert req. induction partitions as [|p partitions IH]; intros req; quiet. Qed.

Lemma quietly_broadcast_range passing req : quietly (broadcast_range passing req).
Proof. induction passing as [|n passing IH]; quiet. Qed.
Hint Resolve quietly_reassign_range quietly_broadcast_range : quiet.

Lemma quietly_failover s id : quietly (failover s id).
Proof. unfold failover, do. quiet. Qed.
Hint Resolve quietly_failover : quiet.

Lemma quietly_handleFailedMember s m :
  quietly (handleFailedMember IsBroker SerfCheckID SerfCheckName SerfCheckFailedOutput s m).
Proof. unfold handleFailedMember. quiet. Qed.
Hint Resolve quietly_handleAliveMember quietly_handleDeregisterMember
     quietly_handleFailedMember : quiet.

Lemma quietly_reconcileMember s m :
  quietly (reconcileMember IsBroker SerfCheckID SerfCheckName SerfCheckAliveOutput
                           SerfCheckFailedOutput s m).
Proof. unfold reconcileMember, dispatch, handleLeftMember, do. quiet. Qed.
Hint Resolve quietly_reconcileMember : quiet.

Lemma quietly_reconcile_range s members :
  quietly (reconcile_range IsBroker SerfCheckID SerfCheckName SerfCheckAliveOutput
                           SerfCheckFailedOutput s members).
Proof. induction members as [|member members IH]; quiet. Qed.
Hint Resolve quietly_reconcile_range : quiet.

Lemma quietly_reconcile s :
  quietly (reconcile IsBroker SerfCheckID SerfCheckName SerfCheckAliveOutput
                     SerfCheckFailedOutput s).
Proof. unfold reconcile, do. quiet. Qed.
End Quiet.

Lemma readiness_cons (establishedLeader : bool) (e : event) (tr : list event)
    (o : outcome bool) :
  touches_flag (call_of e) = false ->
  readiness establishedLeader tr o -> readiness establishedLeader (e :: tr) o.
Proof.
  intros Hq (H1 & H2 & H3). apply orb_false_elim in Hq as [Hs Hr].
  unfold readiness. cbn. rewrite Hs, Hr. cbn. repeat split; auto.
Qed.

Lemma readiness_app (establishedLeader : bool) (tr1 tr2 : list event) (o : outcome bool) :
  Forall (fun c => negb (touches_flag c) = true) (calls tr1) ->
  readiness establishedLeader tr2 o -> readiness establishedLeader (tr1 ++ tr2) o.
Proof.
  induction tr1 as [|e tr1 IH]; intros Hq H; [exact H|].
  inversion Hq as [|? ? Hc Hq']; subst. cbn.
  apply readiness_cons; [now apply negb_true_iff|]. now apply IH.
Qed.

Lemma readiness_established (tr : list event) (o : outcome bool) :
  readiness true tr o ->
  readiness false (Ev (Barrier barrierWriteTimeout) None
                     :: Ev SetConsistentReadReady tt :: tr) o.
Proof.
  intros (H1 & H2 & H3). unfold readiness, calls in *. cbn in *. repeat split.
  - lia.
  - intros b. apply H2.
  - exact H3.
Qed.

Lemma readiness_revoked (o : outcome bool) :
  readiness true [Ev ResetConsistentReadReady tt] o.
Proof. unfold readiness. cbn. repeat split; auto. destruct o as [[|]|]; auto. Qed.

Lemma readiness_not_established (o : outcome bool) : readiness false [] o.
Proof. unfold readiness. cbn. repeat split; auto. destruct o as [[|]|]; auto. Qed.

Section LeaderLoop.
Context {W : Type} (env : forall c : call, W -> resp c * W).
Variable IsBroker : Member -> option BrokerMetadata * bool.
Variables SerfCheckID SerfCheckName : string.
Variables SerfCheckAliveOutput SerfCheckFailedOutput : string.

Local Abbreviation reconcile' :=
  (reconcile IsBroker SerfCheckID SerfCheckName SerfCheckAliveOutput SerfCheckFailedOutput).
Local Abbreviation reconcileMember' :=
  (reconcileMember IsBroker SerfCheckID SerfCheckName SerfCheckAliveOutput
                   SerfCheckFailedOutput).
Local Abbreviation leaderLoop_at' :=
  (leaderLoop_at IsBroker SerfCheckID SerfCheckName SerfCheckAliveOutput
                 SerfCheckFailedOutput).

Lemma exec_unwinding {A : Type} (d : prog unit) (p : prog A) (w : W) :
  exec env (unwinding d p) w =
    match exec env p w with
    | (tr, w1, Returned a) => (tr, w1, Returned a)
    | (tr, w1, Panicked msg) =>
        match exec env d w1 with
        | (tr2, w2, Returned _) => (tr ++ tr2, w2, Panicked msg)
        | (tr2, w2, Panicked msg2) => (tr ++ tr2, w2, Panicked msg2)
        end
    end.
Proof.
  revert w. induction p as [a|msg|c k IH]; intros w; cbn.
  - reflexivity.
  - rewrite exec_bind.
    destruct (exec env d w) as [[tr2 w2] [[]|msg2]]; cbn; rewrite ?app_nil_r; reflexivity.
  - destruct (env c w) as [r w1]. rewrite IH.
    destruct (exec env (k r) w1) as [[tr w2] [a|msg]]; [reflexivity|].
    destruct (exec env d w2) as [[tr2 w3] [[]|msg2]]; reflexivity.
Qed.

Lemma deferred_run (establishedLeader : bool) (w : W) :
  exec env (deferred establishedLeader) w =
    if establishedLeader then
      ([Ev ResetConsistentReadReady tt], (env ResetConsistentReadReady w).2, Returned tt)
    else ([], w, Returned tt).
Proof.
  destruct establishedLeader; cbn; [|reflexivity].
  destruct (env ResetConsistentReadReady w) as [[] w1]. reflexivity.
Qed.

(** A call made under the deferred revocation: when it panics the flag is
    reset, and the panic goes on. *)
Lemma readiness_unwinding {A : Type} (establishedLeader : bool) (p : prog A) (w : W)
    (k : A -> prog bool) :
  quietly p ->
  (forall a w1, readiness establishedLeader (exec env (k a) w1).1.1 (exec env (k a) w1).2) ->
  readiness establishedLeader
    (exec env (bind (unwinding (deferred establishedLeader) p) k) w).1.1
    (exec env (bind (unwinding (deferred establishedLeader) p) k) w).2.
Proof.
  intros Hq Hk. rewrite exec_bind, exec_unwinding.
  pose proof (only_exec env _ p w Hq) as Hquiet.
  destruct (exec env p w) as [[tr w1] [a|msg]]; cbn in Hquiet.
  - specialize (Hk a w1). destruct (exec env (k a) w1) as [[tr2 w2] o]. cbn in *.
    now apply readiness_app.
  - rewrite deferred_run. destruct establishedLeader; cbn.
    + apply readiness_app; [assumption|]. apply readiness_revoked.
    + apply readiness_app; [assumption|]. apply readiness_not_established.
Qed.

Local Opaque reconcile reconcileMember unwinding deferred.

Lemma leaderLoop_at_readiness (s : Broker) (fuel : nat) (pc : label)
    (establishedLeader reconcileCh : bool) (w : W) :
  readiness establishedLeader
    (exec env (leaderLoop_at' s fuel pc establishedLeader reconcileCh) w).1.1
    (exec env (leaderLoop_at' s fuel pc establishedLeader reconcileCh) w).2.
Proof.
  revert pc establishedLeader reconcileCh w.
  induction fuel as [|fuel IH]; intros pc est ch w.
  { cbn. unfold readiness. cbn. repeat split; auto. destruct est; lia. }
  assert (Hreconciled : forall w1,
             readiness true
               (exec env (bind (unwinding (deferred true) (reconcile' s))
                   (fun err : option string =>
                      match err with
                      | Some _ =>
                          bind (do (Log LError "leader: failed to reconcile"))
                               (fun _ => leaderLoop_at' s fuel WAIT true false)
                      | None => leaderLoop_at' s fuel WAIT true true
                      end)) w1).1.1
               (exec env (bind (unwinding (deferred true) (reconcile' s))
                   (fun err : option string =>
                      match err with
                      | Some _ =>
                          bind (do (Log LError "leader: failed to reconcile"))
                               (fun _ => leaderLoop_at' s fuel WAIT true false)
                      | None => leaderLoop_at' s fuel WAIT true true
                      end)) w1).2).
  { intros w1. apply readiness_unwinding; [apply quietly_reconcile|].
    intros [e|] w2; [|apply IH]. cbn.
    destruct (env (Log LError _) w2) as [[] w3].
    specialize (IH WAIT true false w3).
    destruct (exec env (leaderLoop_at' s fuel WAIT true false) w3) as [[tr w4] o].
    cbn in *. now apply readiness_cons. }
  destruct pc; cbn.
  - destruct (env (Barrier _) w) as [[e|] w1];
      cbn.
    + destruct (env (Log LError _) w1) as [[] w2].
      specialize (IH WAIT est false w2).
      destruct (exec env (leaderLoop_at' s fuel WAIT est false) w2) as [[tr w3] o].
      cbn in *. now repeat apply readiness_cons.
    + destruct est; cbn.
      * match goal with
        | |- context [exec env ?p w1] =>
            assert (H : readiness true (exec env p w1).1.1 (exec env p w1).2)
              by exact (Hreconciled w1);
            destruct (exec env p w1) as [[tr w2] o]
        end.
        cbn in *. now apply readiness_cons.
      * destruct (env SetConsistentReadReady w1) as [[] w2].
        cbn.
        match goal with
        | |- context [exec env ?p w2] =>
            assert (H : readiness true (exec env p w2).1.1 (exec env p w2).2)
              by exact (Hreconciled w2);
            destruct (exec env p w2) as [[tr w3] o]
        end.
        cbn in *. now apply readiness_established.
  - destruct (env (Select ch) w) as [[| | |member] w1];
      cbn.
    + first [rewrite exec_mbind | rewrite exec_bind]. rewrite deferred_run. destruct est; cbn.
      * apply readiness_cons; [reflexivity|]. apply readiness_revoked.
      * apply readiness_cons; [reflexivity|]. apply readiness_not_established.
    + first [rewrite exec_mbind | rewrite exec_bind]. rewrite deferred_run. destruct est; cbn.
      * apply readiness_cons; [reflexivity|]. apply readiness_revoked.
      * apply readiness_cons; [reflexivity|]. apply readiness_not_established.
    + specialize (IH RECONCILE est ch w1).
      destruct (exec env (leaderLoop_at' s fuel RECONCILE est ch) w1) as [[tr w2] o].
      cbn in *. now apply readiness_cons.
    + destruct ch.
      * match goal with
        | |- context [exec env ?p w1] =>
            assert (H : readiness est (exec env p w1).1.1 (exec env p w1).2)
              by exact (readiness_unwinding est (reconcileMember' s member) w1
                          (fun _ => leaderLoop_at' s fuel WAIT est true)
                          (quietly_reconcileMember _ _ _ _ _ _ _)
                          (fun _ w2 => IH WAIT est true w2));
            destruct (exec env p w1) as [[tr w2] o]
        end.
        cbn in *. now apply readiness_cons.
      * specialize (IH WAIT est false w1).
        destruct (exec env (leaderLoop_at' s fuel WAIT est false) w1) as [[tr w2] o].
        cbn in *. now apply readiness_cons.
Qed.

Local Transparent reconcile reconcileMember unwinding deferred.

(** C5.  In every run of the leader loop, however long and whatever the
    collaborators answer: [consistentReadReady] is set at most once; each
    time it is set, the call just before it is the barrier with the
    two-minute timeout and it answered nil; and when the loop has ended,
    by one of its [return]s or by a panic under the deferred revocation,
    the flag is false, so a flag that was set has been reset. *)
Theorem leaderLoop_readiness (s : Broker) (fuel : nat) (w : W) :
  let run := exec env (leaderLoop IsBroker SerfCheckID SerfCheckName SerfCheckAliveOutput
                                  SerfCheckFailedOutput s fuel) w in
  (length (List.filter is_Set (calls run.1.1)) <= 1)%nat
  /\ sets_follow_barrier false run.1.1 = true
  /\ match run.2 with
     | Returned false => True
     | _ => ready_after false (calls run.1.1) = false
     end.
Proof.
  cbn zeta. unfold leaderLoop.
  destruct (leaderLoop_at_readiness s fuel RECONCILE false false w) as (H1 & H2 & H3).
  auto.
Qed.
End LeaderLoop.

(** A leadership of two rounds on an empty member list: the ticker fires once
    and then the stop channel is closed. *)
Example leaderLoop_two_rounds :
  let w := {| Cluster_members := []; Cluster_nodes := []; Cluster_partitions := [];
              Cluster_servers := []; Cluster_brokers := []; Cluster_draws := [];
              Cluster_received := [RecvInterval; RecvStop]; Cluster_hasState := true;
              Cluster_failing := never_failing |} in
  let run := exec cluster_env
               (leaderLoop IsBroker_tags "serfHealth" "Serf Health Status" "alive" "failed"
                           controller 10) w in
  calls run.1.1
    = [Barrier (2 * Minute)%Z; SetConsistentReadReady; LANMembers; Select true;
       Barrier (2 * Minute)%Z; LANMembers; Select true;
       ResetConsistentReadReady]
  /\ run.2 = Returned true.
Proof. split; reflexivity. Qed.

(** ** More on the replica lists *)

(** X1.  The loops that trim a replica list ([ar] and [isr] in
    [handleFailedMember]): the result is a sublist of the input, so order
    and multiplicity of the replicas kept are those of the input; it holds
    every replica other than [id] and never [id]; a list without [id] is
    returned as it is, and trimming twice is trimming once. *)
Theorem without_trims_exactly (id : Z) (l : list Z) :
  sublist (without id l) l
  /\ ~ In id (without id l)
  /\ (forall r, r <> id ->
        count_occ Z.eq_dec (without id l) r = count_occ Z.eq_dec l r)
  /\ (~ In id l -> without id l = l)
  /\ without id (without id l) = without id l.
Proof.
  rewrite !without_filter.
  repeat split.
  - induction l as [|r l IH]; cbn; [constructor|].
    destruct (negb (r =? id)%Z); [now apply sublist_skip|now apply sublist_cons].
  - rewrite filter_In, negb_true_iff, Z.eqb_neq. tauto.
  - intros r Hr. induction l as [|r' l IH]; cbn; [reflexivity|].
    destruct (Z.eq_dec r' id) as [->|Hne].
    + rewrite Z.eqb_refl. cbn. destruct (Z.eq_dec id r); [congruence|exact IH].
    + assert ((r' =? id)%Z = false) as -> by now apply Z.eqb_neq.
      cbn. destruct (Z.eq_dec r' r); now rewrite IH.
  - intros Hin. induction l as [|r l IH]; cbn; [reflexivity|].
    destruct (Z.eq_dec r id) as [->|Hne]; [exfalso; apply Hin; now left|].
    assert ((r =? id)%Z = false) as -> by now apply Z.eqb_neq.
    cbn. f_equal. apply IH. intros H. apply Hin. now right.
  - induction l as [|r l IH]; cbn; [reflexivity|].
    destruct (negb (r =? id)%Z) eqn:Hr; cbn; [rewrite Hr; now f_equal|exact IH].
Qed.

(** ** What each function may call *)

Lemma only_weaken {A : Type} (Q Q' : call -> bool) (p : prog A) :
  (forall c, Q c = true -> Q' c = true) -> only Q p -> only Q' p.
Proof.
  intros HQ. induction p as [a|msg|c k IH]; cbn; auto.
  intros [Hc Hk]. split; auto.
Qed.

Lemma only_deref (Q : call -> bool) {A : Type} (p : option A) : only Q (deref p).
Proof. destruct p; exact I. Qed.

Lemma only_index (Q : call -> bool) {A : Type} (l : list A) (i : Z) : only Q (index l i).
Proof. unfold index. destruct (l !! Z.to_nat i); [destruct (0 <=? i)%Z|]; exact I. Qed.

Section Vocabulary.
Variable IsBroker : Member -> option BrokerMetadata * bool.
Variables SerfCheckID SerfCheckName : string.
Variables SerfCheckAliveOutput SerfCheckFailedOutput : string.

Hint Resolve only_deref only_index : quiet.

Lemma joinCluster_range_calls m members :
  only joinCluster_calls (joinCluster_range IsBroker m members).
Proof. induction members as [|member members IH]; quiet. Qed.
Hint Resolve joinCluster_range_calls : quiet.

Lemma joinCluster_only s m parts : only joinCluster_calls (joinCluster IsBroker s m parts).
Proof. unfold joinCluster, do. quiet. Qed.

Lemma handleAliveMember_only s m :
  only handleAliveMember_calls
       (handleAliveMember IsBroker SerfCheckID SerfCheckName SerfCheckAliveOutput s m).
Proof.
  pose proof (fun parts =>
    only_weaken joinCluster_calls handleAliveMember_calls _
      (fun c H => orb_true_intro _ _ (or_introl H)) (joinCluster_only s m parts)) as Hjoin.
  unfold handleAliveMember, raftApply, do. quiet.
Qed.

Lemma removeServer_range_only meta servers :
  only removeServer_calls (removeServer_range meta servers).
Proof. induction servers as [|sv servers IH]; quiet. Qed.
Hint Resolve removeServer_range_only : quiet.

Lemma removeServer_only m meta : only removeServer_calls (removeServer m meta).
Proof. unfold removeServer, do. quiet. Qed.

Lemma handleDeregisterMember_only s reason m :
  only handleDeregisterMember_calls (handleDeregisterMember IsBroker s reason m).
Proof.
  pose proof (fun meta =>
    only_weaken removeServer_calls handleDeregisterMember_calls _
      (fun c H => orb_true_intro _ _ (or_introl H)) (removeServer_only m meta)) as Hremove.
  pose proof (fun meta servers =>
    only_weaken removeServer_calls handleDeregisterMember_calls _
      (fun c H => orb_true_intro _ _ (or_introl H)) (removeServer_range_only meta servers))
    as Hrange.
  unfold handleDeregisterMember, raftApply, do. quiet.
Qed.

Lemma passing_range_only Q id nodes passing : only Q (passing_range id nodes passing).
Proof. revert passing. induction nodes as [|n nodes IH]; intros passing; quiet. Qed.
Hint Resolve passing_range_only : quiet.

Lemma rand_Intn_only n : only reassign_range_calls (rand_Intn n).
Proof. unfold rand_Intn, do. quiet. Qed.
Hint Resolve rand_Intn_only : quiet.

Lemma reassign_range_only id passing partitions req :
  only reassign_range_calls (reassign_range id passing partitions req).
Proof.
  revert req. induction partitions as [|p partitions IH]; intros req;
    unfold raftApply, do; quiet.
Qed.

Lemma broadcast_range_only passing req :
  only broadcast_range_calls (broadcast_range passing req).
Proof. induction passing as [|n passing IH]; quiet. Qed.

Lemma failover_only s id : only failover_calls (failover s id).
Proof.
  pose proof (fun passing partitions req =>
    only_weaken reassign_range_calls failover_calls _
      (fun c H => orb_true_intro _ _ (or_introl (orb_true_intro _ _ (or_introl H))))
      (reassign_range_only id passing partitions req)) as Hreassign.
  pose proof (fun passing req =>
    only_weaken broadcast_range_calls failover_calls _
      (fun c H => orb_true_intro _ _ (or_introl (orb_true_intro _ _ (or_intror H))))
      (broadcast_range_only passing req)) as Hbroadcast.
  unfold failover, do. quiet.
Qed.

Local Opaque failover.

Lemma handleFailedMember_only s m :
  only handleFailedMember_calls
       (handleFailedMember IsBroker SerfCheckID SerfCheckName SerfCheckFailedOutput s m).
Proof.
  pose proof (fun id =>
    only_weaken failover_calls handleFailedMember_calls _
      (fun c H => orb_true_intro _ _ (or_introl H)) (failover_only s id)) as Hfailover.
  unfold handleFailedMember, raftApply, do. quiet.
Qed.

Local Transparent failover.
End Vocabulary.

(** Closing a goal about the observations of a run that was computed. *)
Ltac settle :=
  repeat split; intros; cbn in *;
  repeat match goal with
         | H : False |- _ => destruct H
         | H : _ /\ _ |- _ => destruct H
         | H : _ \/ _ |- _ => destruct H
         | H : ?x = ?x -> _ |- _ => specialize (H eq_refl)
         | H : ?a <> ?a |- _ => destruct (H eq_refl)
         end;
  subst; try congruence; auto.

(** ** [joinCluster] *)

Lemma joinCluster_range_pure (IsBroker : Member -> option BrokerMetadata * bool)
    (m : Member) (members : list Member) :
  (exists clash, joinCluster_range IsBroker m members = Ret clash)
  \/ joinCluster_range IsBroker m members = Panic nil_dereference.
Proof.
  induction members as [|member members IH]; cbn; [left; now exists false|].
  destruct (IsBroker member) as [[p|] ok];
    destruct (ok && negb (String.eqb (Member_Name member) (Member_Name m))); cbn; auto.
  destruct (BrokerMetadata_Bootstrap p); [left; now exists true|exact IH].
Qed.

Section JoinCluster.
Context {W : Type} (env : forall c : call, W -> resp c * W).
Variable IsBroker : Member -> option BrokerMetadata * bool.

(** The errors of raft in a run of [joinCluster], for the handler that
    calls it. *)
Lemma joinCluster_run (s : Broker) (m : Member) (parts : BrokerMetadata) (w : W) :
  let run := exec env (joinCluster IsBroker s m (Some parts)) w in
  raft_errors run.1.1 = match run.2 with
                        | Returned (Some e) => [e]
                        | _ => []
                        end.
Proof.
  cbn zeta. unfold joinCluster, raft_errors. cbn.
  destruct (BrokerMetadata_Bootstrap parts); cbn.
  - destruct (env LANMembers w) as [members w1]. cbn.
    destruct (joinCluster_range_pure IsBroker m members) as [[clash ->]| ->]; cbn; [|auto].
    destruct clash; answers env; cbn; auto;
      destruct (String.eqb _ _ && _); answers env; cbn; auto;
      destruct (BrokerMetadata_NonVoter parts); answers env; cbn; auto.
  - answers env; cbn; auto;
      destruct (String.eqb _ _ && _); answers env; cbn; auto;
      destruct (BrokerMetadata_NonVoter parts); answers env; cbn; auto.
Qed.

(** X2.  [joinCluster] adds at most one peer to the raft configuration: the
    member itself, under the server ID and the raft address of its tags, as
    a non-voter when it is tagged so and as a voter otherwise, with
    [prevIndex] and the timeout at 0.  It returns an error exactly when raft
    answered one, to [GetConfiguration] or to the addition, and then it
    returns that error. *)
Theorem joinCluster_adds_the_member (s : Broker) (m : Member) (parts : BrokerMetadata) (w : W) :
  let run := exec env (joinCluster IsBroker s m (Some parts)) w in
  (added run.1.1 = [] \/ added run.1.1 = [peer parts])
  /\ raft_errors run.1.1 = match run.2 with
                           | Returned (Some e) => [e]
                           | _ => []
                           end.
Proof.
  cbn zeta. unfold joinCluster, added, raft_errors, peer, calls. cbn.
  destruct (BrokerMetadata_Bootstrap parts); cbn.
  - destruct (env LANMembers w) as [members w1]. cbn.
    destruct (joinCluster_range_pure IsBroker m members) as [[clash ->]| ->]; cbn; [|auto].
    destruct clash; answers env; cbn; auto;
      destruct (String.eqb _ _ && _); answers env; cbn; auto;
      destruct (BrokerMetadata_NonVoter parts); answers env; cbn; auto.
  - answers env; cbn; auto;
      destruct (String.eqb _ _ && _); answers env; cbn; auto;
      destruct (BrokerMetadata_NonVoter parts); answers env; cbn; auto.
Qed.

(** X3.  Once raft has answered its configuration, [joinCluster] adds the
    member unless the member is this node and the configuration has fewer
    than three servers: then nothing is added and nil is returned.  A
    controller in a configuration of three servers or more adds itself
    again. *)
Theorem joinCluster_skips_self_in_a_small_cluster
    (s : Broker) (m : Member) (parts : BrokerMetadata) (w : W) (configuration : Configuration) :
  let run := exec env (joinCluster IsBroker s m (Some parts)) w in
  In (configuration, None) (configuration_answers run.1.1) ->
  if String.eqb (Member_Name m) (Config_NodeName (Broker_config s))
     && (Z.of_nat (length (Configuration_Servers configuration)) <? 3)%Z
  then added run.1.1 = [] /\ run.2 = Returned None
  else added run.1.1 = [peer parts].
Proof.
  cbn zeta. unfold joinCluster, added, configuration_answers, peer, calls. cbn.
  destruct (BrokerMetadata_Bootstrap parts); cbn;
    [destruct (env LANMembers w) as [members w1]; cbn;
     destruct (joinCluster_range_pure IsBroker m members) as [[[|] ->]| ->]; cbn|];
    answers env; cbn; try solve [intros []]; try solve [intros [H|[]]; discriminate H].
  all: match goal with
       | Heq : env GetConfiguration _ = (?c, None, _) |- _ =>
           destruct (String.eqb (Member_Name m) (Config_NodeName (Broker_config s))
                     && (Z.of_nat (length (Configuration_Servers c)) <? 3)%Z) eqn:Hself
       end.
  all: try destruct (BrokerMetadata_NonVoter parts).
  all: answers env; cbn; intros [H|[]]; injection H as <-; rewrite Hself; auto.
Qed.
End JoinCluster.

(** ** [handleAliveMember] *)

Lemma joinCluster_calls_observations (tr : list event) :
  Forall (fun c => joinCluster_calls c = true) (calls tr) ->
  getNode_answers tr = [] /\ proposed tr = [].
Proof.
  unfold calls. induction tr as [|[c r] tr IH]; cbn; [auto|].
  intros H. inversion H as [|? ? Hc Htr]; subst. specialize (IH Htr) as [IH1 IH2].
  unfold getNode_answers, proposed in *. cbn.
  destruct c; try discriminate Hc; cbn; auto.
Qed.

Section AliveMember.
Context {W : Type} (env : forall c : call, W -> resp c * W).
Variable IsBroker : Member -> option BrokerMetadata * bool.
Variables SerfCheckID SerfCheckName SerfCheckAliveOutput : string.

Lemma raft_errors_app (a b : list event) : raft_errors (a ++ b) = raft_errors a ++ raft_errors b.
Proof. apply omap_app. Qed.

Lemma getNode_answers_app (a b : list event) :
  getNode_answers (a ++ b) = getNode_answers a ++ getNode_answers b.
Proof. apply omap_app. Qed.

Lemma proposed_app (a b : list event) : proposed (a ++ b) = proposed a ++ proposed b.
Proof. apply omap_app. Qed.

(** X4.  [handleAliveMember] on a broker member proposes at most one record,
    the node of the member with a passing serf health check, and only when
    the FSM answered that it holds no node under the member's ID: a node
    that is already registered is left as it is, whatever its health check
    says, and nil is returned.  When the node is missing and the proposal
    goes through, it is the only proposal and nil is returned.  When raft
    answers an error while the member joins the cluster, that error is
    returned and the FSM is neither read nor written. *)
Theorem handleAliveMember_registers_a_missing_node
    (s : Broker) (m : Member) (b : BrokerMetadata) (w : W) :
  IsBroker m = (Some b, true) ->
  let run := exec env (handleAliveMember IsBroker SerfCheckID SerfCheckName
                                         SerfCheckAliveOutput s m) w in
  let id := BrokerMetadata_ID b in
  let passing :=
    (RegisterNodeRequestType,
     RegisterNodeRequest (aliveNode SerfCheckID SerfCheckName SerfCheckAliveOutput b)) in
  (proposed run.1.1 = [] \/ proposed run.1.1 = [passing])
  /\ (proposed run.1.1 <> [] -> getNode_answers run.1.1 = [(id, (None, None))])
  /\ (forall node, In (id, (Some node, None)) (getNode_answers run.1.1) ->
      proposed run.1.1 = [] /\ run.2 = Returned None)
  /\ (In (id, (None, None)) (getNode_answers run.1.1) -> proposals_succeed run.1.1 ->
      proposed run.1.1 = [passing] /\ run.2 = Returned None)
  /\ (forall e, In e (raft_errors run.1.1) ->
      run.2 = Returned (Some e) /\ getNode_answers run.1.1 = [] /\ proposed run.1.1 = []).
Proof.
  intros Hb. cbn zeta. unfold handleAliveMember. rewrite Hb.
  first [rewrite exec_mbind | rewrite exec_bind].
  pose proof (joinCluster_run env IsBroker s m b w) as Herr. cbn zeta in Herr.
  pose proof (only_exec env _ _ w (joinCluster_only IsBroker s m (Some b))) as Hcalls.
  apply joinCluster_calls_observations in Hcalls as [Hnodes Hprop].
  destruct (exec env (joinCluster IsBroker s m (Some b)) w) as [[tr w1] [[e|]|msg]];
    unfold raftApply, NodeID_Int32, proposed, getNode_answers, raft_errors in *;
    cbn in Herr, Hnodes, Hprop; answers env; cbn;
    rewrite ?omap_app, ?proposals_succeed_app, ?app_nil_r, ?Hnodes, ?Hprop, ?Herr; settle.
Qed.
End AliveMember.

(** ** [removeServer] and [handleDeregisterMember]: when raft refuses *)

Lemma removeServer_calls_observations (tr : list event) :
  Forall (fun c => removeServer_calls c = true) (calls tr) ->
  getNode_answers tr = [] /\ proposed tr = [].
Proof.
  unfold calls. induction tr as [|[c r] tr IH]; cbn; [auto|].
  intros H. inversion H as [|? ? Hc Htr]; subst. specialize (IH Htr) as [IH1 IH2].
  unfold getNode_answers, proposed in *. cbn.
  destruct c; try discriminate Hc; cbn; auto.
Qed.

Section Refusals.
Context {W : Type} (env : forall c : call, W -> resp c * W).

Lemma removeServer_range_run (meta : BrokerMetadata) (servers : list Server) (w : W) :
  let run := exec env (removeServer_range (Some meta) servers) w in
  match run.2 with
  | Returned None =>
      removal_answers run.1.1 = repeat None (length servers) /\ raft_errors run.1.1 = []
  | Returned (Some e) =>
      (exists n, (n < length servers)%nat
                 /\ removal_answers run.1.1 = repeat None n ++ [Some e])
      /\ raft_errors run.1.1 = [e]
  | Panicked _ => False
  end.
Proof.
  cbn zeta. revert w. induction servers as [|server servers IH]; intros w; cbn; [auto|].
  destruct (env (Log LInfo _) w) as [[] w1]. cbn.
  destruct (env (RemoveServer _ _ _) w1) as [[e|] w2]; cbn.
  - destruct (env (Log LError _) w2) as [[] w3]. cbn. split; [|reflexivity].
    exists 0%nat. split; [lia|reflexivity].
  - specialize (IH w2).
    destruct (exec env (removeServer_range (Some meta) servers) w2) as [[tr w3] [[e|]|msg]];
      cbn in *; [|now destruct IH as [-> ->]|exact IH].
    destruct IH as [(n & Hn & ->) ->]. split; [|reflexivity].
    exists (S n). split; [lia|reflexivity].
Qed.

(** X5.  [removeServer] never panics on a broker member.  It asks raft to
    remove the member once per server of the configuration and stops at the
    first removal raft refuses: the removals before it were accepted, none
    is asked after it, and the error of the refusal is returned.  When raft
    does not answer its configuration, nothing is removed and that error is
    returned.  Nil is returned only when every removal was accepted. *)
Theorem removeServer_stops_at_the_first_refusal (m : Member) (meta : BrokerMetadata) (w : W) :
  let run := exec env (removeServer m (Some meta)) w in
  let configuration := (env GetConfiguration w).1 in
  match run.2 with
  | Returned None =>
      configuration.2 = None
      /\ removal_answers run.1.1
         = repeat None (length (Configuration_Servers configuration.1))
  | Returned (Some e) =>
      (configuration.2 = Some e /\ removal_answers run.1.1 = [])
      \/ (configuration.2 = None
          /\ exists n, (n < length (Configuration_Servers configuration.1))%nat
                       /\ removal_answers run.1.1 = repeat None n ++ [Some e])
  | Panicked _ => False
  end.
Proof.
  cbn zeta. unfold removeServer. cbn.
  destruct (env GetConfiguration w) as [[configuration [e|]] w1]; cbn.
  - destruct (env (Log LError _) w1) as [[] w2]. cbn. auto.
  - pose proof (removeServer_range_run meta (Configuration_Servers configuration) w1) as H.
    cbn zeta in H.
    destruct (exec env (removeServer_range (Some meta) (Configuration_Servers configuration)) w1)
      as [[tr w2] [[e|]|msg]]; cbn in *; [|tauto..].
    right. tauto.
Qed.

Lemma removeServer_run (m : Member) (meta : BrokerMetadata) (w : W) :
  let run := exec env (removeServer m (Some meta)) w in
  getNode_answers run.1.1 = [] /\ proposed run.1.1 = []
  /\ match run.2 with
     | Returned None => raft_errors run.1.1 = []
     | Returned (Some e) => raft_errors run.1.1 = [e]
     | Panicked _ => False
     end.
Proof.
  cbn zeta.
  pose proof (only_exec env _ _ w (removeServer_only m (Some meta))) as Hcalls.
  apply removeServer_calls_observations in Hcalls as [Hnodes Hprop].
  split; [exact Hnodes|]. split; [exact Hprop|]. clear Hnodes Hprop.
  unfold removeServer. cbn.
  destruct (env GetConfiguration w) as [[configuration [e|]] w1]; cbn.
  - destruct (env (Log LError _) w1) as [[] w2]. reflexivity.
  - pose proof (removeServer_range_run meta (Configuration_Servers configuration) w1) as H.
    cbn zeta in H.
    destruct (exec env (removeServer_range (Some meta) (Configuration_Servers configuration)) w1)
      as [[tr w2] [[e|]|msg]]; cbn in *; tauto.
Qed.

Variable IsBroker : Member -> option BrokerMetadata * bool.

(** X6.  [handleDeregisterMember] on a broker member other than this node
    never panics, and proposes at most one record: the deregistration of the
    member's node, and only when the FSM answered that it holds that node.
    When raft answers an error, to [GetConfiguration] or to a removal, the
    handler returns it and the FSM is neither read nor written: the node
    stays registered.  When the lookup of the node fails, the error is
    returned and nothing is proposed; when there is no node, nil is
    returned and nothing is proposed. *)
Theorem handleDeregisterMember_keeps_the_node_when_raft_refuses
    (s : Broker) (reason : string) (m : Member) (meta : BrokerMetadata) (w : W) :
  IsBroker m = (Some meta, true) ->
  BrokerMetadata_ID meta <> Config_ID (Broker_config s) ->
  let run := exec env (handleDeregisterMember IsBroker s reason m) w in
  let id := BrokerMetadata_ID meta in
  let deregistration :=
    (DeregisterNodeRequestType, DeregisterNodeRequest (bareNode id)) in
  (forall msg, run.2 <> Panicked msg)
  /\ (proposed run.1.1 = [] \/ proposed run.1.1 = [deregistration])
  /\ (proposed run.1.1 <> [] -> exists node, getNode_answers run.1.1 = [(id, (Some node, None))])
  /\ (forall e, In e (raft_errors run.1.1) ->
      run.2 = Returned (Some e) /\ getNode_answers run.1.1 = [] /\ proposed run.1.1 = [])
  /\ (forall node e, In (id, (node, Some e)) (getNode_answers run.1.1) ->
      run.2 = Returned (Some e) /\ proposed run.1.1 = [])
  /\ (In (id, (None, None)) (getNode_answers run.1.1) ->
      run.2 = Returned None /\ proposed run.1.1 = []).
Proof.
  intros Hmeta Hid. cbn zeta. unfold handleDeregisterMember. rewrite Hmeta.
  cbn -[removeServer].
  unfold NodeID_Int32. apply Z.eqb_neq in Hid. rewrite Hid.
  first [rewrite exec_mbind | rewrite exec_bind].
  pose proof (removeServer_run m meta w) as (Hnodes & Hprop & Herr). cbn zeta in *.
  destruct (exec env (removeServer m (Some meta)) w) as [[tr w1] [[e|]|msg]];
    [| |destruct Herr];
    unfold raftApply, proposed, getNode_answers, raft_errors in *;
    cbn in Herr, Hnodes, Hprop; answers env; cbn;
    rewrite ?omap_app, ?app_nil_r, ?Hnodes, ?Hprop, ?Herr; settle; eauto.
Qed.
End Refusals.

(** ** More on the failover planner *)

Lemma failover_failover_plan (s : Broker) (id : Z) :
  failover s id =
    ('(_, err) ← do GetPartitions;
     match err with
     | Some e => Panic e
     | None =>
         '(partitions, err) ← do (PartitionsByLeader id);
         match err with
         | Some e => Ret (Some e)
         | None =>
             '(nodes, err) ← do GetNodes;
             match err with
             | Some e => Ret (Some e)
             | None => failover_plan s id partitions nodes
             end
         end
     end).
Proof. reflexivity. Qed.

Lemma reassign_range_calls_observations (tr : list event) :
  Forall (fun c => reassign_range_calls c = true) (calls tr) ->
  getPartitions_answers tr = [] /\ partitionsByLeader_answers tr = []
  /\ getNodes_answers tr = [] /\ lookups tr = [] /\ dialed tr = [] /\ sent tr = []
  /\ proposed tr = map registration (registered tr).
Proof.
  unfold calls. induction tr as [|[c r] tr IH]; cbn; [repeat split; reflexivity|].
  intros H. inversion H as [|? ? Hc Htr]; subst.
  specialize (IH Htr) as (IH1 & IH2 & IH3 & IH4 & IH5 & IH6 & IH7).
  unfold getPartitions_answers, partitionsByLeader_answers, getNodes_answers, lookups,
    dialed, sent, proposed, registered in *. cbn.
  destruct c; try discriminate Hc; cbn;
    try (destruct t, msg; try discriminate Hc; cbn);
    repeat split; try assumption; unfold registration; now f_equal.
Qed.

Lemma broadcast_range_calls_observations (tr : list event) :
  Forall (fun c => broadcast_range_calls c = true) (calls tr) ->
  getPartitions_answers tr = [] /\ partitionsByLeader_answers tr = []
  /\ getNodes_answers tr = [] /\ proposed tr = [] /\ registered tr = [].
Proof.
  unfold calls. induction tr as [|[c r] tr IH]; cbn; [repeat split; reflexivity|].
  intros H. inversion H as [|? ? Hc Htr]; subst.
  specialize (IH Htr) as (IH1 & IH2 & IH3 & IH4 & IH5).
  unfold getPartitions_answers, partitionsByLeader_answers, getNodes_answers, lookups,
    dialed, sent, proposed, registered in *. cbn.
  destruct c; try discriminate Hc; cbn; repeat split; assumption.
Qed.

Section Plan.
Context {W : Type} (env : forall c : call, W -> resp c * W).

(** The loop that sends the request, when it returns nil. *)
Lemma broadcast_range_nil (passing : list Node) (req : LeaderAndISRRequest) (w : W) :
  let run := exec env (broadcast_range passing req) w in
  run.2 = Returned None ->
  exists brokers,
    length brokers = length passing
    /\ lookups run.1.1
       = map (fun nb => (string_of_int (Node_Node nb.1), Some nb.2)) (combine passing brokers)
    /\ dialed run.1.1 = map (fun b => ("tcp", BrokerMetadata_BrokerAddr b)) brokers
    /\ sent run.1.1 = map (fun b => (BrokerMetadata_BrokerAddr b, req)) brokers.
Proof.
  cbn zeta. revert w. induction passing as [|n passing IH]; intros w; cbn.
  - intros _. now exists [].
  - destruct (env (BrokerByID _) w) as [[b|] w1]; cbn; [|discriminate].
    destruct (env (Dial _ _) w1) as [[e|] w2]; cbn; [discriminate|].
    destruct (env (ConnLeaderAndISR _ _) w2) as [[e|] w3]; cbn; [discriminate|].
    specialize (IH w3).
    destruct (exec env (broadcast_range passing req) w3) as [[tr w4] o]. cbn in *.
    intros Ho. destruct (IH Ho) as (brokers & Hlen & Hl & Hd & Hs).
    exists (b :: brokers). unfold lookups, dialed, sent in *. cbn.
    rewrite Hl, Hd, Hs, Hlen. auto.
Qed.

(** The loop over the partitions never returns an error with the loop
    unfinished and nil: the request it answers with nil holds every
    partition. *)
Lemma failover_plan_run (s : Broker) (id : Z) (partitions : list Partition)
    (nodes : list Node) (w : W) :
  let run := exec env (failover_plan s id partitions nodes) w in
  getPartitions_answers run.1.1 = [] /\ partitionsByLeader_answers run.1.1 = []
  /\ getNodes_answers run.1.1 = []
  /\ proposed run.1.1 = map registration (registered run.1.1)
  /\ (run.2 = Returned None ->
      exists brokers,
        length brokers = length (passing_set id nodes)
        /\ lookups run.1.1
           = map (fun nb => (string_of_int (Node_Node nb.1), Some nb.2))
                 (combine (passing_set id nodes) brokers)
        /\ dialed run.1.1 = map (fun b => ("tcp", BrokerMetadata_BrokerAddr b)) brokers
        /\ sent run.1.1
           = map (fun b => (BrokerMetadata_BrokerAddr b, leaderAndISRRequest s partitions))
                 brokers).
Proof.
  cbn zeta. unfold failover_plan.
  destruct (passing_range_spec id nodes []) as [-> | ->]; cbn -[reassign_range broadcast_range];
    [|repeat split; auto; discriminate].
  first [rewrite exec_mbind | rewrite exec_bind].
  pose proof (only_exec env _ _ w
                (reassign_range_only id (passing_set id nodes) partitions
                   {| LeaderAndISRRequest_ControllerID := Config_ID (Broker_config s);
                      LeaderAndISRRequest_PartitionStates := [] |})) as Hcalls.
  apply reassign_range_calls_observations in Hcalls as (H1 & H2 & H3 & H4 & H5 & H6 & H7).
  pose proof (reassign_range_run env id (passing_set id nodes) partitions
                {| LeaderAndISRRequest_ControllerID := Config_ID (Broker_config s);
                   LeaderAndISRRequest_PartitionStates := [] |} w) as [(done & rest & _ & _ & Hreq) _].
  destruct (exec env (reassign_range id (passing_set id nodes) partitions _) w)
    as [[tr w1] [[req [e|]]|msg]]; cbn [fst snd] in *.
  - cbn. rewrite app_nil_r. repeat split; auto; discriminate.
  - specialize (Hreq req eq_refl) as [_ ->]. cbn -[broadcast_range].
    pose proof (only_exec env _ _ w1
                  (broadcast_range_only (passing_set id nodes)
                     (leaderAndISRRequest s partitions))) as Hcalls.
    apply broadcast_range_calls_observations in Hcalls as (B1 & B2 & B3 & B4 & B5).
    pose proof (broadcast_range_nil (passing_set id nodes) (leaderAndISRRequest s partitions) w1)
      as Hnil.
    cbn zeta in Hnil. unfold leaderAndISRRequest in *. cbn [LeaderAndISRRequest_ControllerID LeaderAndISRRequest_PartitionStates app] in *.
    destruct (exec env (broadcast_range (passing_set id nodes) _) w1) as [[tr2 w2] o].
    cbn [fst snd] in *.
    unfold getPartitions_answers, partitionsByLeader_answers, getNodes_answers, lookups,
      dialed, sent, proposed, registered in *.
    rewrite !omap_app, H1, H2, H3, H4, H5, H6, H7, B1, B2, B3, B4, B5, !app_nil_r.
    repeat split; auto.
  - cbn. repeat split; auto; discriminate.
Qed.
End Plan.

Section FailedMemberMore.
Context {W : Type} (env : forall c : call, W -> resp c * W).
Variable IsBroker : Member -> option BrokerMetadata * bool.
Variables SerfCheckID SerfCheckName SerfCheckFailedOutput : string.

Local Opaque failover_plan.

Lemma failover_reads (s : Broker) (id : Z) (w : W) :
  let run := exec env (failover s id) w in
  proposed run.1.1 = map registration (registered run.1.1)
  /\ (forall partitions e, In (partitions, Some e) (getPartitions_answers run.1.1) ->
      run.2 = Panicked e /\ registered run.1.1 = [] /\ sent run.1.1 = [])
  /\ (forall partitions e,
        In (id, (partitions, Some e)) (partitionsByLeader_answers run.1.1) ->
        run.2 = Returned (Some e) /\ registered run.1.1 = [] /\ sent run.1.1 = [])
  /\ (forall nodes e, In (nodes, Some e) (getNodes_answers run.1.1) ->
      run.2 = Returned (Some e) /\ registered run.1.1 = [] /\ sent run.1.1 = [])
  /\ (run.2 = Returned None ->
      exists partitions nodes brokers,
        partitionsByLeader_answers run.1.1 = [(id, (partitions, None))]
        /\ getNodes_answers run.1.1 = [(nodes, None)]
        /\ length brokers = length (passing_set id nodes)
        /\ lookups run.1.1
           = map (fun nb => (string_of_int (Node_Node nb.1), Some nb.2))
                 (combine (passing_set id nodes) brokers)
        /\ dialed run.1.1 = map (fun b => ("tcp", BrokerMetadata_BrokerAddr b)) brokers
        /\ sent run.1.1
           = map (fun b => (BrokerMetadata_BrokerAddr b, leaderAndISRRequest s partitions))
                 brokers).
Proof.
  cbn zeta. rewrite failover_failover_plan. cbn.
  destruct (env GetPartitions w) as [[all [e|]] w1]; cbn; [settle|].
  destruct (env (PartitionsByLeader id) w1) as [[partitions [e|]] w2]; cbn; [settle|].
  destruct (env GetNodes w2) as [[nodes [e|]] w3]; cbn; [settle|].
  pose proof (failover_plan_run env s id partitions nodes w3) as (H1 & H2 & H3 & H4 & H5).
  destruct (exec env (failover_plan s id partitions nodes) w3) as [[tr w4] o].
  cbn [fst snd] in *.
  unfold getPartitions_answers, partitionsByLeader_answers, getNodes_answers, lookups,
    dialed, sent, proposed, registered in *.
  cbn in *. rewrite H1, H2, H3.
  split; [exact H4|]. split; [settle|]. split; [settle|]. split; [settle|].
  intros Ho. destruct (H5 Ho) as (brokers & Hb). exists partitions, nodes, brokers. tauto.
Qed.

Local Transparent failover_plan.
Local Opaque failover.

(** X7.  [handleFailedMember] on a broker member: the first proposal is the
    node of the member with a critical serf health check, and every
    proposal after it registers a partition.  When raft accepts no proposal
    at all, so that the critical check is not recorded, the handler returns
    an error and does none of the work of the failover: it reads no
    partition and no node, draws no leader and reaches no peer. *)
Theorem handleFailedMember_registers_critical_first
    (s : Broker) (m : Member) (meta : BrokerMetadata) (w : W) :
  IsBroker m = (Some meta, true) ->
  let run := exec env (handleFailedMember IsBroker SerfCheckID SerfCheckName
                                          SerfCheckFailedOutput s m) w in
  let critical :=
    (RegisterNodeRequestType,
     RegisterNodeRequest (failedNode SerfCheckID SerfCheckName SerfCheckFailedOutput m meta)) in
  (proposed run.1.1 = [] \/ proposed run.1.1 = critical :: map registration (registered run.1.1))
  /\ (committed run.1.1 = [] ->
      (exists e, run.2 = Returned (Some e))
      /\ Forall (fun c => is_failover c = false) (calls run.1.1)).
Proof.
  intros Hmeta. cbn zeta. unfold handleFailedMember, raftApply. rewrite Hmeta. cbn.
  destruct (env (Encode _ _) w) as [[e|] w1]; cbn.
  { split; [now left|]. intros _. split; [eauto|]. repeat constructor. }
  destruct (env (RaftApply _ _ _) w1) as [[response [e|]] w2]; cbn.
  { split; [right; reflexivity|]. intros _. split; [eauto|]. repeat constructor. }
  pose proof (failover_reads s (NodeID_Int32 (BrokerMetadata_ID meta)) w2) as [Hprop _].
  cbn zeta in Hprop.
  destruct (exec env (failover s (NodeID_Int32 (BrokerMetadata_ID meta))) w2) as [[tr w3] o].
  cbn [fst snd] in *. unfold proposed, registered, committed in *. cbn.
  rewrite Hprop. split; [now right|]. discriminate.
Qed.

(** X8.  [handleFailedMember] and the reads of the FSM.  An error of
    [GetPartitions] makes the handler panic with that error; an error of
    [PartitionsByLeader] or of [GetNodes] is returned.  In the three cases
    no partition is registered and no request is sent to a peer, although
    the critical health check of the member has been recorded. *)
Theorem handleFailedMember_read_errors
    (s : Broker) (m : Member) (meta : BrokerMetadata) (w : W) :
  IsBroker m = (Some meta, true) ->
  let run := exec env (handleFailedMember IsBroker SerfCheckID SerfCheckName
                                          SerfCheckFailedOutput s m) w in
  let id := BrokerMetadata_ID meta in
  let critical :=
    (RegisterNodeRequestType,
     RegisterNodeRequest (failedNode SerfCheckID SerfCheckName SerfCheckFailedOutput m meta)) in
  (forall partitions e, In (partitions, Some e) (getPartitions_answers run.1.1) ->
     run.2 = Panicked e /\ committed run.1.1 = [critical] /\ sent run.1.1 = [])
  /\ (forall partitions e,
        In (id, (partitions, Some e)) (partitionsByLeader_answers run.1.1) ->
        run.2 = Returned (Some e) /\ committed run.1.1 = [critical] /\ sent run.1.1 = [])
  /\ (forall nodes e, In (nodes, Some e) (getNodes_answers run.1.1) ->
      run.2 = Returned (Some e) /\ committed run.1.1 = [critical] /\ sent run.1.1 = []).
Proof.
  intros Hmeta. cbn zeta. unfold handleFailedMember, raftApply. rewrite Hmeta. cbn.
  destruct (env (Encode _ _) w) as [[e|] w1]; cbn; [settle|].
  destruct (env (RaftApply _ _ _) w1) as [[response [e|]] w2]; cbn; [settle|].
  pose proof (failover_reads s (NodeID_Int32 (BrokerMetadata_ID meta)) w2)
    as (Hprop & H1 & H2 & H3 & _).
  cbn zeta in *. unfold NodeID_Int32 in *.
  destruct (exec env (failover s (BrokerMetadata_ID meta)) w2) as [[tr w3] o].
  cbn [fst snd] in *.
  assert (Hcommitted : registered tr = [] -> committed tr = []).
  { intros Hreg. rewrite Hreg in Hprop. clear -Hprop. unfold proposed, committed in *.
    induction tr as [|[c r] tr IH]; [reflexivity|].
    cbn in *. destruct c; cbn in *; try discriminate; auto. }
  split; [|split]; intros ? ? Hin;
    first [ destruct (H1 _ _ Hin) as (Ho & Hr & Hs)
          | destruct (H2 _ _ Hin) as (Ho & Hr & Hs)
          | destruct (H3 _ _ Hin) as (Ho & Hr & Hs) ];
    (split; [exact Ho|split; [exact (f_equal (cons _) (Hcommitted Hr))|exact Hs]]).
Qed.
End FailedMemberMore.

Section FailedMemberPeers.
Context {W : Type} (env : forall c : call, W -> resp c * W).
Variable IsBroker : Member -> option BrokerMetadata * bool.
Variables SerfCheckID SerfCheckName SerfCheckFailedOutput : string.

Local Opaque failover.


End FailedMemberPeers.

(** ** [handleFailedMember] fails fast *)

Lemma fails_fast_app (tr1 tr2 : list event) (o : outcome error) :
  errors tr1 = [] -> fails_fast tr2 o -> fails_fast (tr1 ++ tr2) o.
Proof.
  intros H1 [[H2 Ho]|(tr' & ev & e & -> & H2 & Hev & Ho)].
  - left. split; [|exact Ho]. unfold errors in *. now rewrite omap_app, H1, H2.
  - right. exists (tr1 ++ tr'), ev, e. rewrite app_assoc. repeat split; auto.
    unfold errors in *. now rewrite omap_app, H1, H2.
Qed.

Lemma fails_fast_last (ev : event) (e : string) (o : outcome error) :
  answer_error ev = Some e -> ends_with ev e o -> fails_fast [ev] o.
Proof. intros Hev Ho. right. now exists [], ev, e. Qed.

Section FailsFast.
Context {W : Type} (env : forall c : call, W -> resp c * W).

Lemma reassign_range_fails_fast (id : Z) (passing : list Node) (partitions : list Partition)
    (req : LeaderAndISRRequest) (w : W) :
  let run := exec env (reassign_range id passing partitions req) w in
  fails_fast run.1.1 (error_of run.2).
Proof.
  cbn zeta. revert req w. induction partitions as [|p partitions IH]; intros req w.
  - left. cbn. auto.
  - cbn [reassign_range]. unfold rand_Intn.
    destruct (Z.of_nat (length passing) <=? 0)%Z; [left; cbn; eauto|].
    cbn. destruct (env (Intn _) w) as [i w1]. cbn.
    destruct (index_In passing (i `mod` Z.of_nat (length passing))%Z)
      as [(node & -> & _)|(msg & ->)]; cbn; [|left; cbn; eauto].
    destruct (env (Encode _ _) w1) as [[e|] w2]; cbn.
    { apply (fails_fast_app [_] [_]); [reflexivity|]. now apply (fails_fast_last _ e). }
    destruct (env (RaftApply _ _ _) w2) as [[response [e|]] w3]; cbn.
    { apply (fails_fast_app [_; _] [_]); [reflexivity|]. now apply (fails_fast_last _ e). }
    specialize (IH {| LeaderAndISRRequest_ControllerID := LeaderAndISRRequest_ControllerID req;
                      LeaderAndISRRequest_PartitionStates :=
                        LeaderAndISRRequest_PartitionStates req ++ [partitionState p] |} w3).
    destruct (exec env (reassign_range id passing partitions _) w3) as [[tr w4] o].
    cbn [fst snd] in *. apply (fails_fast_app [_; _; _] tr); [reflexivity|exact IH].
Qed.

Lemma broadcast_range_fails_fast (passing : list Node) (req : LeaderAndISRRequest) (w : W) :
  let run := exec env (broadcast_range passing req) w in
  fails_fast run.1.1 run.2.
Proof.
  cbn zeta. revert w. induction passing as [|n passing IH]; intros w.
  - left. cbn. auto.
  - cbn. destruct (env (BrokerByID _) w) as [[b|] w1]; cbn; [|left; cbn; eauto].
    destruct (env (Dial _ _) w1) as [[e|] w2]; cbn.
    { apply (fails_fast_app [_] [_]); [reflexivity|]. now apply (fails_fast_last _ e). }
    destruct (env (ConnLeaderAndISR _ _) w2) as [[e|] w3]; cbn.
    { apply (fails_fast_app [_; _] [_]); [reflexivity|]. now apply (fails_fast_last _ e). }
    specialize (IH w3).
    destruct (exec env (broadcast_range passing req) w3) as [[tr w4] o].
    cbn [fst snd] in *. apply (fails_fast_app [_; _; _] tr); [reflexivity|exact IH].
Qed.

Local Opaque reassign_range broadcast_range.

Lemma failover_plan_fails_fast (s : Broker) (id : Z) (partitions : list Partition)
    (nodes : list Node) (w : W) :
  let run := exec env (failover_plan s id partitions nodes) w in
  fails_fast run.1.1 run.2.
Proof.
  cbn zeta. unfold failover_plan.
  destruct (passing_range_spec id nodes []) as [-> | ->]; cbn; [|left; cbn; eauto].
  first [rewrite exec_mbind | rewrite exec_bind].
  pose proof (reassign_range_fails_fast id (passing_set id nodes) partitions
                {| LeaderAndISRRequest_ControllerID := Config_ID (Broker_config s);
                   LeaderAndISRRequest_PartitionStates := [] |} w) as Hr.
  cbn zeta in Hr.
  destruct (exec env (reassign_range id (passing_set id nodes) partitions _) w)
    as [[tr w1] [[req [e|]]|msg]]; cbn [fst snd error_of] in *.
  - cbn. rewrite app_nil_r. exact Hr.
  - pose proof (broadcast_range_fails_fast (passing_set id nodes) req w1) as Hb.
    cbn zeta in Hb.
    destruct (exec env (broadcast_range (passing_set id nodes) req) w1) as [[tr2 w2] o].
    cbn [fst snd] in *. apply fails_fast_app; [|exact Hb].
    destruct Hr as [[Hr _]|(tr' & ev & e & _ & _ & Hev & Ho)]; [exact Hr|].
    unfold ends_with in Ho. destruct (call_of ev); discriminate Ho.
  - exact Hr.
Qed.

Local Transparent reassign_range broadcast_range.
Local Opaque failover_plan.

Lemma failover_fails_fast (s : Broker) (id : Z) (w : W) :
  let run := exec env (failover s id) w in
  fails_fast run.1.1 run.2.
Proof.
  cbn zeta. rewrite failover_failover_plan. cbn.
  destruct (env GetPartitions w) as [[all [e|]] w1]; cbn.
  { now apply (fails_fast_last _ e). }
  destruct (env (PartitionsByLeader id) w1) as [[partitions [e|]] w2]; cbn.
  { apply (fails_fast_app [_] [_]); [reflexivity|]. now apply (fails_fast_last _ e). }
  destruct (env GetNodes w2) as [[nodes [e|]] w3]; cbn.
  { apply (fails_fast_app [_; _] [_]); [reflexivity|]. now apply (fails_fast_last _ e). }
  pose proof (failover_plan_fails_fast s id partitions nodes w3) as Hp. cbn zeta in Hp.
  destruct (exec env (failover_plan s id partitions nodes) w3) as [[tr w4] o].
  cbn [fst snd] in *. apply (fails_fast_app [_; _; _] tr); [reflexivity|exact Hp].
Qed.

Local Transparent failover_plan.
Local Opaque failover.

Variable IsBroker : Member -> option BrokerMetadata * bool.
Variables SerfCheckID SerfCheckName SerfCheckFailedOutput : string.

(** X11.  [handleFailedMember] fails fast, for every member and whatever
    the collaborators answer: it makes no call after one has answered an
    error.  When no call answers an error the handler returns nil or
    panics.  Otherwise the failing call is the last call of the run and its
    error decides the end: an error of [GetPartitions] is the panic, an
    error of the encoding is returned behind "failed to encode request: ",
    any other error (of raft, the FSM, the dialer or the peer) is returned
    as it is.  So the partitions after a refused registration are not
    reassigned and the peers after an unreachable one are not told. *)
Theorem handleFailedMember_fails_fast (s : Broker) (m : Member) (w : W) :
  let run := exec env (handleFailedMember IsBroker SerfCheckID SerfCheckName
                                          SerfCheckFailedOutput s m) w in
  fails_fast run.1.1 run.2.
Proof.
  cbn zeta. unfold handleFailedMember, raftApply.
  destruct (IsBroker m) as [[meta|] [|]]; cbn; try (left; cbn; eauto; fail).
  destruct (env (Encode _ _) w) as [[e|] w1]; cbn.
  { now apply (fails_fast_last _ e). }
  destruct (env (RaftApply _ _ _) w1) as [[response [e|]] w2]; cbn.
  { apply (fails_fast_app [_] [_]); [reflexivity|]. now apply (fails_fast_last _ e). }
  pose proof (failover_fails_fast s (NodeID_Int32 (BrokerMetadata_ID meta)) w2) as Hf.
  cbn zeta in Hf.
  destruct (exec env (failover s (NodeID_Int32 (BrokerMetadata_ID meta))) w2) as [[tr w3] o].
  cbn [fst snd] in *. apply (fails_fast_app [_; _] tr); [reflexivity|exact Hf].
Qed.

Lemma passing_range_nil_check (id : Z) (nodes passing : list Node) :
  Exists (fun n => Node_Check n = None) nodes ->
  passing_range id nodes passing = Panic nil_dereference.
Proof.
  intros H. revert passing. induction H as [n nodes Hn|n nodes H IH]; intros passing; cbn.
  - now rewrite Hn.
  - destruct (Node_Check n) as [check|]; cbn; [|reflexivity].
    destruct (_ && _); apply IH.
Qed.

Lemma failover_plan_nil_check (s : Broker) (id : Z) (partitions : list Partition)
    (nodes : list Node) :
  Exists (fun n => Node_Check n = None) nodes ->
  failover_plan s id partitions nodes = Panic nil_dereference.
Proof.
  intros H. unfold failover_plan. now rewrite (passing_range_nil_check _ _ _ H).
Qed.

Local Transparent failover.
Local Opaque failover_plan.

(** X12.  [handleFailedMember] dereferences the health check of every node
    the FSM holds: when one of the nodes has no health check, the handler
    panics on the nil pointer before any partition is registered and before
    any peer is reached, whoever the failed member is. *)
Theorem handleFailedMember_panics_on_a_node_without_check
    (s : Broker) (m : Member) (meta : BrokerMetadata) (w : W) (nodes : list Node) :
  IsBroker m = (Some meta, true) ->
  let run := exec env (handleFailedMember IsBroker SerfCheckID SerfCheckName
                                          SerfCheckFailedOutput s m) w in
  In (nodes, None) (getNodes_answers run.1.1) ->
  Exists (fun n => Node_Check n = None) nodes ->
  run.2 = Panicked nil_dereference /\ registered run.1.1 = [] /\ sent run.1.1 = [].
Proof.
  intros Hmeta. cbn zeta. unfold handleFailedMember, raftApply. rewrite Hmeta.
  cbn -[failover]. rewrite failover_failover_plan. cbn.
  destruct (env (Encode _ _) w) as [[e|] w1]; cbn; [intros []|].
  destruct (env (RaftApply _ _ _) w1) as [[response [e|]] w2]; cbn; [intros []|].
  destruct (env GetPartitions w2) as [[all [e|]] w3]; cbn; [intros []|].
  destruct (env (PartitionsByLeader _) w3) as [[partitions [e|]] w4]; cbn; [intros []|].
  destruct (env GetNodes w4) as [[nodes' [e|]] w5]; cbn; [intros [H|[]]; discriminate H|].
  pose proof (failover_plan_run env s (NodeID_Int32 (BrokerMetadata_ID meta)) partitions
                nodes' w5) as (_ & _ & H3 & _).
  pose proof (failover_plan_nil_check s (NodeID_Int32 (BrokerMetadata_ID meta)) partitions
                nodes') as Hnil'.
  cbn zeta in H3.
  destruct (exec env (failover_plan s _ partitions nodes') w5) as [[tr w6] o] eqn:Hrun.
  cbn [fst snd] in *. intros Hin Hnil.
  change (In (nodes, None) ((nodes', None) :: getNodes_answers tr)) in Hin.
  rewrite H3 in Hin. destruct Hin as [Hin|[]]. injection Hin as ->.
  rewrite (Hnil' Hnil) in Hrun. cbn in Hrun. injection Hrun as <- _ <-. auto.
Qed.

Local Transparent failover_plan.
End FailsFast.

(** ** What the handlers never do *)

Ltac vocabulary :=
  let c := fresh "c" in
  let Hc := fresh "Hc" in
  intros c Hc; split; [exact Hc|];
  destruct c; try discriminate Hc;
  repeat match goal with
         | t : MessageType |- _ => destruct t
         | msg : Message |- _ => destruct msg
         end;
  try discriminate Hc; repeat split; intros; try reflexivity; try discriminate.

Section Never.
Context {W : Type} (env : forall c : call, W -> resp c * W).
Variable IsBroker : Member -> option BrokerMetadata * bool.
Variables SerfCheckID SerfCheckName : string.
Variables SerfCheckAliveOutput SerfCheckFailedOutput : string.

(** X13.  Whatever the member and whatever the collaborators answer,
    [handleAliveMember] calls nothing but the logger, serf's member list,
    raft's configuration and its addition of a peer, the lookup of a node
    and the proposal of a node registration.  It never removes a server
    from the raft configuration, never deregisters a node, never reads or
    registers a partition, never reaches a peer broker and never touches
    the readiness flag. *)
Theorem handleAliveMember_never_removes (s : Broker) (m : Member) (w : W) :
  Forall (fun c => handleAliveMember_calls c = true
                   /\ is_RemoveServer c = false /\ is_deregistration c = false
                   /\ is_failover c = false /\ touches_flag c = false)
         (calls (trace env (handleAliveMember IsBroker SerfCheckID SerfCheckName
                                              SerfCheckAliveOutput s m) w)).
Proof.
  refine (List.Forall_impl _ _
            (only_exec env _ _ w
               (handleAliveMember_only IsBroker SerfCheckID SerfCheckName
                                       SerfCheckAliveOutput s m))).
  vocabulary.
Qed.

(** X14.  Whatever the member and whatever the collaborators answer,
    [handleDeregisterMember], and so [handleLeftMember], calls nothing but
    the logger, raft's configuration and its removal of a server, the
    lookup of a node and the proposal of a node deregistration.  It never
    adds a peer to the raft configuration, its only proposals are
    deregistrations, and it never reads or registers a partition, never
    reaches a peer broker and never touches the readiness flag. *)
Theorem handleDeregisterMember_never_adds (s : Broker) (reason : string) (m : Member) (w : W) :
  Forall (fun c => handleDeregisterMember_calls c = true
                   /\ is_Add c = false
                   /\ (is_proposal c = true -> is_deregistration c = true)
                   /\ is_failover c = false /\ touches_flag c = false)
         (calls (trace env (handleDeregisterMember IsBroker s reason m) w)).
Proof.
  refine (List.Forall_impl _ _
            (only_exec env _ _ w (handleDeregisterMember_only IsBroker s reason m))).
  vocabulary.
Qed.

(** X15.  Whatever the member and whatever the collaborators answer,
    [handleFailedMember] calls nothing but the proposals of a node and of
    partitions, the three reads of the FSM, the random source, the broker
    lookup, the dialer over tcp and the connection.  It never reads or
    changes the raft configuration, so the server of a failed broker stays
    in it; it never deregisters a node, never logs and never touches the
    readiness flag. *)
Theorem handleFailedMember_never_changes_membership (s : Broker) (m : Member) (w : W) :
  Forall (fun c => handleFailedMember_calls c = true
                   /\ is_membership c = false /\ is_deregistration c = false
                   /\ is_Log c = false /\ touches_flag c = false)
         (calls (trace env (handleFailedMember IsBroker SerfCheckID SerfCheckName
                                               SerfCheckFailedOutput s m) w)).
Proof.
  refine (List.Forall_impl _ _
            (only_exec env _ _ w
               (handleFailedMember_only IsBroker SerfCheckID SerfCheckName
                                        SerfCheckFailedOutput s m))).
  vocabulary.
Qed.
End Never.

(** ** More on [setupRaft] *)

Section SetupRaftMore.
Context {W : Type} (env : forall c : call, W -> resp c * W).
Variable raftState : string.
Variables raftLogCacheSize snapshotsRetained : Z.

Local Abbreviation setupRaft' := (setupRaft raftState raftLogCacheSize snapshotsRetained).

Ltac setup :=
  cbn zeta; unfold setupRaft, setupRaft_body, setupRaft_stores;
  intros;
  repeat (answers env; cbn;
          repeat match goal with
                 | |- context [Config_DevMode ?c] => destruct (Config_DevMode c) eqn:?
                 | |- context [Config_Bootstrap ?c] => destruct (Config_Bootstrap c) eqn:?
                 | |- context [Broker_raft ?s] => destruct (Broker_raft s) eqn:?
                 | |- context [Broker_raftStore ?s] => destruct (Broker_raftStore s) eqn:?
                 end; cbn).

(** X16.  [setupRaft] never panics, and it fails fast: the error it
    returns is the error of the one step that failed, that step is the
    last of the body, and a nil error means that no step failed and that
    [raft.NewRaft] was called once, its answer being the raft instance of
    the broker.  After the body the deferred function does nothing, or
    closes the store, or closes it and logs the error of the close with
    "leader: failed to close raft store": that error is logged, not
    returned, the error returned being the one of the body. *)
Theorem setupRaft_fails_fast (s : Broker) (w : W) :
  let run := exec env (setupRaft' s) w in
  exists s1 err,
    run.2 = Returned (s1, err)
    /\ errors (before_close run.1.1) = match err with Some e => [e] | None => [] end
    /\ (forall pre ev post, before_close run.1.1 = pre ++ ev :: post ->
        answer_error ev <> None -> post = [])
    /\ (err = None -> newRaft_answers run.1.1 = [(Broker_raft s1, None)])
    /\ run.1.1 = before_close run.1.1 ++ deferred_close (close_answers run.1.1).
Proof.
  assert (Hlast : forall (tr : list event) (e : event),
             errors tr = [] ->
             forall pre ev post, tr ++ [e] = pre ++ ev :: post ->
                                 answer_error ev <> None -> post = []).
  { intros tr e Htr pre ev post Heq Hev.
    destruct post as [|ev' post] using rev_ind; [reflexivity|].
    rewrite app_comm_cons, app_assoc in Heq. apply app_inj_tail in Heq as [-> _].
    unfold errors in Htr. rewrite omap_app in Htr. cbn in Htr.
    destruct (answer_error ev); [|congruence].
    apply app_eq_nil in Htr as [_ Htr]. discriminate. }
  assert (Hnone : forall (tr : list event),
             errors tr = [] ->
             forall pre ev post, tr = pre ++ ev :: post -> answer_error ev <> None -> post = []).
  { intros tr Htr pre ev post -> Hev. unfold errors in Htr. rewrite omap_app in Htr. cbn in Htr.
    destruct (answer_error ev); [|congruence].
    apply app_eq_nil in Htr as [_ Htr]. discriminate. }
  setup.
  all: eexists _, _; split; [reflexivity|]; split; [reflexivity|]; split;
    [|split; [first [discriminate | reflexivity | intros _; reflexivity]|reflexivity]].
  all: first [ refine (Hnone _ eq_refl)
             | match goal with
               | |- forall pre ev post, ?l = _ -> _ =>
                   let l' := eval cbn in (List.removelast l) in
                   let e := eval cbn in (List.last l (Ev NewInmemStore tt)) in
                   exact (Hlast l' e eq_refl)
               end ].
Qed.

(** X17.  The deferred function of [setupRaft], for a broker that has
    neither a raft instance nor a raft store yet: the store is closed at
    most once, and exactly when [raftboltdb.NewBoltStore] opened it and the
    function ends without a raft instance.  So a store that was opened is
    not left open by a failed setup, and the store of a raft instance that
    was created is not closed; in dev mode nothing is closed. *)
Theorem setupRaft_closes_an_orphan_store (s : Broker) (w : W) :
  Broker_raft s = false ->
  Broker_raftStore s = false ->
  let run := exec env (setupRaft' s) w in
  (closes run.1.1 = [] \/ closes run.1.1 = [RaftStoreClose])
  /\ (closes run.1.1 = [RaftStoreClose] <->
      In None (boltStore_answers run.1.1)
      /\ forall err, ~ In (true, err) (newRaft_answers run.1.1))
  /\ (Config_DevMode (Broker_config s) = true -> closes run.1.1 = []).
Proof.
  setup.
  all: try congruence.
  all: unfold closes, boltStore_answers, newRaft_answers; cbn.
  all: split; [auto|split]; try solve [intuition congruence].
  all: split; [discriminate|].
  all: intros [Hopened Hraft]; exfalso; eapply Hraft; left; reflexivity.
Qed.

End SetupRaftMore.

(** ** Watching the leader loop *)

Section MonitorLemmas.
Context {St : Type}.
Variable step : St -> forall c : call, resp c -> option St.

Lemma holds_exec {W A : Type} (env : forall c : call, W -> resp c * W)
    (final : St -> outcome A -> Prop) (st : St) (p : prog A) (w : W) :
  holds step final st p ->
  exists st', watch step st (exec env p w).1.1 = Some st' /\ final st' (exec env p w).2.
Proof.
  revert st w. induction p as [a|msg|c k IH]; intros st w Hp; cbn in *; eauto.
  destruct (env c w) as [r w1]. specialize (Hp r).
  destruct (step st c r) as [st1|] eqn:Hstep; [|destruct Hp].
  destruct (IH r st1 w1 Hp) as (st' & Hw & Ho).
  destruct (exec env (k r) w1) as [[tr w2] o]. cbn in *. rewrite Hstep. eauto.
Qed.

Lemma holds_weaken {A : Type} (final final' : St -> outcome A -> Prop) (st : St)
    (p : prog A) :
  (forall st' o, final st' o -> final' st' o) ->
  holds step final st p -> holds step final' st p.
Proof.
  intros Hf. revert st. induction p as [a|msg|c k IH]; intros st; cbn; auto.
  intros Hp r. specialize (Hp r). destruct (step st c r); [eauto|exact Hp].
Qed.

Lemma holds_bind {A B : Type} (final : St -> outcome B -> Prop) (st : St)
    (p : prog A) (f : A -> prog B) :
  holds step (fun st' o => match o with
                           | Returned a => holds step final st' (f a)
                           | Panicked msg => final st' (Panicked msg)
                           end) st p ->
  holds step final st (bind p f).
Proof.
  revert st. induction p as [a|msg|c k IH]; intros st; cbn; auto.
  intros Hp r. specialize (Hp r). destruct (step st c r); [eauto|exact Hp].
Qed.

(** A program whose calls leave the monitor in its state. *)
Lemma holds_only {A : Type} (Q : call -> bool) (R : A -> Prop) (st : St) (p : prog A) :
  (forall c r, Q c = true -> step st c r = Some st) ->
  only Q p -> returns R p ->
  holds step (fun st' o => st' = st /\ match o with
                                       | Returned a => R a
                                       | Panicked _ => True
                                       end) st p.
Proof.
  intros HQ. induction p as [a|msg|c k IH]; cbn; auto.
  intros [Hc Hk] Hr r. rewrite (HQ c r Hc). auto.
Qed.

Lemma holds_bind_only {A B : Type} (Q : call -> bool) (R : A -> Prop)
    (final : St -> outcome B -> Prop) (st : St) (p : prog A) (f : A -> prog B) :
  (forall c r, Q c = true -> step st c r = Some st) ->
  only Q p -> returns R p ->
  (forall msg, final st (Panicked msg)) ->
  (forall a, R a -> holds step final st (f a)) ->
  holds step final st (bind p f).
Proof.
  intros HQ Hp Hr Hpanic Hf. apply holds_bind.
  eapply holds_weaken; [|exact (holds_only Q R st p HQ Hp Hr)].
  intros st' [a|msg] [-> Ha]; auto.
Qed.

Lemma holds_bind_panic {A B : Type} (final : St -> outcome B -> Prop) (st : St)
    (d : prog unit) (msg : string) (f : A -> prog B) :
  holds step final st (bind d (fun _ => Panic msg)) ->
  holds step final st (bind (bind d (fun _ => Panic msg)) f).
Proof.
  revert st. induction d as [a|msg'|c k IH]; intros st; cbn; auto.
  intros Hd r. specialize (Hd r). destruct (step st c r); [eauto|exact Hd].
Qed.

(** The same under a deferred function [d], which runs when [p] panics. *)
Lemma holds_bind_unwinding {A B : Type} (Q : call -> bool) (R : A -> Prop)
    (final : St -> outcome B -> Prop) (st : St) (d : prog unit) (p : prog A)
    (f : A -> prog B) :
  (forall c r, Q c = true -> step st c r = Some st) ->
  (forall msg, holds step final st (bind d (fun _ => Panic msg))) ->
  only Q p -> returns R p ->
  (forall a, R a -> holds step final st (f a)) ->
  holds step final st (bind (unwinding d p) f).
Proof.
  intros HQ Hd Hp Hr Hf. induction p as [a|msg|c k IH]; cbn in *.
  - auto.
  - apply holds_bind_panic, Hd.
  - destruct Hp as [Hc Hk]. intros r. rewrite (HQ c r Hc). auto.
Qed.
End MonitorLemmas.

Lemma returns_bind {A B : Type} (R : A -> Prop) (R' : B -> Prop) (p : prog A) (f : A -> prog B) :
  returns R p -> (forall a, R a -> returns R' (f a)) -> returns R' (bind p f).
Proof. intros Hp Hf. induction p as [a|msg|c k IH]; cbn in *; auto. Qed.

Lemma returns_any {A : Type} (p : prog A) : returns (fun _ => True) p.
Proof. induction p; cbn; auto. Qed.

Section ReconcileOnly.
Variable IsBroker : Member -> option BrokerMetadata * bool.
Variables SerfCheckID SerfCheckName : string.
Variables SerfCheckAliveOutput SerfCheckFailedOutput : string.

Local Abbreviation reconcile' :=
  (reconcile IsBroker SerfCheckID SerfCheckName SerfCheckAliveOutput SerfCheckFailedOutput).
Local Abbreviation reconcileMember' :=
  (reconcileMember IsBroker SerfCheckID SerfCheckName SerfCheckAliveOutput
                   SerfCheckFailedOutput).

Lemma dispatch_only s m :
  only reconcileMember_calls
       (dispatch IsBroker SerfCheckID SerfCheckName SerfCheckAliveOutput
                 SerfCheckFailedOutput s m).
Proof.
  unfold dispatch, handleLeftMember. destruct (Member_Status m); try exact I.
  - eapply only_weaken; [|apply handleAliveMember_only].
    intros c H. unfold reconcileMember_calls. now rewrite H.
  - eapply only_weaken; [|apply handleDeregisterMember_only].
    intros c H. unfold reconcileMember_calls. rewrite H. now rewrite !orb_true_r.
  - eapply only_weaken; [|apply handleFailedMember_only].
    intros c H. unfold reconcileMember_calls. rewrite H. now rewrite !orb_true_r.
Qed.

Local Opaque dispatch.

Lemma reconcileMember_only s m : only reconcileMember_calls (reconcileMember' s m).
Proof.
  unfold reconcileMember, do. apply only_mbind; [apply dispatch_only|].
  intros [e|]; cbn; auto.
Qed.

Lemma reconcileMember_returns s m : returns (fun err => err = None) (reconcileMember' s m).
Proof.
  unfold reconcileMember, do. eapply returns_bind; [apply returns_any|].
  intros [e|] _; cbn; auto.
Qed.

Local Transparent dispatch.
Local Opaque reconcileMember.

Lemma reconcile_only s : only reconcileMember_calls (reconcile' s).
Proof.
  unfold reconcile, do. cbn. split; [reflexivity|]. intros members.
  induction members as [|member members IH]; cbn; [exact I|].
  apply only_bind; [apply reconcileMember_only|]. intros [e|]; cbn; auto.
Qed.

Lemma reconcile_returns s : returns (fun err => err = None) (reconcile' s).
Proof.
  unfold reconcile, do. cbn. intros members.
  induction members as [|member members IH]; cbn; [reflexivity|].
  eapply returns_bind; [apply reconcileMember_returns|]. intros err ->. exact IH.
Qed.

Local Transparent reconcileMember.
End ReconcileOnly.

Section LeaderLoopMonitors.
Variable IsBroker : Member -> option BrokerMetadata * bool.
Variables SerfCheckID SerfCheckName : string.
Variables SerfCheckAliveOutput SerfCheckFailedOutput : string.

Local Abbreviation reconcile' :=
  (reconcile IsBroker SerfCheckID SerfCheckName SerfCheckAliveOutput SerfCheckFailedOutput).
Local Abbreviation reconcileMember' :=
  (reconcileMember IsBroker SerfCheckID SerfCheckName SerfCheckAliveOutput
                   SerfCheckFailedOutput).
Local Abbreviation leaderLoop_at' :=
  (leaderLoop_at IsBroker SerfCheckID SerfCheckName SerfCheckAliveOutput
                 SerfCheckFailedOutput).

Lemma reconcileMember_calls_ready (c : call) (r : resp c) :
  reconcileMember_calls c = true -> ready_monitor true c r = Some true.
Proof. destruct c; try discriminate; reflexivity. Qed.

Lemma reconcileMember_calls_leadership (c : call) (r : resp c) :
  reconcileMember_calls c = true -> leadership_monitor Established c r = Some Established.
Proof. reflexivity. Qed.

Lemma reconcileMember_calls_stop (c : call) (r : resp c) :
  reconcileMember_calls c = true -> stop_monitor Running c r = Some Running.
Proof. destruct c; try discriminate; reflexivity. Qed.

Lemma reconcileMember_calls_dead_log (c : call) (r : resp c) :
  reconcileMember_calls c = true -> dead_log_monitor tt c r = Some tt.
Proof.
  destruct c; try reflexivity. intros H. unfold dead_log_monitor, is_dead_log.
  repeat match goal with
         | |- context [String.eqb msg ?l] =>
             destruct (String.eqb_spec msg l); [subst msg; destruct lvl; discriminate H|]
         end.
  reflexivity.
Qed.

Local Opaque reconcile reconcileMember.

(** The proof that a monitor holds of the loop: by induction on the fuel,
    following the two labels. *)
Ltac final :=
  cbn; intros;
  first [ exact I | congruence | split; intros; congruence | solve [auto] ].

Ltac under_reconcile step Hcalls IH :=
  apply (holds_bind_unwinding step reconcileMember_calls (fun err => err = None));
  [ apply Hcalls
  | final
  | apply reconcile_only
  | apply reconcile_returns
  | intros err ->; apply (IH _ true _); auto ].

Ltac under_reconcileMember step Hcalls IH :=
  apply (holds_bind_unwinding step reconcileMember_calls (fun _ => True));
  [ apply Hcalls
  | final
  | apply reconcileMember_only
  | apply returns_any
  | intros _ _; apply (IH _ true _); auto ].

Ltac loop_monitor step Hcalls :=
  let IH := fresh "IH" in
  let Hch := fresh "Hch" in
  intros s fuel; induction fuel as [|fuel IH]; intros pc est ch Hch;
  [destruct est; final|];
  destruct pc, est; cbn;
  [ intros [e|]; cbn;
    [ intros []; apply (IH _ true _); discriminate
    | under_reconcile step Hcalls IH ]
  | intros [e|]; cbn;
    [ intros []; apply (IH _ false _); discriminate
    | intros []; under_reconcile step Hcalls IH ]
  | intros [| | |member]; cbn;
    [ final
    | final
    | apply (IH _ true _), Hch
    | destruct ch; [|apply (IH _ true _); discriminate];
      under_reconcileMember step Hcalls IH ]
  | intros [| | |member]; cbn;
    [ final
    | final
    | apply (IH _ false _), Hch
    | destruct ch; [|apply (IH _ false _); discriminate];
      specialize (Hch eq_refl); discriminate Hch ] ].

Lemma leaderLoop_at_ready :
  forall (s : Broker) (fuel : nat) (pc : label) (establishedLeader reconcileCh : bool),
    (reconcileCh = true -> establishedLeader = true) ->
    holds ready_monitor (fun _ _ => True) establishedLeader
          (leaderLoop_at' s fuel pc establishedLeader reconcileCh).
Proof. loop_monitor ready_monitor reconcileMember_calls_ready. Qed.

Lemma leaderLoop_at_leadership :
  forall (s : Broker) (fuel : nat) (pc : label) (establishedLeader reconcileCh : bool),
    (reconcileCh = true -> establishedLeader = true) ->
    holds leadership_monitor (fun st _ => st <> BarrierPassed)
          (if establishedLeader then Established else NotEstablished)
          (leaderLoop_at' s fuel pc establishedLeader reconcileCh).
Proof. loop_monitor leadership_monitor reconcileMember_calls_leadership. Qed.

Lemma leaderLoop_at_stop :
  forall (s : Broker) (fuel : nat) (pc : label) (establishedLeader reconcileCh : bool),
    (reconcileCh = true -> establishedLeader = true) ->
    holds stop_monitor (fun st o => o = Returned true <-> st <> Running) Running
          (leaderLoop_at' s fuel pc establishedLeader reconcileCh).
Proof. loop_monitor stop_monitor reconcileMember_calls_stop. Qed.

Lemma leaderLoop_at_dead_log :
  forall (s : Broker) (fuel : nat) (pc : label) (establishedLeader reconcileCh : bool),
    (reconcileCh = true -> establishedLeader = true) ->
    holds dead_log_monitor (fun _ _ => True) tt
          (leaderLoop_at' s fuel pc establishedLeader reconcileCh).
Proof. loop_monitor dead_log_monitor reconcileMember_calls_dead_log. Qed.
End LeaderLoopMonitors.

(** What an accepted trace looks like. *)

Lemma watch_ready (tr : list event) (ready : bool) :
  is_Some (watch ready_monitor ready tr) ->
  forall pre ev post, tr = pre ++ ev :: post ->
    is_loop_control (call_of ev) = false -> ready_after ready (calls pre) = true.
Proof.
  revert ready. induction tr as [|[c r] tr IH]; intros ready Hw pre ev post Heq Hev.
  - now destruct pre.
  - cbn in Hw. unfold ready_monitor in Hw.
    destruct pre as [|e pre]; cbn in Heq; injection Heq as <- Heq.
    + cbn in *. rewrite Hev in Hw. cbn in Hw. destruct ready; [reflexivity|].
      destruct Hw as [? Hw]. discriminate Hw.
    + destruct (is_loop_control c || ready); [|destruct Hw as [? Hw]; discriminate Hw].
      cbn. exact (IH _ Hw pre ev post Heq Hev).
Qed.

Lemma watch_established (tr : list event) (st' : Leadership) :
  watch leadership_monitor Established tr = Some st' -> st' = Established.
Proof. induction tr as [|[c r] tr IH]; cbn; [congruence|exact IH]. Qed.

Lemma watch_leadership (tr : list event) (st' : Leadership) :
  watch leadership_monitor NotEstablished tr = Some st' ->
  st' <> BarrierPassed ->
  (In SetConsistentReadReady (calls tr) <-> Exists (fun e => barrier_succeeded e = true) tr).
Proof.
  induction tr as [|[c r] tr IH]; intros Hw Hst.
  - split; [intros []|intros H; inversion H].
  - cbn [watch] in Hw. unfold leadership_monitor at 1 in Hw.
    destruct (barrier_succeeded (Ev c r)) eqn:Hb.
    + destruct tr as [|[c' r'] tr]; [cbn in Hw; congruence|].
      cbn [watch] in Hw. unfold leadership_monitor at 1 in Hw.
      destruct (is_Set c') eqn:Hset; [|discriminate].
      split; [intros _; now constructor|].
      intros _. right. left. destruct c'; try discriminate Hset. reflexivity.
    + destruct (is_Set c) eqn:Hset; [discriminate|].
      destruct (IH Hw Hst) as [H1 H2]. split.
      * intros [Hc|H]; [cbn in Hc; rewrite Hc in Hset; discriminate Hset|].
        right. exact (H1 H).
      * intros H. inversion H as [? ? Hb'|? ? H']; subst; [congruence|].
        right. exact (H2 H').
Qed.

Lemma watch_stop (tr : list event) (st' : Stopping) :
  watch stop_monitor Running tr = Some st' ->
  (st' <> Running <-> Exists (fun e => stop_received e = true) tr)
  /\ (forall pre ev post, tr = pre ++ ev :: post -> stop_received ev = true ->
      calls post = [] \/ calls post = [ResetConsistentReadReady]).
Proof.
  assert (Hstopping : forall tr st',
             watch stop_monitor Stopping_ tr = Some st' ->
             st' <> Running /\ (calls tr = [] \/ calls tr = [ResetConsistentReadReady])).
  { intros [|[c r] [|[c' r'] tr0]] st0; cbn.
    - intros [= <-]. split; [discriminate|now left].
    - destruct (is_Reset c) eqn:Hreset; [|discriminate].
      intros [= <-]. split; [discriminate|]. right.
      destruct c; try discriminate Hreset. reflexivity.
    - destruct (is_Reset c); discriminate. }
  induction tr as [|[c r] tr IH]; intros Hw.
  - injection Hw as <-. split; [split; [congruence|intros H; inversion H]|].
    intros [|] ? ? H; discriminate H.
  - cbn [watch] in Hw. unfold stop_monitor at 1 in Hw.
    destruct (stop_received (Ev c r)) eqn:Hstop.
    + destruct (Hstopping _ _ Hw) as [Hst Hcalls]. split.
      * split; [intros _; now constructor|intros _; exact Hst].
      * intros [|e pre] ev post Heq Hev; cbn in Heq; injection Heq as <- Heq.
        -- subst. exact Hcalls.
        -- exfalso. subst tr. clear -Hcalls Hev.
           unfold calls in Hcalls. rewrite map_app in Hcalls. cbn in Hcalls.
           destruct Hcalls as [H|H].
           ++ destruct pre; discriminate.
           ++ destruct pre as [|? [|? ?]]; cbn in H; try discriminate.
              injection H as H. destruct ev as [c' r']. cbn in H. subst c'. discriminate.
    + destruct (IH Hw) as [Hiff Hpost]. split.
      * rewrite Hiff. split; [intros H; now right|].
        intros H. inversion H as [? ? Hb|? ? H']; subst; [congruence|exact H'].
      * intros [|e pre] ev post Heq Hev; cbn in Heq; injection Heq as <- Heq.
        -- congruence.
        -- eauto.
Qed.

Lemma watch_dead_log (tr : list event) :
  is_Some (watch dead_log_monitor tt tr) ->
  Forall (fun c => is_dead_log c = false) (calls tr).
Proof.
  induction tr as [|[c r] tr IH]; cbn; [constructor|].
  unfold dead_log_monitor at 1. destruct (is_dead_log c) eqn:Hc.
  - intros [? H]. discriminate H.
  - intros H. constructor; auto.
Qed.

Section LeaderLoopMore.
Context {W : Type} (env : forall c : call, W -> resp c * W).
Variable IsBroker : Member -> option BrokerMetadata * bool.
Variables SerfCheckID SerfCheckName : string.
Variables SerfCheckAliveOutput SerfCheckFailedOutput : string.

Local Abbreviation leaderLoop' :=
  (leaderLoop IsBroker SerfCheckID SerfCheckName SerfCheckAliveOutput SerfCheckFailedOutput).

(** X19.  In every run of the leader loop the reconciler works only while
    [consistentReadReady] is true: whenever a call is made that is not one
    of the loop itself (the barrier, the [select], the logger, the flag),
    so a call to serf, to the FSM, to the raft configuration, a proposal or
    a request to a peer, the calls made before it have left the flag set.
    Nothing is reconciled before leadership is established. *)
Theorem leaderLoop_reconciles_only_when_ready
    (s : Broker) (fuel : nat) (w : W) (pre : list event) (ev : event) (post : list event) :
  trace env (leaderLoop' s fuel) w = pre ++ ev :: post ->
  is_loop_control (call_of ev) = false ->
  ready_after false (calls pre) = true.
Proof.
  unfold trace, leaderLoop.
  destruct (holds_exec ready_monitor env _ _ _ w
              (leaderLoop_at_ready IsBroker SerfCheckID SerfCheckName SerfCheckAliveOutput
                 SerfCheckFailedOutput s fuel RECONCILE false false ltac:(discriminate)))
    as (st' & Hw & _).
  apply watch_ready. rewrite Hw. eauto.
Qed.

(** X20.  In every run of the leader loop, the readiness flag is set if
    and only if a barrier of the run succeeded: the loop cannot pass a
    barrier without establishing leadership, and it cannot establish it
    without one. *)
Theorem leaderLoop_establishes_at_the_first_barrier (s : Broker) (fuel : nat) (w : W) :
  let tr := trace env (leaderLoop' s fuel) w in
  In SetConsistentReadReady (calls tr) <-> Exists (fun e => barrier_succeeded e = true) tr.
Proof.
  cbn zeta. unfold trace, leaderLoop.
  destruct (holds_exec leadership_monitor env _ _ _ w
              (leaderLoop_at_leadership IsBroker SerfCheckID SerfCheckName SerfCheckAliveOutput
                 SerfCheckFailedOutput s fuel RECONCILE false false ltac:(discriminate)))
    as (st' & Hw & Hst).
  exact (watch_leadership _ _ Hw Hst).
Qed.

(** X21.  The leader loop returns exactly when its [select] receives from
    [stopCh] or from [s.shutdownCh]: a run ends with a return (the
    embedding then answers [true]; it answers [false] for a loop that is
    still running when the fuel is spent) if and only if one of the two was
    received, and after it is received the loop makes at most one more
    call, the reset of the readiness flag.  No error of the barrier or of
    the reconciler makes the loop return. *)
Theorem leaderLoop_returns_when_told_to_stop (s : Broker) (fuel : nat) (w : W) :
  let run := exec env (leaderLoop' s fuel) w in
  (run.2 = Returned true <-> Exists (fun e => stop_received e = true) run.1.1)
  /\ (forall pre ev post, run.1.1 = pre ++ ev :: post -> stop_received ev = true ->
      calls post = [] \/ calls post = [ResetConsistentReadReady]).
Proof.
  cbn zeta. unfold leaderLoop.
  destruct (holds_exec stop_monitor env _ _ _ w
              (leaderLoop_at_stop IsBroker SerfCheckID SerfCheckName SerfCheckAliveOutput
                 SerfCheckFailedOutput s fuel RECONCILE false false ltac:(discriminate)))
    as (st' & Hw & Hst).
  destruct (watch_stop _ _ Hw) as [Hiff Hpost]. split; [|exact Hpost].
  rewrite Hst. exact Hiff.
Qed.

(** X22.  Three error branches of [leaderLoop] are never taken, whatever
    the collaborators answer: [establishLeadership], [reconcile] and
    [revokeLeadership] always return nil, so the messages "leader: failedto
    establish leader", "leader: failed to reconcile" and "leader: failed to
    revoke leadership" are never logged, and a round of the loop is never
    cut short by them. *)
Theorem leaderLoop_never_logs_a_failed_reconcile (s : Broker) (fuel : nat) (w : W) :
  Forall (fun c => is_dead_log c = false) (calls (trace env (leaderLoop' s fuel) w)).
Proof.
  unfold trace, leaderLoop.
  destruct (holds_exec dead_log_monitor env _ _ _ w
              (leaderLoop_at_dead_log IsBroker SerfCheckID SerfCheckName SerfCheckAliveOutput
                 SerfCheckFailedOutput s fuel RECONCILE false false ltac:(discriminate)))
    as (st' & Hw & _).
  apply watch_dead_log. rewrite Hw. eauto.
Qed.
End LeaderLoopMore.

Section LeaderLoopSelect.
Context {W : Type} (env : forall c : call, W -> resp c * W).
Variable IsBroker : Member -> option BrokerMetadata * bool.
Variables SerfCheckID SerfCheckName : string.
Variables SerfCheckAliveOutput SerfCheckFailedOutput : string.

Local Abbreviation leaderLoop_at' :=
  (leaderLoop_at IsBroker SerfCheckID SerfCheckName SerfCheckAliveOutput
                 SerfCheckFailedOutput).

Lemma reconcileMember_calls_select (st : bool) (c : call) (r : resp c) :
  reconcileMember_calls c = true -> select_monitor st c r = Some st.
Proof. destruct c; try discriminate; reflexivity. Qed.

Local Opaque reconcile reconcileMember.

Lemma leaderLoop_at_select (s : Broker) (fuel : nat) (pc : label)
    (establishedLeader reconcileCh st : bool) :
  (pc = WAIT -> st = reconcileCh) ->
  holds select_monitor (fun _ _ => True) st
        (leaderLoop_at' s fuel pc establishedLeader reconcileCh).
Proof.
  revert pc establishedLeader reconcileCh st.
  induction fuel as [|fuel IH]; intros pc est ch st Hst; [exact I|].
  destruct pc; cbn.
  - intros [e|]; cbn.
    + intros []. now apply IH.
    + assert (Hreconciled :
        holds select_monitor (fun _ _ => True) true
          (bind (unwinding (deferred true)
                   (reconcile IsBroker SerfCheckID SerfCheckName SerfCheckAliveOutput
                              SerfCheckFailedOutput s))
             (fun err : option string =>
                match err with
                | Some _ =>
                    bind (do (Log LError "leader: failed to reconcile"))
                         (fun _ => leaderLoop_at' s fuel WAIT true false)
                | None => leaderLoop_at' s fuel WAIT true true
                end))).
      { apply (holds_bind_unwinding select_monitor reconcileMember_calls
                 (fun err => err = None)).
        - apply reconcileMember_calls_select.
        - cbn. auto.
        - apply reconcile_only.
        - apply reconcile_returns.
        - intros err ->. now apply IH. }
      destruct est; cbn; [exact Hreconciled|intros []; exact Hreconciled].
  - rewrite (Hst eq_refl). rewrite Bool.eqb_reflx.
    intros [| | |member]; cbn.
    + destruct est; cbn; auto.
    + destruct est; cbn; auto.
    + apply IH. discriminate.
    + destruct ch; [|now apply IH].
      apply (holds_bind_unwinding select_monitor reconcileMember_calls (fun _ => True)).
      * apply reconcileMember_calls_select.
      * destruct est; cbn; auto.
      * apply reconcileMember_only.
      * apply returns_any.
      * intros _ _. now apply IH.
Qed.

Local Transparent reconcile reconcileMember.

Lemma watch_select (tr : list event) (st : bool) :
  is_Some (watch select_monitor st tr) ->
  forall pre ev post reconcileCh,
    tr = pre ++ ev :: post -> call_of ev = Select reconcileCh ->
    reconcileCh = fold_left (fun acc e => match e with
                                          | Ev (Barrier _) r =>
                                              match r with
                                              | None => true
                                              | Some _ => false
                                              end
                                          | _ => acc
                                          end) pre st.
Proof.
  revert st. induction tr as [|[c r] tr IH]; intros st Hw pre ev post ch Heq Hev.
  - now destruct pre.
  - cbn [watch] in Hw.
    destruct pre as [|e pre]; cbn in Heq; injection Heq as <- Heq.
    + cbn in Hev. subst c. cbn in *.
      destruct (Bool.eqb ch st) eqn:Hch; [now apply Bool.eqb_prop|].
      destruct Hw as [? Hw]. discriminate Hw.
    + destruct (select_monitor st c r) as [st1|] eqn:Hstep;
        [|destruct Hw as [? Hw]; discriminate Hw].
      rewrite (IH st1 Hw pre ev post ch Heq Hev). cbn [fold_left]. f_equal.
      destruct c; cbn in Hstep; try (now injection Hstep as <-).
      destruct (Bool.eqb reconcileCh st); [now injection Hstep as <-|discriminate].
Qed.

(** X23.  In every run of the leader loop, a [select] listens on
    [s.reconcileCh] exactly when the last barrier before it succeeded.
    After a barrier that failed the loop takes no member event, and handles
    none, until a later round passes its barrier; it still takes the stop,
    the shutdown and the tick of the interval. *)
Theorem leaderLoop_listens_after_a_barrier
    (s : Broker) (fuel : nat) (w : W) (pre : list event) (ev : event) (post : list event)
    (reconcileCh : bool) :
  trace env (leaderLoop IsBroker SerfCheckID SerfCheckName SerfCheckAliveOutput
                        SerfCheckFailedOutput s fuel) w = pre ++ ev :: post ->
  call_of ev = Select reconcileCh ->
  reconcileCh = listening pre.
Proof.
  unfold trace, leaderLoop, listening.
  destruct (holds_exec select_monitor env _ _ _ w
              (leaderLoop_at_select s fuel RECONCILE false false false ltac:(discriminate)))
    as (st' & Hw & _).
  apply watch_select. rewrite Hw. eauto.
Qed.
End LeaderLoopSelect.

(** ** [monitorLeadership] *)

Lemma List_last_cons {A : Type} (b : A) (l : list A) (d : A) :
  List.last (b :: l) d = List.last l b.
Proof.
  revert b d. induction l as [|a l IH]; intros b d; [reflexivity|].
  change (List.last (a :: l) d = List.last (a :: l) b). now rewrite !IH.
Qed.

Lemma monitorLeadership_from_loops (weAreLeaderCh : bool) (received : list Received) :
  let acts := (monitorLeadership_from weAreLeaderCh received).1 in
  (forall pre post, acts = pre ++ GoLeaderLoop :: post ->
     started pre + (if weAreLeaderCh then 1 else 0) = waited pre)%nat
  /\ (forall pre post, acts = pre ++ CloseWeAreLeaderCh :: post ->
      (started pre + (if weAreLeaderCh then 1 else 0) = S (waited pre))%nat
      /\ exists post', post = WaitLeaderLoop :: post')
  /\ (started acts + (if weAreLeaderCh then 1 else 0)
      = waited acts + (if List.last (notifications received) weAreLeaderCh then 1 else 0))%nat.
Proof.
  cbn zeta. revert weAreLeaderCh.
  induction received as [|[isLeader|] received IH]; intros ch.
  - cbn. split; [intros [|? ?] ? H; discriminate H|].
    split; [intros [|? ?] ? H; discriminate H|]. reflexivity.
  - cbn [notifications]. rewrite List_last_cons. cbn [monitorLeadership_from].
    destruct isLeader, ch; cbn [negb].
    + specialize (IH true) as (IH1 & IH2 & IH3).
      destruct (monitorLeadership_from true received) as [acts returned]. cbn [fst] in *.
      split; [|split].
      * intros [|a pre] post H; [discriminate H|]. injection H as <- H.
        exact (IH1 _ _ H).
      * intros [|a pre] post H; [discriminate H|]. injection H as <- H.
        exact (IH2 _ _ H).
      * exact IH3.
    + specialize (IH true) as (IH1 & IH2 & IH3).
      destruct (monitorLeadership_from true received) as [acts returned]. cbn [fst] in *.
      split; [|split].
      * intros [|a [|a' pre]] post H; [reflexivity|discriminate H|].
        injection H as <- <- H. specialize (IH1 _ _ H).
        unfold started, waited in *. cbn. lia.
      * intros [|a [|a' pre]] post H; [discriminate H..|].
        injection H as <- <- H. destruct (IH2 _ _ H) as [IH2a IH2b].
        split; [|exact IH2b]. unfold started, waited in *. cbn. lia.
      * unfold started, waited in *. cbn. lia.
    + specialize (IH false) as (IH1 & IH2 & IH3).
      destruct (monitorLeadership_from false received) as [acts returned]. cbn [fst] in *.
      split; [|split].
      * intros [|a [|a1 [|a2 [|a3 pre]]]] post H; try discriminate H.
        injection H as <- <- <- <- H. specialize (IH1 _ _ H).
        unfold started, waited in *. cbn. lia.
      * intros [|a [|a1 [|a2 [|a3 pre]]]] post H; try discriminate H.
        -- injection H as <-. split; [reflexivity|eauto].
        -- injection H as <- <- <- <- H. destruct (IH2 _ _ H) as [IH2a IH2b].
           split; [|exact IH2b]. unfold started, waited in *. cbn. lia.
      * unfold started, waited in *. cbn. lia.
    + specialize (IH false) as (IH1 & IH2 & IH3).
      destruct (monitorLeadership_from false received) as [acts returned]. cbn [fst] in *.
      split; [|split].
      * intros [|a pre] post H; [discriminate H|]. injection H as <- H.
        exact (IH1 _ _ H).
      * intros [|a pre] post H; [discriminate H|]. injection H as <- H.
        exact (IH2 _ _ H).
      * exact IH3.
  - cbn. split; [intros [|? ?] ? H; discriminate H|].
    split; [intros [|? ?] ? H; discriminate H|]. reflexivity.
Qed.

Lemma monitorLeadership_from_snoc (weAreLeaderCh isLeader : bool) (received : list Received) :
  ~ In RecvShutdownCh received ->
  (monitorLeadership_from weAreLeaderCh (received ++ [RecvNotify isLeader])).1
  = (monitorLeadership_from weAreLeaderCh received).1
    ++ (if Bool.eqb isLeader (List.last (notifications received) weAreLeaderCh) then
          [DoLog LError
             (if isLeader then "leader: attempted to start the leader loop while running"
              else "leader: attempted to stop the leader loop while not running")]
        else if isLeader then
          [GoLeaderLoop; DoLog LInfo "leader: cluster leadership acquired"]
        else
          [DoLog LDebug "leader: shutting down leader loop"; CloseWeAreLeaderCh;
           WaitLeaderLoop; DoLog LInfo "leader: cluster leadership lost"]).
Proof.
  revert weAreLeaderCh. induction received as [|[b|] received IH]; intros ch Hno.
  - destruct isLeader, ch; reflexivity.
  - assert (Hno' : ~ In RecvShutdownCh received) by (intros H; apply Hno; now right).
    cbn [notifications]. rewrite List_last_cons.
    change ((RecvNotify b :: received) ++ [RecvNotify isLeader])
      with (RecvNotify b :: (received ++ [RecvNotify isLeader])).
    cbn [monitorLeadership_from].
    destruct b, ch; cbn [negb];
      match goal with
      | |- context [monitorLeadership_from ?c (received ++ _)] =>
          specialize (IH c Hno');
          destruct (monitorLeadership_from c (received ++ [RecvNotify isLeader]))
            as [acts' returned'];
          destruct (monitorLeadership_from c received) as [acts returned]
      end;
      cbn [fst] in *; rewrite IH; reflexivity.
  - exfalso. apply Hno. now left.
Qed.

(** X24.  [monitorLeadership] keeps at most one leader loop running.  A
    leader loop is started only when every loop started before it has been
    stopped and waited for; the stop channel is closed only while one loop
    runs, and the close is followed directly by the wait for that loop to
    return.  After every notification the number of loops running is one if
    the last notification said that this node is the leader and zero
    otherwise.  What the function does for one more notification depends
    on the last one only: a notification that repeats it only logs an
    error, "leader: attempted to start the leader loop while running" or
    "leader: attempted to stop the leader loop while not running", and
    starts and stops nothing; a notification of leadership acquired starts
    the loop and logs it; a notification of leadership lost logs, closes
    the channel, waits for the loop and logs again. *)
Theorem monitorLeadership_runs_one_leader_loop (received : list Received) :
  let acts := (monitorLeadership received).1 in
  (forall pre post, acts = pre ++ GoLeaderLoop :: post -> started pre = waited pre)
  /\ (forall pre post, acts = pre ++ CloseWeAreLeaderCh :: post ->
      started pre = S (waited pre) /\ exists post', post = WaitLeaderLoop :: post')
  /\ started acts = (waited acts + (if is_leader received then 1 else 0))%nat
  /\ (~ In RecvShutdownCh received ->
      forall isLeader,
        (monitorLeadership (received ++ [RecvNotify isLeader])).1
        = acts ++ (if Bool.eqb isLeader (is_leader received) then
                     [DoLog LError
                        (if isLeader
                         then "leader: attempted to start the leader loop while running"
                         else "leader: attempted to stop the leader loop while not running")]
                   else if isLeader then
                     [GoLeaderLoop; DoLog LInfo "leader: cluster leadership acquired"]
                   else
                     [DoLog LDebug "leader: shutting down leader loop"; CloseWeAreLeaderCh;
                      WaitLeaderLoop; DoLog LInfo "leader: cluster leadership lost"])).
Proof.
  cbn zeta. unfold monitorLeadership, is_leader.
  destruct (monitorLeadership_from_loops false received) as (H1 & H2 & H3).
  cbn zeta in *. split; [|split; [|split]].
  - intros pre post H. rewrite <- (H1 _ _ H). lia.
  - intros pre post H. destruct (H2 _ _ H) as [Ha Hb]. split; [lia|exact Hb].
  - lia.
  - intros Hno isLeader. exact (monitorLeadership_from_snoc false isLeader received Hno).
Qed.

(** X25.  [monitorLeadership] returns exactly when it receives from
    [s.shutdownCh], and it does nothing on the way out: what it has done is
    what it did for the notifications received before the shutdown, so a
    leader loop that is running then is neither stopped nor waited for. *)
Theorem monitorLeadership_returns_on_shutdown (received : list Received) :
  ((monitorLeadership received).2 = true <-> In RecvShutdownCh received)
  /\ (monitorLeadership received).1
     = (monitorLeadership (map RecvNotify (notifications received))).1.
Proof.
  unfold monitorLeadership. generalize false.
  induction received as [|[isLeader|] received IH]; intros ch.
  - cbn. split; [split; [discriminate|intros []]|reflexivity].
  - cbn [monitorLeadership_from notifications map].
    destruct isLeader, ch; cbn [negb];
      match goal with
      | |- context [monitorLeadership_from ?b received] =>
          destruct (IH b) as [[IHa IHb] IHc];
          destruct (monitorLeadership_from b received) as [acts returned];
          destruct (monitorLeadership_from b (map RecvNotify (notifications received)))
            as [acts' returned']
      end;
      cbn [fst snd] in *; (split; [split; [intros H; right; exact (IHa H)
                                         |intros [H|H]; [discriminate H|exact (IHb H)]]
                                  |now rewrite IHc]).
  - cbn. split; [split; [intros _; now left|reflexivity]|reflexivity].
Qed.

(** ** The theorems on concrete runs *)

(** The controller [b], alone in its configuration, does not add itself. *)
Lemma joinCluster_b_alone :
  added (trace cluster_env
           (joinCluster IsBroker_tags controller (member_b StatusAlive)
                        (Some (meta_of (member_b StatusAlive)))) b_alone) = []
  /\ result cluster_env
       (joinCluster IsBroker_tags controller (member_b StatusAlive)
                    (Some (meta_of (member_b StatusAlive)))) b_alone = Returned None.
Proof.
  exact (joinCluster_skips_self_in_a_small_cluster cluster_env IsBroker_tags controller
           (member_b StatusAlive) (meta_of (member_b StatusAlive)) b_alone
           {| Configuration_Servers := [server_of (member_b StatusAlive)] |}
           (or_introl eq_refl)).
Defined.

(** The broker [c] joins: it has no node yet, and gets one. *)
Lemma handleAliveMember_c_joins :
  proposed (trace cluster_env (alive_b (member_c StatusAlive)) b_alone)
    = [(RegisterNodeRequestType,
        RegisterNodeRequest (aliveNode "serfHealth" "Serf Health Status" "alive"
                                       (meta_of (member_c StatusAlive))))]
  /\ result cluster_env (alive_b (member_c StatusAlive)) b_alone = Returned None.
Proof.
  refine (proj1 (proj2 (proj2 (proj2
            (handleAliveMember_registers_a_missing_node cluster_env IsBroker_tags
               "serfHealth" "Serf Health Status" "alive" controller
               (member_c StatusAlive) (meta_of (member_c StatusAlive)) b_alone eq_refl))))
            _ _).
  - vm_compute. auto.
  - vm_compute. tauto.
Defined.

(** Raft refuses to remove the server of [c], which has left: its node
    stays registered. *)
Lemma handleDeregisterMember_c_stays :
  let w := failing_on is_RemoveServer (three_brokers StatusAlive StatusAlive StatusLeft) in
  let run := exec cluster_env
               (handleDeregisterMember IsBroker_tags controller "left" (member_c StatusLeft))
               w in
  run.2 = Returned (Some "injected failure")
  /\ getNode_answers run.1.1 = [] /\ proposed run.1.1 = [].
Proof.
  refine (proj1 (proj2 (proj2 (proj2
            (handleDeregisterMember_keeps_the_node_when_raft_refuses cluster_env IsBroker_tags
               controller "left" (member_c StatusLeft) (meta_of (member_c StatusLeft))
               (failing_on is_RemoveServer (three_brokers StatusAlive StatusAlive StatusLeft))
               eq_refl _))))
            "injected failure" _).
  - vm_compute. discriminate.
  - vm_compute. auto.
Defined.

(** Raft accepts no proposal when [a] fails: nothing of the failover is
    done. *)
Lemma handleFailedMember_a_not_recorded :
  let w := failing_on is_RaftApply (three_brokers StatusFailed StatusAlive StatusAlive) in
  let run := exec cluster_env (failed_b (member_a StatusFailed)) w in
  (exists e, run.2 = Returned (Some e))
  /\ Forall (fun c => is_failover c = false) (calls run.1.1).
Proof.
  refine (proj2 (handleFailedMember_registers_critical_first cluster_env IsBroker_tags
            "serfHealth" "Serf Health Status" "failed" controller
            (member_a StatusFailed) (meta_of (member_a StatusFailed))
            (failing_on is_RaftApply (three_brokers StatusFailed StatusAlive StatusAlive))
            eq_refl) _).
  vm_compute. reflexivity.
Defined.

(** The FSM fails to list its nodes when [a] fails. *)
Lemma handleFailedMember_a_nodes_unread :
  let w := failing_on is_GetNodes (three_brokers StatusFailed StatusAlive StatusAlive) in
  let run := exec cluster_env (failed_b (member_a StatusFailed)) w in
  run.2 = Returned (Some "injected failure")
  /\ committed run.1.1 = [critical_a] /\ sent run.1.1 = [].
Proof.
  refine (proj2 (proj2 (handleFailedMember_read_errors cluster_env IsBroker_tags
            "serfHealth" "Serf Health Status" "failed" controller
            (member_a StatusFailed) (meta_of (member_a StatusFailed))
            (failing_on is_GetNodes (three_brokers StatusFailed StatusAlive StatusAlive))
            eq_refl))
            [passing_node (member_b StatusAlive); passing_node (member_c StatusAlive);
             failedNode "serfHealth" "Serf Health Status" "failed"
                        (member_a StatusFailed) (meta_of (member_a StatusFailed))]
            "injected failure" _).
  vm_compute. auto.
Defined.



(** The log cache cannot be created: the bolt store, already open, is
    closed. *)
Lemma setupRaft_closes_after_a_failed_log_cache :
  closes (trace cluster_env (setupRaft "raft" 512 2 disk_broker)
                (failing_on is_NewLogCache fresh_machine)) = [RaftStoreClose].
Proof.
  apply (setupRaft_closes_an_orphan_store cluster_env "raft" 512 2 disk_broker
           (failing_on is_NewLogCache fresh_machine) eq_refl eq_refl).
  vm_compute. split; [auto|]. intros err [].
Defined.

(** A leadership of two rounds: the members are listed after the flag is
    set. *)
Lemma leaderLoop_lists_members_when_ready :
  ready_after false [Barrier (2 * Minute)%Z; SetConsistentReadReady] = true.
Proof.
  exact (leaderLoop_reconciles_only_when_ready cluster_env IsBroker_tags
           "serfHealth" "Serf Health Status" "alive" "failed" controller 10
           {| Cluster_members := []; Cluster_nodes := []; Cluster_partitions := [];
              Cluster_servers := []; Cluster_brokers := []; Cluster_draws := [];
              Cluster_received := [RecvInterval; RecvStop]; Cluster_hasState := true;
              Cluster_failing := never_failing |}
           [Ev (Barrier (2 * Minute)%Z) None; Ev SetConsistentReadReady tt]
           (Ev LANMembers [])
           [Ev (Select true) RecvInterval; Ev (Barrier (2 * Minute)%Z) None;
            Ev LANMembers []; Ev (Select true) RecvStop; Ev ResetConsistentReadReady tt]
           eq_refl eq_refl).
Defined.

(** [a] fails while the FSM holds a node without a health check. *)
Lemma handleFailedMember_a_fails_beside_a_bare_node :
  let run := exec cluster_env (failed_b (member_a StatusFailed)) with_a_bare_node in
  run.2 = Panicked nil_dereference /\ registered run.1.1 = [] /\ sent run.1.1 = [].
Proof.
  refine (handleFailedMember_panics_on_a_node_without_check cluster_env IsBroker_tags
            "serfHealth" "Serf Health Status" "failed" controller
            (member_a StatusFailed) (meta_of (member_a StatusFailed)) with_a_bare_node
            [passing_node (member_b StatusAlive); passing_node (member_c StatusAlive);
             bareNode 9;
             failedNode "serfHealth" "Serf Health Status" "failed"
                        (member_a StatusFailed) (meta_of (member_a StatusFailed))]
            eq_refl _ _).
  - vm_compute. auto.
  - apply Exists_cons_tl, Exists_cons_tl, Exists_cons_hd. reflexivity.
Defined.

(** The barrier fails: the [select] that follows does not listen for member
    events. *)
Lemma leaderLoop_deaf_after_a_failed_barrier :
  false = listening [Ev (Barrier (2 * Minute)%Z) (Some "injected failure");
                     Ev (Log LError "leader: failed to wait for barrier") tt].
Proof.
  exact (leaderLoop_listens_after_a_barrier cluster_env IsBroker_tags
           "serfHealth" "Serf Health Status" "alive" "failed" controller 10 no_barrier
           [Ev (Barrier (2 * Minute)%Z) (Some "injected failure");
            Ev (Log LError "leader: failed to wait for barrier") tt]
           (Ev (Select false) RecvStop) [] false eq_refl eq_refl).
Defined.
